(** * Natural-language log queries to OpenSearch requests

    A shallow embedding of [nlq_parser.py] (classes [OpenSearchQueryBuilder]
    and [NLQParser]) together with the part of the Python runtime the parser
    relies on: [str] methods, the [re] module restricted to the constructs the
    patterns of the file use, and [json.dumps].

    Python strings are sequences of code points.  Here a character is a code
    point below 256 (the [ascii] type read as Latin-1); the character classes
    below follow CPython's Unicode tables on that range.  Integers are
    unbounded ([Z]), and [int] refuses a text of more than 4300 digits as
    CPython does.  Exceptions are values: a function that can raise
    returns in [Py.exc].

    Of the two clients, [webex_client.py] and [opensearch_client.py], the
    parts that do not talk to the network are embedded as well: the reading
    of the cookie string and the conversion of a query dictionary to the
    Webex request in [WebexLogsClient], and what [query] does with the text
    of the parser in both clients.  There [json.loads] is a parameter, the
    clock is an argument, and a call that goes to the network is the outcome
    of the function. *)

From Stdlib Require Import Bool Arith List NArith ZArith Lia Ascii String.
From Stdlib Require Import DecimalString DecimalPos.
Import ListNotations.

Set Warnings "-register-all".
Open Scope string_scope.

(** ** Python strings *)

Module Py.

Definition ord (c : ascii) : N := N_of_ascii c.

Definition between (lo hi : N) (c : ascii) : bool :=
  ((lo <=? ord c) && (ord c <=? hi))%N.

(** [str.isspace] on one character; also the class [\s] of [re]. *)
Definition isspace (c : ascii) : bool :=
  between 9 13 c || between 28 32 c || (ord c =? 133)%N || (ord c =? 160)%N.

(** [str.isdecimal] on one character; the class [\d] of [re]. *)
Definition isdecimal (c : ascii) : bool := between 48 57 c.

Definition isupper_ascii (c : ascii) : bool := between 65 90 c.
Definition islower_ascii (c : ascii) : bool := between 97 122 c.

(** [str.isalnum] on one character. *)
Definition isalnum (c : ascii) : bool :=
  isdecimal c || isupper_ascii c || islower_ascii c
  || (ord c =? 170)%N || between 178 179 c || (ord c =? 181)%N
  || between 185 186 c || between 188 190 c
  || between 192 214 c || between 216 246 c || between 248 255 c.

(** The class [\w] of [re]. *)
Definition isword (c : ascii) : bool := isalnum c || (c =? "_")%char.

(** [str.lower] on one character: the upper-case letters of Latin-1 are
    [A-Z] and U+00C0..U+00DE without the multiplication sign U+00D7. *)
Definition lower_char (c : ascii) : ascii :=
  if isupper_ascii c || between 192 214 c || between 216 222 c
  then ascii_of_N (ord c + 32) else c.

Fixpoint lower (s : string) : string :=
  match s with
  | EmptyString => EmptyString
  | String c s' => String (lower_char c) (lower s')
  end.

Fixpoint lstrip (s : string) : string :=
  match s with
  | EmptyString => EmptyString
  | String c s' => if isspace c then lstrip s' else s
  end.

Fixpoint rstrip (s : string) : string :=
  match s with
  | EmptyString => EmptyString
  | String c s' =>
      match rstrip s' with
      | EmptyString => if isspace c then EmptyString else String c EmptyString
      | t => String c t
      end
  end.

Definition strip (s : string) : string := rstrip (lstrip s).

(** [sub in s] on strings. *)
Fixpoint contains (sub s : string) : bool :=
  prefix sub s ||
  match s with
  | EmptyString => false
  | String _ s' => contains sub s'
  end.

Fixpoint last_char (s : string) : option ascii :=
  match s with
  | EmptyString => None
  | String c EmptyString => Some c
  | String _ s' => last_char s'
  end.

(** [s.endswith(c)] for a one-character suffix. *)
Definition endswith_char (s : string) (c : ascii) : bool :=
  match last_char s with
  | Some d => (d =? c)%char
  | None => false
  end.

(** [x in l] on a list (or set) of strings. *)
Definition mem (x : string) (l : list string) : bool :=
  existsb (String.eqb x) l.

(** Exceptions that the embedded code can raise. *)
Inductive exn : Type :=
| KeyError (key : string)
| ValueError (arg : string)
| IndexError.

Inductive exc (A : Type) : Type :=
| Ok (a : A)
| Raise (e : exn).
Arguments Ok {A} a.
Arguments Raise {A} e.

Definition bind {A B} (m : exc A) (f : A -> exc B) : exc B :=
  match m with
  | Ok a => f a
  | Raise e => Raise e
  end.

(** [int(s)] on the texts the parser converts, which are captures of [\d+]:
    a non-empty string of at most 4300 decimal digits gives its value,
    anything else is a [ValueError].  The bound is CPython's limit on the
    conversion of a text to an integer ([sys.int_info.default_max_str_digits]);
    it counts every digit, leading zeros included. *)
Definition int_max_str_digits : Z := 4300.

Definition too_long (s : string) : bool :=
  (int_max_str_digits <? Z.of_nat (String.length s))%Z.

Definition digit_value (c : ascii) : Z := Z.of_N (ord c) - 48.

Fixpoint int_acc (acc : Z) (s : string) : option Z :=
  match s with
  | EmptyString => Some acc
  | String c s' =>
      if isdecimal c then int_acc (10 * acc + digit_value c) s' else None
  end.

Definition int (s : string) : exc Z :=
  match s with
  | EmptyString => Raise (ValueError s)
  | _ => if too_long s then Raise (ValueError s)
         else match int_acc 0 s with
              | Some z => Ok z
              | None => Raise (ValueError s)
              end
  end.

(** [str(n)] for an integer. *)
Definition str_of_int (z : Z) : string := NilZero.string_of_int (Z.to_int z).

End Py.

Notation "x <- m ;; k" := (Py.bind m (fun x => k))
  (at level 61, m at next level, right associativity).

(** ** The fragment of [re] used by the parser *)

Module Re.

(** Repetition is only ever applied to a character class in the patterns of
    the parser, so [RStar] takes a class; [r+] is [r r*] and [r?] is [r|]. *)
Inductive regex : Type :=
| RChar (p : ascii -> bool)
| REps
| RSeq (r1 r2 : regex)
| RAlt (r1 r2 : regex)
| RStar (p : ascii -> bool)
| RGroup (r : regex)
| RBound.

Definition chr (c : ascii) : regex := RChar (Ascii.eqb c).

Fixpoint lit (w : string) : regex :=
  match w with
  | EmptyString => REps
  | String c w' => RSeq (chr c) (lit w')
  end.

Definition plus (p : ascii -> bool) : regex := RSeq (RChar p) (RStar p).
Definition opt (r : regex) : regex := RAlt r REps.
Definition never : regex := RChar (fun _ => false).

Definition alts (ws : list string) : regex :=
  fold_right (fun w r => RAlt (lit w) r) never ws.

Definition seq (rs : list regex) : regex := fold_right RSeq REps rs.

(** Position in the subject: the character before it, the text after it, its
    index, and the groups closed so far. *)
Record cursor : Type := Cursor {
  c_prev : option ascii;
  c_rest : string;
  c_pos : nat;
  c_groups : list string
}.

Definition is_word_opt (o : option ascii) : bool :=
  match o with
  | Some c => Py.isword c
  | None => false
  end.

Definition next_char (s : string) : option ascii :=
  match s with
  | EmptyString => None
  | String c _ => Some c
  end.

Definition at_boundary (c : cursor) : bool :=
  xorb (is_word_opt (c_prev c)) (is_word_opt (next_char (c_rest c))).

Definition close_group (c0 c1 : cursor) : cursor :=
  Cursor (c_prev c1) (c_rest c1) (c_pos c1)
         (c_groups c1 ++ [substring 0 (c_pos c1 - c_pos c0) (c_rest c0)])%list.

(** Greedy [p*] followed by the continuation [k]: the longest run first, one
    character less on each failure of [k]. *)
Fixpoint star (p : ascii -> bool) (k : cursor -> option cursor)
         (pv : option ascii) (s : string) (n : nat) (g : list string)
  : option cursor :=
  match s with
  | String a s' =>
      if p a then
        match star p k (Some a) s' (S n) g with
        | Some c => Some c
        | None => k (Cursor pv s n g)
        end
      else k (Cursor pv s n g)
  | EmptyString => k (Cursor pv s n g)
  end.

(** Backtracking matcher in continuation-passing style: alternatives left to
    right, the first success wins. *)
Fixpoint rmatch (r : regex) (k : cursor -> option cursor) (c : cursor)
  : option cursor :=
  match r with
  | RChar p =>
      match c_rest c with
      | String a s' =>
          if p a then k (Cursor (Some a) s' (S (c_pos c)) (c_groups c))
          else None
      | EmptyString => None
      end
  | REps => k c
  | RSeq r1 r2 => rmatch r1 (fun c' => rmatch r2 k c') c
  | RAlt r1 r2 =>
      match rmatch r1 k c with
      | Some c' => Some c'
      | None => rmatch r2 k c
      end
  | RStar p => star p k (c_prev c) (c_rest c) (c_pos c) (c_groups c)
  | RGroup r' => rmatch r' (fun c' => k (close_group c c')) c
  | RBound => if at_boundary c then k c else None
  end.

(** A match object: [start()], [end()], [group(0)] and the numbered groups. *)
Record Match : Type := MkMatch {
  m_start : nat;
  m_end : nat;
  m_text : string;
  m_groups : list string
}.

Definition group (m : Match) (i : nat) : Py.exc string :=
  match i with
  | O => Py.Ok (m_text m)
  | S j => match nth_error (m_groups m) j with
           | Some g => Py.Ok g
           | None => Py.Raise Py.IndexError
           end
  end.

(** One attempt at position [n]; with [adv] set an empty match is refused
    (the matcher's must-advance flag after an empty match). *)
Definition accept (adv : bool) (n : nat) (c : cursor) : option cursor :=
  if adv && (c_pos c =? n)%nat then None else Some c.

Definition match_at (r : regex) (adv : bool) (pv : option ascii) (s : string)
           (n : nat) : option Match :=
  match rmatch r (accept adv n) (Cursor pv s n []) with
  | Some c => Some (MkMatch n (c_pos c) (substring 0 (c_pos c - n) s)
                            (c_groups c))
  | None => None
  end.

(** [re.search]: the leftmost position at which the pattern matches. *)
Fixpoint search_from (r : regex) (pv : option ascii) (s : string) (n : nat)
  : option Match :=
  match match_at r false pv s n with
  | Some m => Some m
  | None =>
      match s with
      | String a s' => search_from r (Some a) s' (S n)
      | EmptyString => None
      end
  end.

Definition search (r : regex) (s : string) : option Match :=
  search_from r None s 0.

(** [re.match]: the pattern at position 0 only. *)
Definition match_ (r : regex) (s : string) : option Match :=
  match_at r false None s 0.

(** The left-to-right scan shared by [re.sub] and [re.findall]: the subject
    cut into the characters outside every match and the successive
    non-overlapping matches.  [skip] counts the characters still inside the
    last match.  After an empty match the same position is tried once more,
    for a match that advances, before the scan moves on. *)
Inductive piece : Type :=
| Keep (c : ascii)
| Hit (m : Match).

Fixpoint scan (r : regex) (adv : bool) (skip : nat) (pv : option ascii)
         (s : string) (n : nat) : list piece :=
  match skip with
  | S skip' =>
      match s with
      | String a s' => scan r false skip' (Some a) s' (S n)
      | EmptyString => []
      end
  | O =>
      match match_at r adv pv s n with
      | Some m =>
          match m_end m - n with
          | O => Hit m :: match s with
                          | String a s' =>
                              match match_at r true pv s n with
                              | Some m' =>
                                  Hit m' :: scan r false (m_end m' - S n)
                                                 (Some a) s' (S n)
                              | None => Keep a :: scan r false 0 (Some a) s' (S n)
                              end
                          | EmptyString => []
                          end
          | S len =>
              Hit m :: match s with
                       | String a s' => scan r false len (Some a) s' (S n)
                       | EmptyString => []
                       end
          end
      | None =>
          match s with
          | String a s' => Keep a :: scan r false 0 (Some a) s' (S n)
          | EmptyString => []
          end
      end
  end.

Fixpoint sub_pieces (repl : string) (ps : list piece) : string :=
  match ps with
  | [] => EmptyString
  | Keep c :: ps' => String c (sub_pieces repl ps')
  | Hit _ :: ps' => repl ++ sub_pieces repl ps'
  end.

Fixpoint hit_texts (ps : list piece) : list string :=
  match ps with
  | [] => []
  | Keep _ :: ps' => hit_texts ps'
  | Hit m :: ps' => m_text m :: hit_texts ps'
  end.

(** [re.sub(r, repl, s)] for a literal replacement. *)
Definition sub (r : regex) (repl s : string) : string :=
  sub_pieces repl (scan r false 0 None s 0).

(** [re.findall(r, s)] for a pattern without groups. *)
Definition findall (r : regex) (s : string) : list string :=
  hit_texts (scan r false 0 None s 0).

End Re.

(** ** JSON values and [json.dumps] *)

Module Json.

(** The values the parser builds.  A [dict] keeps its keys in insertion
    order, so it is an association list. *)
Inductive json : Type :=
| JStr (s : string)
| JInt (z : Z)
| JList (l : list json)
| JDict (kv : list (string * json)).

Definition dict : Type := list (string * json).

(** [d[k] = v]: an existing key keeps its place, a new key goes last. *)
Fixpoint dict_set (d : dict) (k : string) (v : json) : dict :=
  match d with
  | [] => [(k, v)]
  | (k', v') :: d' =>
      if (k' =? k)%string then (k, v) :: d' else (k', v') :: dict_set d' k v
  end.

Fixpoint dict_get (d : dict) (k : string) : option json :=
  match d with
  | [] => None
  | (k', v) :: d' => if (k' =? k)%string then Some v else dict_get d' k
  end.

Definition dquote : ascii := "034"%char.
Definition backslash : ascii := "092"%char.

Definition hex_digit (n : N) : ascii :=
  match get (N.to_nat n) "0123456789abcdef" with
  | Some c => c
  | None => "0"%char
  end.

(** [ensure_ascii] escaping of one character. *)
Definition escape_char (c : ascii) : string :=
  let n := Py.ord c in
  if (c =? dquote)%char then String backslash (String dquote "")
  else if (c =? backslash)%char then String backslash (String backslash "")
  else if (n =? 10)%N then String backslash "n"
  else if (n =? 13)%N then String backslash "r"
  else if (n =? 9)%N then String backslash "t"
  else if (n =? 8)%N then String backslash "b"
  else if (n =? 12)%N then String backslash "f"
  else if Py.between 32 126 c then String c ""
  else String backslash
         ("u00" ++ String (hex_digit (n / 16)) (String (hex_digit (n mod 16)) "")).

Fixpoint escape (s : string) : string :=
  match s with
  | EmptyString => EmptyString
  | String c s' => escape_char c ++ escape s'
  end.

Definition encode_str (s : string) : string :=
  String dquote (escape s ++ String dquote "").

(** [json.dumps(v, separators=(item_sep, key_sep))]. *)
Fixpoint dumps (item_sep key_sep : string) (v : json) : string :=
  match v with
  | JStr s => encode_str s
  | JInt z => Py.str_of_int z
  | JList l =>
      "[" ++ (fix items (l : list json) : string :=
                match l with
                | [] => ""
                | x :: l' =>
                    match l' with
                    | [] => dumps item_sep key_sep x
                    | _ => dumps item_sep key_sep x ++ item_sep ++ items l'
                    end
                end) l ++ "]"
  | JDict kv =>
      "{" ++ (fix members (kv : list (string * json)) : string :=
                match kv with
                | [] => ""
                | (k, x) :: kv' =>
                    match kv' with
                    | [] => encode_str k ++ key_sep ++ dumps item_sep key_sep x
                    | _ => encode_str k ++ key_sep ++ dumps item_sep key_sep x
                           ++ item_sep ++ members kv'
                    end
                end) kv ++ "}"
  end.

(** [json.dumps(v)] with the default separators. *)
Definition dumps_default : json -> string := dumps ", " ": ".

(** [json.dumps(v, separators=(',', ':'))]. *)
Definition dumps_compact : json -> string := dumps "," ":".

(** Expected texts are written with an apostrophe wherever the JSON text has a
    quotation mark; [dq] puts the quotation marks back. *)
Fixpoint dq (s : string) : string :=
  match s with
  | EmptyString => EmptyString
  | String c s' => String (if (c =? "'")%char then dquote else c) (dq s')
  end.

End Json.

Import Json.

(** ** class OpenSearchQueryBuilder *)

Module OpenSearchQueryBuilder.

Record t : Type := Build {
  default_size : Z;
  default_sort : json
}.

Definition TIMESTAMP_FIELD : string := "@timestamp".

Definition __init__ : t :=
  {| default_size := 50;
     default_sort := JList [JDict [(TIMESTAMP_FIELD, JStr "desc")]] |}.

Definition build_base_query (self : t) (size : option Z) : dict :=
  [("size", JInt match size with
                 | Some n => n
                 | None => default_size self
                 end);
   ("sort", default_sort self)].

(** Truth value of an optional list argument: [None] and [[]] are false. *)
Definition truthy_list {A} (o : option (list A)) : bool :=
  match o with
  | Some (_ :: _) => true
  | _ => false
  end.

Definition set_if_truthy (key : string) (o : option (list json)) (d : dict)
  : dict :=
  match o with
  | Some (x :: l) => dict_set d key (JList (x :: l))
  | _ => d
  end.

Definition build_bool_query (must should must_not filter : option (list json))
  : json :=
  let bool_query := [] in
  let bool_query := set_if_truthy "must" must bool_query in
  let bool_query := set_if_truthy "should" should bool_query in
  let bool_query := set_if_truthy "must_not" must_not bool_query in
  let bool_query := set_if_truthy "filter" filter bool_query in
  JDict [("bool", JDict bool_query)].

Definition time_map : list (string * string) :=
  [("minute", "m"); ("minutes", "m"); ("min", "m");
   ("hour", "h"); ("hours", "h"); ("hr", "h"); ("hrs", "h");
   ("day", "d"); ("days", "d");
   ("week", "w"); ("weeks", "w");
   ("month", "M"); ("months", "M");
   ("year", "y"); ("years", "y")].

(** [table[key]]. *)
Fixpoint getitem (table : list (string * string)) (key : string)
  : Py.exc string :=
  match table with
  | [] => Py.Raise (Py.KeyError key)
  | (k, v) :: table' => if (k =? key)%string then Py.Ok v else getitem table' key
  end.

Definition time_units : list string :=
  ["minute"; "minutes"; "min"; "hour"; "hours"; "hr"; "hrs"; "day"; "days";
   "week"; "weeks"; "month"; "months"; "year"; "years"].

(** [last\s+(\d+)\s+(minute|minutes|min|hour|...|year|years)] *)
Definition last_pattern : Re.regex :=
  Re.seq [Re.lit "last"; Re.plus Py.isspace; Re.RGroup (Re.plus Py.isdecimal);
          Re.plus Py.isspace; Re.RGroup (Re.alts time_units)].

Definition range_clause (bounds : dict) : json :=
  JDict [("range", JDict [(TIMESTAMP_FIELD, JDict bounds)])].

Definition build_time_range (self : t) (time_spec : string)
  : Py.exc (option json) :=
  match Re.search last_pattern (Py.lower time_spec) with
  | Some m =>
      amount <- Re.group m 1 ;;
      unit <- Re.group m 2 ;;
      elastic_unit <- getitem time_map unit ;;
      Py.Ok (Some (range_clause [("gte", JStr ("now-" ++ amount ++ elastic_unit))]))
  | None =>
      if Py.contains "today" (Py.lower time_spec) then
        Py.Ok (Some (range_clause [("gte", JStr "now/d")]))
      else if Py.contains "yesterday" (Py.lower time_spec) then
        Py.Ok (Some (range_clause [("gte", JStr "now-1d/d"); ("lt", JStr "now/d")]))
      else Py.Ok None
  end.

Definition build_service_filter (self : t) (service_name : string) : json :=
  JDict [("match", JDict [("service.name", JStr service_name)])].

Definition build_log_level_filter (self : t) (level : string) : json :=
  JDict [("match", JDict [("log.level", JStr (Py.lower level))])].

Definition build_text_search (self : t) (text : string) (field : string) : json :=
  if (field =? "_all")%string then JDict [("match", JDict [("_all", JStr text)])]
  else JDict [("match", JDict [(field, JStr text)])].

End OpenSearchQueryBuilder.

(** ** class NLQParser *)

Module NLQParser.

Module QB := OpenSearchQueryBuilder.

(** The logger of the parser: [__init__] either installs a handler at level
    INFO or disables the logger, so [debug] records are dropped in both cases
    and only [info] and [warning] records are kept. *)
Record Logger : Type := MkLogger {
  enabled : bool;
  records : list (string * string)
}.

Record t : Type := Build {
  query_builder : QB.t;
  logger : Logger
}.

Definition __init__ (enable_logging : bool) : t :=
  {| query_builder := QB.__init__;
     logger := MkLogger enable_logging [] |}.

Definition emit (levelname msg : string) (self : t) : t :=
  if enabled (logger self)
  then Build (query_builder self)
             (MkLogger true (records (logger self) ++ [(levelname, msg)])%list)
  else self.

Definition info : string -> t -> t := emit "INFO".
Definition warning : string -> t -> t := emit "WARNING".

Definition UNSUPPORTED_MESSAGE : string :=
  "Unsupported query. Please rephrase or check available APIs.".

Definition error_dict (msg : string) : json := JDict [("error", JStr msg)].
Definition api_dict (path : string) : json := JDict [("api", JStr path)].

Definition unsupported_keywords : list string :=
  ["create"; "delete"; "update"; "insert"; "put"; "post"; "mapping"; "mappings";
   "index"; "reindex"; "bulk"; "scroll"; "aggregate"; "aggregation"; "pipeline";
   "template"; "settings"; "alias"; "aliases"; "snapshot"; "restore"; "backup"].

Definition modify_patterns : list Re.regex :=
  [ (* create\s+(index|mapping) *)
    Re.seq [Re.lit "create"; Re.plus Py.isspace;
            Re.RGroup (Re.alts ["index"; "mapping"])];
    (* delete\s+(index|document) *)
    Re.seq [Re.lit "delete"; Re.plus Py.isspace;
            Re.RGroup (Re.alts ["index"; "document"])];
    (* update\s+(mapping|document|settings) *)
    Re.seq [Re.lit "update"; Re.plus Py.isspace;
            Re.RGroup (Re.alts ["mapping"; "document"; "settings"])];
    (* insert\s+ *)
    Re.seq [Re.lit "insert"; Re.plus Py.isspace];
    (* add\s+(field|mapping|alias) *)
    Re.seq [Re.lit "add"; Re.plus Py.isspace;
            Re.RGroup (Re.alts ["field"; "mapping"; "alias"])];
    (* remove\s+(field|mapping|alias) *)
    Re.seq [Re.lit "remove"; Re.plus Py.isspace;
            Re.RGroup (Re.alts ["field"; "mapping"; "alias"])];
    (* modify\s+ *)
    Re.seq [Re.lit "modify"; Re.plus Py.isspace];
    (* change\s+(mapping|settings) *)
    Re.seq [Re.lit "change"; Re.plus Py.isspace;
            Re.RGroup (Re.alts ["mapping"; "settings"])] ].

Definition is_some {A} (o : option A) : bool :=
  match o with
  | Some _ => true
  | None => false
  end.

Definition _is_unsupported_query (query : string) : bool :=
  if existsb (fun keyword => Py.contains keyword query) unsupported_keywords
  then true
  else if existsb (fun pattern => is_some (Re.search pattern query))
                  modify_patterns
  then true
  else false.

Definition cluster_keywords : list string :=
  ["cluster health"; "cluster status"; "node"; "shard"].

Definition _is_cluster_query (query : string) : bool :=
  existsb (fun keyword => Py.contains keyword query) cluster_keywords.

Definition cat_patterns : list Re.regex :=
  [ (* \blist\s+indices\b *)
    Re.seq [Re.RBound; Re.lit "list"; Re.plus Py.isspace; Re.lit "indices"; Re.RBound];
    (* \bshow\s+indices\b *)
    Re.seq [Re.RBound; Re.lit "show"; Re.plus Py.isspace; Re.lit "indices"; Re.RBound];
    (* \blist\s+nodes\b *)
    Re.seq [Re.RBound; Re.lit "list"; Re.plus Py.isspace; Re.lit "nodes"; Re.RBound];
    (* \bshow\s+nodes\b *)
    Re.seq [Re.RBound; Re.lit "show"; Re.plus Py.isspace; Re.lit "nodes"; Re.RBound];
    (* \blist\s+shards\b *)
    Re.seq [Re.RBound; Re.lit "list"; Re.plus Py.isspace; Re.lit "shards"; Re.RBound];
    (* \bshow\s+shards\b *)
    Re.seq [Re.RBound; Re.lit "show"; Re.plus Py.isspace; Re.lit "shards"; Re.RBound];
    (* \bcat\s+ *)
    Re.seq [Re.RBound; Re.lit "cat"; Re.plus Py.isspace] ].

Definition _is_cat_query (query : string) : bool :=
  existsb (fun pattern => is_some (Re.search pattern query)) cat_patterns.

Definition _handle_cluster_query (query : string) : json :=
  if Py.contains "health" query || Py.contains "status" query
  then api_dict "_cluster/health"
  else if Py.contains "node" query
  then api_dict "_cat/nodes?v"
  else error_dict "Unsupported cluster query. Please rephrase or check available APIs.".

Definition _handle_cat_query (query : string) : json :=
  if Py.contains "indices" query || Py.contains "index" query
  then api_dict "_cat/indices?v"
  else if Py.contains "nodes" query
  then api_dict "_cat/nodes?v"
  else if Py.contains "shards" query
  then api_dict "_cat/shards?v"
  else error_dict "Unsupported cat query. Please rephrase or check available APIs.".

Definition levels : list string :=
  ["error"; "errors"; "warn"; "warning"; "warnings"; "info"; "debug"; "trace"].

Definition canonical_level (level : string) : string :=
  if (level =? "errors")%string then "error"
  else if Py.mem level ["warn"; "warning"; "warnings"] then "warn"
  else level.

Fixpoint first_level (ls : list string) (query : string) : option string :=
  match ls with
  | [] => None
  | level :: ls' =>
      if Py.contains level query then Some (canonical_level level)
      else first_level ls' query
  end.

Definition _extract_log_level (query : string) : option string :=
  first_level levels query.

(** [[a-zA-Z0-9\-_]] *)
Definition name_char (c : ascii) : bool :=
  Py.islower_ascii c || Py.isupper_ascii c || Py.isdecimal c
  || (c =? "-")%char || (c =? "_")%char.

(** [[-\s]] *)
Definition dash_or_space (c : ascii) : bool :=
  (c =? "-")%char || Py.isspace c.

(** [[a-zA-Z]] *)
Definition alpha_char (c : ascii) : bool :=
  Py.islower_ascii c || Py.isupper_ascii c.

(** The list [patterns] of [_extract_service_name]. *)
Definition service_name_patterns : list Re.regex :=
  [ (* for\s+([a-zA-Z0-9\-_]+)[-\s]*service *)
    Re.seq [Re.lit "for"; Re.plus Py.isspace; Re.RGroup (Re.plus name_char);
            Re.RStar dash_or_space; Re.lit "service"];
    (* in\s+([a-zA-Z0-9\-_]+)[-\s]*service *)
    Re.seq [Re.lit "in"; Re.plus Py.isspace; Re.RGroup (Re.plus name_char);
            Re.RStar dash_or_space; Re.lit "service"];
    (* ([a-zA-Z0-9\-_]+)[-\s]*service *)
    Re.seq [Re.RGroup (Re.plus name_char); Re.RStar dash_or_space;
            Re.lit "service"];
    (* service\s+([a-zA-Z0-9\-_]+) *)
    Re.seq [Re.lit "service"; Re.plus Py.isspace; Re.RGroup (Re.plus name_char)] ].

Fixpoint first_service (patterns : list Re.regex) (query : string)
  : Py.exc (option string) :=
  match patterns with
  | [] => Py.Ok None
  | pattern :: patterns' =>
      match Re.search pattern query with
      | Some m =>
          service_name <- Re.group m 1 ;;
          if Py.endswith_char service_name "-"
          then Py.Ok (Some (service_name ++ "service"))
          else Py.Ok (Some service_name)
      | None => first_service patterns' query
      end
  end.

Definition _extract_service_name (query : string) : Py.exc (option string) :=
  first_service service_name_patterns query.

Definition _extract_time_range (self : t) (query : string)
  : Py.exc (option json) :=
  QB.build_time_range (query_builder self) query.

Definition stop_words : list string :=
  ["get"; "show"; "find"; "search"; "logs"; "log"; "details"; "of"; "in"; "for";
   "last"; "minutes"; "minute"; "hours"; "hour"; "days"; "day"; "service"; "errors";
   "error"; "warnings"; "warning"; "info"; "debug"; "trace"; "the"; "and"; "with";
   "want"; "checkout"; "payment"; "user"; "auth"; "authentication"; "from"; "me";
   "cluster"; "health"; "status"; "list"; "nodes"; "indices"; "shards"; "top";
   "results"; "limit"; "first"; "today"; "yesterday"; "complex"; "unsupported";
   "that"; "should"; "fail"; "query"; "api"; "to"; "a"; "an"; "is"; "are"; "was";
   "were"; "be"; "been"; "being"; "have"; "has"; "had"; "do"; "does"; "did"].

(** The list [service_patterns] of [_extract_search_terms]: the first three
    patterns of [_extract_service_name] without their group. *)
Definition service_patterns : list Re.regex :=
  [ (* for\s+[a-zA-Z0-9\-_]+[-\s]*service *)
    Re.seq [Re.lit "for"; Re.plus Py.isspace; Re.plus name_char;
            Re.RStar dash_or_space; Re.lit "service"];
    (* in\s+[a-zA-Z0-9\-_]+[-\s]*service *)
    Re.seq [Re.lit "in"; Re.plus Py.isspace; Re.plus name_char;
            Re.RStar dash_or_space; Re.lit "service"];
    (* [a-zA-Z0-9\-_]+[-\s]*service *)
    Re.seq [Re.plus name_char; Re.RStar dash_or_space; Re.lit "service"] ].

(** The list [time_patterns] of [_extract_search_terms]. *)
Definition time_patterns : list Re.regex :=
  [ (* last\s+\d+\s+\w+ *)
    Re.seq [Re.lit "last"; Re.plus Py.isspace; Re.plus Py.isdecimal;
            Re.plus Py.isspace; Re.plus Py.isword];
    (* today *)
    Re.lit "today";
    (* yesterday *)
    Re.lit "yesterday" ].

(** [\b(error|errors|warn|warning|warnings|info|debug|trace)\b] *)
Definition level_word_pattern : Re.regex :=
  Re.seq [Re.RBound;
          Re.RGroup (Re.alts ["error"; "errors"; "warn"; "warning"; "warnings";
                              "info"; "debug"; "trace"]);
          Re.RBound].

(** [\b[a-zA-Z]+\b] *)
Definition word_pattern : Re.regex :=
  Re.seq [Re.RBound; Re.plus alpha_char; Re.RBound].

(** [\d+] *)
Definition digits_pattern : Re.regex := Re.plus Py.isdecimal.

Definition remove_all (patterns : list Re.regex) (text : string) : string :=
  fold_left (fun temp_query pattern => Re.sub pattern "" temp_query) patterns text.

Definition keep_word (word : string) : bool :=
  negb (Py.mem (Py.lower word) stop_words)
  && (2 <? String.length word)%nat
  && negb (is_some (Re.match_ digits_pattern word)).

Definition _extract_search_terms (query : string) : list string :=
  let temp_query := Py.lower query in
  let temp_query := remove_all service_patterns temp_query in
  let temp_query := remove_all time_patterns temp_query in
  let temp_query := Re.sub level_word_pattern "" temp_query in
  let words := Re.findall word_pattern temp_query in
  filter keep_word words.

(** The list [patterns] of [_extract_size]. *)
Definition size_patterns : list Re.regex :=
  [ (* show\s+(\d+)\s+results? *)
    Re.seq [Re.lit "show"; Re.plus Py.isspace; Re.RGroup (Re.plus Py.isdecimal);
            Re.plus Py.isspace; Re.lit "result"; Re.opt (Re.chr "s")];
    (* limit\s+(\d+) *)
    Re.seq [Re.lit "limit"; Re.plus Py.isspace; Re.RGroup (Re.plus Py.isdecimal)];
    (* top\s+(\d+) *)
    Re.seq [Re.lit "top"; Re.plus Py.isspace; Re.RGroup (Re.plus Py.isdecimal)];
    (* first\s+(\d+) *)
    Re.seq [Re.lit "first"; Re.plus Py.isspace; Re.RGroup (Re.plus Py.isdecimal)] ].

Fixpoint first_size (patterns : list Re.regex) (query : string)
  : Py.exc (option Z) :=
  match patterns with
  | [] => Py.Ok None
  | pattern :: patterns' =>
      match Re.search pattern query with
      | Some m =>
          digits <- Re.group m 1 ;;
          n <- Py.int digits ;;
          Py.Ok (Some n)
      | None => first_size patterns' query
      end
  end.

Definition _extract_size (query : string) : Py.exc (option Z) :=
  first_size size_patterns query.

(** Truth values of the optional results tested by [_parse_to_dict]. *)
Definition truthy_str (o : option string) : option string :=
  match o with
  | Some EmptyString => None
  | _ => o
  end.

Definition truthy_int (o : option Z) : option Z :=
  match o with
  | Some 0%Z => None
  | _ => o
  end.

Definition append_if {A} (o : option A) (f : A -> json) (clauses : list json)
  : list json :=
  match o with
  | Some x => (clauses ++ [f x])%list
  | None => clauses
  end.

Definition _parse_to_dict (self : t) (natural_query : string) : Py.exc json :=
  let query := Py.strip (Py.lower natural_query) in
  if _is_unsupported_query query then
    Py.Ok (error_dict UNSUPPORTED_MESSAGE)
  else
    let result := QB.build_base_query (query_builder self) None in
    let must_clauses := [] in
    if _is_cluster_query query then Py.Ok (_handle_cluster_query query)
    else if _is_cat_query query then Py.Ok (_handle_cat_query query)
    else
      let log_level := _extract_log_level query in
      let must_clauses :=
        append_if (truthy_str log_level)
                  (QB.build_log_level_filter (query_builder self)) must_clauses in
      service_name <- _extract_service_name query ;;
      let must_clauses :=
        append_if (truthy_str service_name)
                  (QB.build_service_filter (query_builder self)) must_clauses in
      time_filter <- _extract_time_range self query ;;
      let must_clauses := append_if time_filter (fun c => c) must_clauses in
      let search_terms := _extract_search_terms query in
      let must_clauses :=
        (must_clauses
         ++ map (fun term => QB.build_text_search (query_builder self) term "_all")
                search_terms)%list in
      size <- _extract_size query ;;
      let result :=
        match truthy_int size with
        | Some n => dict_set result "size" (JInt n)
        | None => result
        end in
      let result :=
        match must_clauses with
        | _ :: _ =>
            dict_set result "query"
                     (QB.build_bool_query (Some must_clauses) None None None)
        | [] => dict_set result "query" (JDict [("match_all", JDict [])])
        end in
      Py.Ok (JDict result).

Definition exn_str (e : Py.exn) : string :=
  match e with
  | Py.KeyError key => "'" ++ key ++ "'"
  | Py.ValueError arg => "invalid literal for int() with base 10: '" ++ arg ++ "'"
  | Py.IndexError => "no such group"
  end.

(** [parse] returns its text and the parser with the records logged on the
    way. *)
Definition parse (self : t) (natural_query : string) : string * t :=
  let self := info ("Processing query: '" ++ natural_query ++ "'") self in
  match _parse_to_dict self natural_query with
  | Py.Ok query_dict =>
      let result := dumps_compact query_dict in
      let self := info ("Generated OpenSearch query: " ++ result) self in
      (result, self)
  | Py.Raise e =>
      let error_result := dumps_default (error_dict UNSUPPORTED_MESSAGE) in
      let self := warning ("Query processing failed: " ++ exn_str e) self in
      let self := info ("Returning error response: " ++ error_result) self in
      (error_result, self)
  end.

End NLQParser.

(** ** Values whose type is known at run time *)

(** The operations of Python that the clients apply to values read from
    JSON, with the exception each of them raises on a value of the wrong
    type. *)
Module Dyn.

(** The exceptions the embedded methods can raise. *)
Inductive error : Type :=
| TypeError
| AttributeError
| KeyError
| ValueError.

Inductive res (A : Type) : Type :=
| Done (a : A)
| Fail (e : error).
Arguments Done {A} a.
Arguments Fail {A} e.

Definition bind {A B} (m : res A) (f : A -> res B) : res B :=
  match m with
  | Done a => f a
  | Fail e => Fail e
  end.

Notation "x <~ m ;; k" := (bind m (fun x => k))
  (at level 61, m at next level, right associativity).

(** [min(size, 5000)]: only an integer compares with 5000. *)
Definition min_ (size : json) (bound : Z) : res Z :=
  match size with
  | JInt n => Done (Z.min n bound)
  | _ => Fail TypeError
  end.

Definition is_str (k : string) (x : json) : bool :=
  match x with
  | JStr s => (s =? k)%string
  | _ => false
  end.

(** [k in v] for a string [k]: a key of a dictionary, a part of a string, an
    element of a list. *)
Definition in_ (k : string) (v : json) : res bool :=
  match v with
  | JDict d => Done match dict_get d k with Some _ => true | None => false end
  | JStr s => Done (Py.contains k s)
  | JList l => Done (existsb (is_str k) l)
  | JInt _ => Fail TypeError
  end.

(** [v[k]] for a string [k]. *)
Definition getitem (v : json) (k : string) : res json :=
  match v with
  | JDict d =>
      match dict_get d k with
      | Some x => Done x
      | None => Fail KeyError
      end
  | _ => Fail TypeError
  end.

(** What [for x in v] goes through. *)
Definition iter (v : json) : res (list json) :=
  match v with
  | JList l => Done l
  | JDict d => Done (map (fun p => JStr (fst p)) d)
  | JStr s => Done (map (fun c => JStr (String c EmptyString))
                        (list_ascii_of_string s))
  | JInt _ => Fail TypeError
  end.

(** [v.items()]. *)
Definition items (v : json) : res (list (string * json)) :=
  match v with
  | JDict d => Done d
  | _ => Fail AttributeError
  end.

End Dyn.

(** ** webex_client.py *)

Module WebexLogsClient.
Import Dyn.

(** The requests hold [True] beside what the parser builds. *)
Inductive value : Type :=
| VStr (s : string)
| VInt (z : Z)
| VBool (b : bool)
| VList (l : list value)
| VDict (kv : list (string * value)).

(** A value of the parser placed in a request as it is. *)
Fixpoint of_json (j : json) : value :=
  match j with
  | JStr s => VStr s
  | JInt z => VInt z
  | JList l => VList (map of_json l)
  | JDict kv => VDict (map (fun p : string * json => let (k, x) := p in (k, of_json x)) kv)
  end.

Record t : Type := Build {
  host : string;
  access_token : option string;
  parser : NLQParser.t;
  cookies : list (string * string);
  headers : list (string * string)
}.

(** [s.split(sep)] for a one-character separator. *)
Fixpoint split (sep : ascii) (s : string) : list string :=
  match s with
  | EmptyString => [EmptyString]
  | String c s' =>
      if (c =? sep)%char then EmptyString :: split sep s'
      else match split sep s' with
           | w :: ws => String c w :: ws
           | [] => [String c EmptyString]
           end
  end.

(** [s.split(sep, 1)] for a one-character separator. *)
Fixpoint split_once (sep : ascii) (s : string) : list string :=
  match s with
  | EmptyString => [EmptyString]
  | String c s' =>
      if (c =? sep)%char then [EmptyString; s']
      else match split_once sep s' with
           | w :: ws => String c w :: ws
           | [] => [String c EmptyString]
           end
  end.

(** [d[k] = v] on a dictionary of strings. *)
Fixpoint setitem (d : list (string * string)) (k v : string)
  : list (string * string) :=
  match d with
  | [] => [(k, v)]
  | (k', v') :: d' =>
      if (k' =? k)%string then (k, v) :: d' else (k', v') :: setitem d' k v
  end.

(** One turn of the loop over the pieces of the cookie string. *)
Definition add_cookie (cookies : list (string * string)) (cookie : string)
  : res (list (string * string)) :=
  let cookie := Py.strip cookie in
  if Py.contains "=" cookie then
    match split_once "=" cookie with
    | [name; value] => Done (setitem cookies (Py.strip name) (Py.strip value))
    | _ => Fail ValueError
    end
  else Done cookies.

Fixpoint add_cookies (cookies : list (string * string)) (pieces : list string)
  : res (list (string * string)) :=
  match pieces with
  | [] => Done cookies
  | cookie :: pieces' =>
      cookies <~ add_cookie cookies cookie ;;
      add_cookies cookies pieces'
  end.

Definition __init__ (cookies_string access_token : option string)
           (host : string) : res t :=
  let parser := NLQParser.__init__ true in
  cookies <~ match cookies_string with
             | Some (String c s) => add_cookies [] (split ";" (String c s))
             | _ => Done []
             end ;;
  let headers :=
    [("Accept", "application/json");
     ("Content-Type", "application/json");
     ("User-Agent",
      "Mozilla/5.0 (Macintosh; Intel Mac OS X 10_15_7) AppleWebKit/537.36");
     ("osd-xsrf", "true")] in
  let headers :=
    match access_token with
    | Some (String c s) =>
        setitem headers "Authorization" ("Bearer " ++ String c s)
    | _ => headers
    end in
  Done (Build host access_token parser cookies headers).

Definition match_phrases (kv : list (string * json)) : list value :=
  map (fun p : string * json => let (field, value) := p in
                VDict [("match_phrase", VDict [(field, of_json value)])]) kv.

(** One turn of the loop over the must clauses. *)
Definition add_condition (filter : list value) (condition : json)
  : res (list value) :=
  is_term <~ in_ "term" condition ;;
  if is_term then
    term <~ getitem condition "term" ;;
    kv <~ items term ;;
    Done (filter ++ match_phrases kv)%list
  else
    is_range <~ in_ "range" condition ;;
    if is_range then Done (filter ++ [of_json condition])%list
    else
      is_match <~ in_ "match" condition ;;
      if is_match then
        m <~ getitem condition "match" ;;
        kv <~ items m ;;
        Done (filter ++ match_phrases kv)%list
      else Done filter.

Fixpoint add_conditions (filter : list value) (conditions : list json)
  : res (list value) :=
  match conditions with
  | [] => Done filter
  | condition :: conditions' =>
      filter <~ add_condition filter condition ;;
      add_conditions filter conditions'
  end.

Definition webex_body (size : Z) (filter : list value) : value :=
  VDict [("sort", VList [VDict [("@timestamp",
                                 VDict [("order", VStr "desc");
                                        ("unmapped_type", VStr "boolean")])]]);
         ("size", VInt size);
         ("version", VBool true);
         ("stored_fields", VList [VStr "*"]);
         ("script_fields", VDict []);
         ("_source", VDict [("excludes", VList [])]);
         ("query", VDict [("bool", VDict [("must", VList [VDict [("match_all", VDict [])]]);
                                          ("filter", VList filter);
                                          ("should", VList []);
                                          ("must_not", VList [])])])].

(** [now_ms] is [int(time.time() * 1000)], the clock read when the request is
    built. *)
Definition _convert_to_webex_format (now_ms : Z) (query_dict : dict)
  : res value :=
  let size := match dict_get query_dict "size" with
              | Some x => x
              | None => JInt 50
              end in
  let query := match dict_get query_dict "query" with
               | Some x => x
               | None => JDict [("match_all", JDict [])]
               end in
  capped <~ min_ size 5000 ;;
  has_bool <~ in_ "bool" query ;;
  filter <~ (if has_bool then
               b <~ getitem query "bool" ;;
               has_must <~ in_ "must" b ;;
               if has_must then
                 b <~ getitem query "bool" ;;
                 must <~ getitem b "must" ;;
                 conditions <~ iter must ;;
                 add_conditions [] conditions
               else Done []
             else Done []) ;;
  Done (VDict [("params", VDict [("index", VStr "wxm-app:logs*");
                                 ("body", webex_body capped filter)]);
               ("preference", VInt now_ms)]).


(** What [query] ends with: a dictionary it returns itself, or the call it
    returns the result of. *)
Inductive outcome : Type :=
| Return (d : json)
| ExecuteApiQuery (api_path : json)
| ExecuteSearchQuery (query_dict : json).

(** [loads] is [json.loads]: the value a text stands for, [None] when it
    raises [JSONDecodeError].  The printing under [verbose] is left out. *)
Definition query (loads : string -> option json) (self : t)
           (natural_language : string) : res outcome :=
  let query_json := fst (NLQParser.parse (parser self) natural_language) in
  match loads query_json with
  | None =>
      Done (Return (JDict [("error",
                            JStr ("Failed to parse query: " ++ query_json))]))
  | Some query_dict =>
      has_error <~ in_ "error" query_dict ;;
      if has_error then Done (Return query_dict)
      else
        has_api <~ in_ "api" query_dict ;;
        if has_api then
          api_path <~ getitem query_dict "api" ;;
          Done (ExecuteApiQuery api_path)
        else Done (ExecuteSearchQuery query_dict)
  end.

End WebexLogsClient.

(** ** opensearch_client.py *)

Module OpenSearchNLQClient.
Import Dyn.

(** The part of the client that [query] reads. *)
Record t : Type := Build {
  nlq_parser : NLQParser.t
}.

(** What [query] ends with: a value it returns itself, or the call it
    returns the result of. *)
Inductive outcome : Type :=
| ReturnText (query_json : string)
| ReturnDict (d : json)
| GetClusterHealth
| ListIndices
| ExecuteSearch (query_dict : json) (index : string).

(** [query_dict["api"]] when ["api" in query_dict], tested for [part]. *)
Definition api_has (part : string) (query_dict : json) : res bool :=
  has_api <~ in_ "api" query_dict ;;
  if has_api then
    api <~ getitem query_dict "api" ;;
    in_ part api
  else Done false.

(** [loads] is [json.loads]: the value a text stands for, [None] when it
    raises [JSONDecodeError], the one exception [query] catches. *)
Definition query (loads : string -> option json) (self : t)
           (natural_language_query index : string) (execute : bool)
  : res outcome :=
  let query_json :=
    fst (NLQParser.parse (nlq_parser self) natural_language_query) in
  match loads query_json with
  | None =>
      let error_msg := "Invalid query generated" in
      Done (if execute then ReturnDict (JDict [("error", JStr error_msg)])
            else ReturnText query_json)
  | Some query_dict =>
      is_health <~ api_has "_cluster/health" query_dict ;;
      if is_health then
        Done (if execute then GetClusterHealth else ReturnText query_json)
      else
        is_cat <~ api_has "_cat/" query_dict ;;
        is_indices <~ (if is_cat then
                         api <~ getitem query_dict "api" ;;
                         in_ "_cat/indices" api
                       else Done false) ;;
        if is_indices then
          Done (if execute then ListIndices else ReturnText query_json)
        else
          has_error <~ in_ "error" query_dict ;;
          if has_error then
            Done (if execute then ReturnDict query_dict
                  else ReturnText query_json)
          else
            Done (if execute then ExecuteSearch query_dict index
                  else ReturnText query_json)
  end.

End OpenSearchNLQClient.

(** ** Specification-level notions *)

(** [sub] occurs in [s]. *)
Definition Substring (sub s : string) : Prop :=
  exists pre post, s = pre ++ sub ++ post.

Fixpoint all_chars (p : ascii -> bool) (s : string) : bool :=
  match s with
  | EmptyString => true
  | String c s' => p c && all_chars p s'
  end.

Module ReSpec.
Import Re.

(** Declarative reading of a pattern: [steps r c c'] when [r] can take the
    cursor [c] to [c'].  It ignores the order in which the matcher explores
    the alternatives. *)
Inductive steps : regex -> cursor -> cursor -> Prop :=
| StChar p a s pv n g :
    p a = true ->
    steps (RChar p) (Cursor pv (String a s) n g) (Cursor (Some a) s (S n) g)
| StEps c : steps REps c c
| StSeq r1 r2 c c1 c2 :
    steps r1 c c1 -> steps r2 c1 c2 -> steps (RSeq r1 r2) c c2
| StAltL r1 r2 c c' : steps r1 c c' -> steps (RAlt r1 r2) c c'
| StAltR r1 r2 c c' : steps r2 c c' -> steps (RAlt r1 r2) c c'
| StStarStop p c : steps (RStar p) c c
| StStarMore p a s pv n g c' :
    p a = true ->
    steps (RStar p) (Cursor (Some a) s (S n) g) c' ->
    steps (RStar p) (Cursor pv (String a s) n g) c'
| StGroup r c c1 : steps r c c1 -> steps (RGroup r) c (close_group c c1)
| StBound c : at_boundary c = true -> steps RBound c c.

(** [c'] is [c] moved over the text [u], with the groups [gs] closed on the
    way. *)
Definition moved (c : cursor) (u : string) (gs : list string) (c' : cursor)
  : Prop :=
  c_rest c = u ++ c_rest c' /\
  c_pos c' = c_pos c + String.length u /\
  c_groups c' = (c_groups c ++ gs)%list.

(** A pattern [requires] a word when every run of it starts at a text that
    contains the word. *)
Definition requires (r : regex) (w : string) : Prop :=
  forall c c', steps r c c' -> Substring w (c_rest c).

(** Every run of a pattern [starts_with] a character of the class [p]: the
    pattern cannot match the empty text, and its first character is in [p]. *)
Definition starts_with (r : regex) (p : ascii -> bool) : Prop :=
  forall c c', steps r c c' ->
  exists a s, c_rest c = String a s /\ p a = true.

(** The pattern [occurs] in a text when it has a run from some position of
    the text, the character before that position being the one the text has
    there. *)
Definition occurs (r : regex) (s : string) : Prop :=
  exists pre rest c',
    s = pre ++ rest /\
    steps r (Cursor (Py.last_char pre) rest (String.length pre) []) c'.

End ReSpec.

(** Shapes of the groups of a match, by family of patterns. *)
Definition one_name (gs : list string) : Prop :=
  exists u, gs = [u] /\ u <> "".

Definition one_number (gs : list string) : Prop :=
  exists u, gs = [u] /\ u <> "" /\ all_chars Py.isdecimal u = true.

Definition amount_and_unit (gs : list string) : Prop :=
  exists a w, gs = [a; w] /\ a <> "" /\ all_chars Py.isdecimal a = true /\
              In w OpenSearchQueryBuilder.time_units.

(** ** What the claims speak about *)

Module Expected.
Import NLQParser.

(** The parser as [NLQParser.__init__] builds it, whatever its logger holds. *)
Definition parser (lg : Logger) : NLQParser.t :=
  NLQParser.Build OpenSearchQueryBuilder.__init__ lg.

(** The normalized utterance every check and extractor works on. *)
Definition normalize (u : string) : string := Py.strip (Py.lower u).

(** The utterance reaches the facet extractors. *)
Definition search_intent (q : string) : Prop :=
  _is_unsupported_query q = false /\
  _is_cluster_query q = false /\
  _is_cat_query q = false.

Definition level_clause (l : string) : json :=
  JDict [("match", JDict [("log.level", JStr l)])].

Definition service_clause (name : string) : json :=
  JDict [("match", JDict [("service.name", JStr name)])].

Definition term_clause (term : string) : json :=
  JDict [("match", JDict [("_all", JStr term)])].

Definition fixed_sort : json := JList [JDict [("@timestamp", JStr "desc")]].

Definition search_dict (size : Z) (query : json) : json :=
  JDict [("size", JInt size); ("sort", fixed_sort); ("query", query)].

Definition match_all : json := JDict [("match_all", JDict [])].

Definition bool_must (clauses : list json) : json :=
  JDict [("bool", JDict [("must", JList clauses)])].

Definition query_of (clauses : list json) : json :=
  match clauses with
  | [] => match_all
  | _ => bool_must clauses
  end.

Definition opt_list {A} (o : option A) : list A :=
  match o with
  | Some x => [x]
  | None => []
  end.

Definition UNSUPPORTED_CLUSTER_MESSAGE : string :=
  "Unsupported cluster query. Please rephrase or check available APIs.".

Definition UNSUPPORTED_CAT_MESSAGE : string :=
  "Unsupported cat query. Please rephrase or check available APIs.".

(** The three texts [parse] can return for an error dictionary. *)
Definition error_texts : list string :=
  [dq "{'error':'Unsupported query. Please rephrase or check available APIs.'}";
   dq "{'error':'Unsupported cluster query. Please rephrase or check available APIs.'}";
   dq "{'error':'Unsupported cat query. Please rephrase or check available APIs.'}"].

(** The parser after a sequence of calls of [parse]. *)
Definition run (self : NLQParser.t) (calls : list string) : NLQParser.t :=
  fold_left (fun p u => snd (parse p u)) calls self.

(** The short unit codes, in the words of the specification: minute, minutes
    and min give m; hour, hours, hr and hrs give h; day and days give d; week
    and weeks give w; month and months give M; year and years give y. *)
Definition unit_code (unit : string) : string :=
  if Py.mem unit ["minute"; "minutes"; "min"] then "m"
  else if Py.mem unit ["hour"; "hours"; "hr"; "hrs"] then "h"
  else if Py.mem unit ["day"; "days"] then "d"
  else if Py.mem unit ["week"; "weeks"] then "w"
  else if Py.mem unit ["month"; "months"] then "M"
  else if Py.mem unit ["year"; "years"] then "y"
  else "".

Definition gte_clause (bound : string) : json :=
  JDict [("range", JDict [("@timestamp", JDict [("gte", JStr bound)])])].

Definition yesterday_clause : json :=
  JDict [("range", JDict [("@timestamp",
                           JDict [("gte", JStr "now-1d/d"); ("lt", JStr "now/d")])])].

(** The words [ws] occur in [s] one after the other, without overlap. *)
Inductive occur_in_order : list string -> string -> Prop :=
| OccurNil s : occur_in_order [] s
| OccurCons w ws pre rest :
    occur_in_order ws rest -> occur_in_order (w :: ws) (pre ++ w ++ rest).

(** The text [_extract_search_terms] reads its words from. *)
Definition cleaned_text (query : string) : string :=
  Re.sub level_word_pattern ""
    (remove_all time_patterns
       (remove_all service_patterns (Py.lower query))).

(** The character before the position reached by reading [u] from a position
    that had [pv] before it. *)
Definition prev_after (pv : option ascii) (u : string) : option ascii :=
  match Py.last_char u with
  | Some c => Some c
  | None => pv
  end.

Definition not_decimal (c : ascii) : bool := negb (Py.isdecimal c).

(** The template "top N errors" of the size round trip, over the digits of N. *)
Definition top_errors (digits : string) : string :=
  "top " ++ digits ++ " errors".

(** A text has the shape of the "last N unit" pattern somewhere. *)
Definition last_shape (s : string) : Prop :=
  exists pre ws1 amount ws2 unit post,
    s = pre ++ "last" ++ ws1 ++ amount ++ ws2 ++ unit ++ post /\
    ws1 <> "" /\ all_chars Py.isspace ws1 = true /\
    amount <> "" /\ all_chars Py.isdecimal amount = true /\
    ws2 <> "" /\ all_chars Py.isspace ws2 = true /\
    In unit OpenSearchQueryBuilder.time_units.


(** The text [parse] returns when it catches an exception: the payload of
    the unsupported check written with the default separators. *)
Definition caught_error_text : string :=
  dq "{'error': 'Unsupported query. Please rephrase or check available APIs.'}".

(** The four texts [parse] can return for an error dictionary. *)
Definition error_outputs : list string :=
  (error_texts ++ [caught_error_text])%list.

(** [c * n] *)
Fixpoint repeat_char (c : ascii) (n : nat) : string :=
  match n with
  | O => EmptyString
  | S n' => String c (repeat_char c n')
  end.

(** A run of 4301 zeros, one digit more than [int] accepts. *)
Definition zeros_4301 : string := repeat_char "0" (Z.to_nat 4301).


(** The alphabetic words of a text, from left to right: the runs of ASCII
    letters that have no word character (letter, digit, underscore) directly
    before or after them.  [cur] is the run being read, when it started
    after a character that is not a word character; [after_word] tells
    whether the character before is a word character. *)
Fixpoint words_from (cur : option string) (after_word : bool) (s : string)
  : list string :=
  match s with
  | EmptyString => opt_list cur
  | String a s' =>
      if alpha_char a then
        match cur with
        | Some w => words_from (Some (w ++ String a "")) true s'
        | None => if after_word then words_from None true s'
                  else words_from (Some (String a "")) true s'
        end
      else if Py.isword a then words_from None true s'
      else (opt_list cur ++ words_from None false s')%list
  end.

Definition words (s : string) : list string := words_from None false s.

(** A word becomes a search term: it is not a stop word and has more than
    two letters. *)
Definition surviving (w : string) : bool :=
  negb (Py.mem w stop_words) && (2 <? String.length w)%nat.

End Expected.

(** ** Notions used by the further properties *)

Module Further.
Import NLQParser.

(** Printable ASCII: U+0020 to U+007E. *)
Definition printable (c : ascii) : bool := Py.between 32 126 c.

Definition not_upper (c : ascii) : bool := negb (Py.isupper_ascii c).

(** The canonical levels in the order in which they are looked for. *)
Definition canonical_levels : list string :=
  ["error"; "warn"; "info"; "debug"; "trace"].

Fixpoint first_contained (ls : list string) (query : string) : option string :=
  match ls with
  | [] => None
  | l :: ls' => if Py.contains l query then Some l else first_contained ls' query
  end.

Definition health_text : string := dq "{'api':'_cluster/health'}".
Definition nodes_text : string := dq "{'api':'_cat/nodes?v'}".
Definition indices_text : string := dq "{'api':'_cat/indices?v'}".
Definition cluster_error_text : string :=
  dq "{'error':'Unsupported cluster query. Please rephrase or check available APIs.'}".
Definition cat_error_text : string :=
  dq "{'error':'Unsupported cat query. Please rephrase or check available APIs.'}".

(** A cookie header: [name=value] pairs joined by "; ". *)
Fixpoint cookie_header (pairs : list (string * string)) : string :=
  match pairs with
  | [] => ""
  | (name, value) :: rest =>
      match rest with
      | [] => name ++ "=" ++ value
      | _ => name ++ "=" ++ value ++ "; " ++ cookie_header rest
      end
  end.

(** The character [c] is not in [s]. *)
Definition lacks (c : ascii) (s : string) : bool :=
  all_chars (fun a => negb (a =? c)%char) s.

(** A name and a value that a cookie header can carry. *)
Definition cookie_pair (p : string * string) : Prop :=
  Py.strip (fst p) = fst p /\ Py.strip (snd p) = snd p /\
  lacks ";" (fst p) = true /\ lacks "=" (fst p) = true /\
  lacks ";" (snd p) = true.

(** The filter a must clause of the parser becomes: a match on one field
    turns into a phrase match on that field, any other clause is kept. *)
Definition to_filter (clause : json) : WebexLogsClient.value :=
  match clause with
  | JDict [("match", JDict [(field, x)])] =>
      WebexLogsClient.VDict
        [("match_phrase",
          WebexLogsClient.VDict [(field, WebexLogsClient.of_json x)])]
  | _ => WebexLogsClient.of_json clause
  end.

(** The request built around a size and a list of filters at the time
    [now_ms]. *)
Definition webex_request (now_ms size : Z) (filter : list WebexLogsClient.value)
  : WebexLogsClient.value :=
  WebexLogsClient.VDict
    [("params",
      WebexLogsClient.VDict
        [("index", WebexLogsClient.VStr "wxm-app:logs*");
         ("body", WebexLogsClient.webex_body size filter)]);
     ("preference", WebexLogsClient.VInt now_ms)].

(** The shapes of the must clauses the parser builds. *)
Definition parser_clause (c : json) : Prop :=
  (exists field x, c = JDict [("match", JDict [(field, x)])]) \/
  (exists bounds, c = OpenSearchQueryBuilder.range_clause bounds).

(** A reader that knows the one text [text] and reads it as [d]. *)
Definition reads_back (text : string) (d : json) (t : string) : option json :=
  if (t =? text)%string then Some d else None.

(** The unsupported keywords without those that hold another one:
    "mappings" holds "mapping", "reindex" holds "index" and "aliases" holds
    "alias". *)
Definition essential_keywords : list string :=
  ["create"; "delete"; "update"; "insert"; "put"; "post"; "mapping"; "index";
   "bulk"; "scroll"; "aggregate"; "aggregation"; "pipeline"; "template";
   "settings"; "alias"; "snapshot"; "restore"; "backup"].

(** [verb], white space and [object] follow one another somewhere in [q]. *)
Definition verb_then (verb object q : string) : Prop :=
  exists pre sp post,
    q = pre ++ verb ++ sp ++ object ++ post /\
    sp <> "" /\ all_chars Py.isspace sp = true.

End Further.

(** ** Facts about strings *)

Section StringFacts.

Lemma append_nil_r (s : string) : s ++ "" = s.
Proof. induction s as [|c s IH]; simpl; [reflexivity | now rewrite IH]. Qed.

Lemma append_assoc (a b c : string) : (a ++ b) ++ c = a ++ (b ++ c).
Proof. induction a as [|x a IH]; simpl; [reflexivity | now rewrite IH]. Qed.

Lemma length_append (a b : string) :
  String.length (a ++ b) = String.length a + String.length b.
Proof. induction a as [|x a IH]; simpl; [reflexivity | now rewrite IH]. Qed.

Lemma append_inv_head (a b c : string) : a ++ b = a ++ c -> b = c.
Proof.
  induction a as [|x a IH]; simpl; intros H; [exact H | ].
  injection H as H. now apply IH.
Qed.

Lemma substring_append (u t : string) :
  substring 0 (String.length u) (u ++ t) = u.
Proof.
  induction u as [|x u IH]; simpl.
  - destruct t; reflexivity.
  - now rewrite IH.
Qed.

Lemma prefix_iff (a s : string) :
  prefix a s = true <-> exists t, s = a ++ t.
Proof.
  revert s. induction a as [|x a IH]; intros s; simpl.
  - split; [intros _; now exists s | intros _; now destruct s].
  - destruct s as [|y s]; simpl.
    + split; [discriminate | intros [t H]; discriminate].
    + destruct (ascii_dec x y) as [->|N].
      * rewrite IH. split; intros [t H]; exists t; [now rewrite H | now injection H].
      * split; [discriminate | intros [t H]; injection H as E _; congruence].
Qed.

Lemma contains_iff (a s : string) : Py.contains a s = true <-> Substring a s.
Proof.
  unfold Substring. induction s as [|y s IH].
  - cbn [Py.contains]. rewrite orb_false_r, prefix_iff. split.
    + intros [t H]. now exists "", t.
    + intros [pre [post H]]. destruct pre; simpl in H; [now exists post | discriminate].
  - cbn [Py.contains]. rewrite orb_true_iff, prefix_iff, IH. split.
    + intros [[t H] | [pre [post H]]].
      * now exists "", t.
      * exists (String y pre), post. simpl. now rewrite H.
    + intros [pre [post H]]. destruct pre as [|z pre]; simpl in H.
      * left. now exists post.
      * right. injection H as _ H. now exists pre, post.
Qed.

Lemma contains_false_iff (a s : string) :
  Py.contains a s = false <-> ~ Substring a s.
Proof.
  rewrite <- contains_iff. destruct (Py.contains a s); split; congruence.
Qed.

Lemma Substring_trans (a b s : string) :
  Substring a b -> Substring b s -> Substring a s.
Proof.
  intros [p1 [q1 H1]] [p2 [q2 H2]]. exists (p2 ++ p1), (q1 ++ q2).
  rewrite H2, H1. now rewrite !append_assoc.
Qed.

Lemma Substring_suffix (a pre s : string) :
  Substring a s -> Substring a (pre ++ s).
Proof.
  intros [p [q H]]. exists (pre ++ p), q. now rewrite H, append_assoc.
Qed.

End StringFacts.

(** ** Texts around a run of digits *)

Module TextFacts.
Import Expected.

Lemma all_chars_impl (p q : ascii -> bool) s :
  (forall a, p a = true -> q a = true) ->
  all_chars p s = true -> all_chars q s = true.
Proof.
  intros I. induction s as [|a s IH]; simpl; [reflexivity|].
  intros H. apply andb_true_iff in H as [Pa H]. now rewrite (I a Pa), IH.
Qed.

Lemma all_chars_append p a b :
  all_chars p (a ++ b) = all_chars p a && all_chars p b.
Proof.
  induction a as [|x a IH]; simpl; [reflexivity|]. now rewrite IH, andb_assoc.
Qed.

Lemma prefix_nil_r w : w <> "" -> prefix w "" = false.
Proof. destruct w; [congruence | reflexivity]. Qed.

Lemma contains_nil_r w : w <> "" -> Py.contains w "" = false.
Proof. intros N. cbn [Py.contains]. now rewrite prefix_nil_r. Qed.

(** A word without digits cannot reach into a run of digits. *)
Lemma prefix_before_digit w : forall x d r,
  Py.isdecimal d = true -> all_chars not_decimal w = true ->
  prefix w (x ++ String d r) = prefix w x.
Proof.
  induction w as [|c w IH]; intros x d r Dd A.
  - now destruct x.
  - simpl in A. apply andb_true_iff in A as [Nc A]. destruct x as [|a x]; simpl.
    + destruct (ascii_dec c d) as [->|_]; [|reflexivity].
      unfold not_decimal in Nc. rewrite Dd in Nc. discriminate.
    + destruct (ascii_dec c a); [|reflexivity]. now apply IH.
Qed.

Lemma contains_over_digits w ds t :
  w <> "" -> all_chars not_decimal w = true ->
  all_chars Py.isdecimal ds = true ->
  Py.contains w (ds ++ t) = Py.contains w t.
Proof.
  intros N A. induction ds as [|d ds IH]; intros D; [reflexivity|].
  simpl in D. apply andb_true_iff in D as [Dd D].
  cbn [append Py.contains]. rewrite (IH D).
  replace (prefix w (String d (ds ++ t))) with false; [reflexivity|].
  destruct w as [|c w]; [congruence|]. simpl in *.
  apply andb_true_iff in A as [Nc _].
  destruct (ascii_dec c d) as [->|_]; [|reflexivity].
  unfold not_decimal in Nc. rewrite Dd in Nc. discriminate.
Qed.

(** An occurrence of a word without digits in [x ++ ds ++ t], where [ds] is a
    non-empty run of digits, lies in [x] or in [t]. *)
Lemma contains_around_digits w x ds t :
  w <> "" -> all_chars not_decimal w = true ->
  ds <> "" -> all_chars Py.isdecimal ds = true ->
  Py.contains w (x ++ ds ++ t) = Py.contains w x || Py.contains w t.
Proof.
  intros N A Nd D. induction x as [|a x IH].
  - cbn [append]. rewrite contains_over_digits, contains_nil_r by assumption.
    reflexivity.
  - cbn [append Py.contains]. rewrite IH, orb_assoc. f_equal. f_equal.
    destruct ds as [|d ds]; [congruence|]. simpl in D.
    apply andb_true_iff in D as [Dd _].
    change (String a (x ++ String d ds ++ t))
      with (String a x ++ String d (ds ++ t)).
    now apply prefix_before_digit.
Qed.

Lemma lower_append a b : Py.lower (a ++ b) = Py.lower a ++ Py.lower b.
Proof. induction a as [|x a IH]; simpl; [reflexivity | now rewrite IH]. Qed.

Lemma decimal_ord c : Py.isdecimal c = true -> (48 <= Py.ord c <= 57)%N.
Proof.
  unfold Py.isdecimal, Py.between. intros H.
  apply andb_true_iff in H as [L U]. apply N.leb_le in L. apply N.leb_le in U.
  lia.
Qed.

Lemma between_out lo hi c :
  (Py.ord c < lo \/ hi < Py.ord c)%N -> Py.between lo hi c = false.
Proof.
  unfold Py.between. intros [H|H].
  - apply N.leb_gt in H. now rewrite H.
  - apply N.leb_gt in H. rewrite H. apply andb_false_r.
Qed.

Lemma eqb_ord_neq (a c : ascii) : Py.ord a <> Py.ord c -> (a =? c)%char = false.
Proof. intros H. apply Ascii.eqb_neq. congruence. Qed.

Lemma lower_char_decimal c : Py.isdecimal c = true -> Py.lower_char c = c.
Proof.
  intros D. apply decimal_ord in D. unfold Py.lower_char, Py.isupper_ascii.
  rewrite !between_out by lia. reflexivity.
Qed.

Lemma lower_digits ds : all_chars Py.isdecimal ds = true -> Py.lower ds = ds.
Proof.
  induction ds as [|d ds IH]; simpl; [reflexivity|]. intros H.
  apply andb_true_iff in H as [Dd D]. now rewrite lower_char_decimal, IH.
Qed.

Lemma rstrip_append a b :
  Py.rstrip b <> "" -> Py.rstrip (a ++ b) = a ++ Py.rstrip b.
Proof.
  intros N. induction a as [|x a IH]; simpl; [reflexivity|]. rewrite IH.
  destruct (a ++ Py.rstrip b) eqn:E; [|reflexivity].
  destruct a; simpl in E; [congruence | discriminate].
Qed.

Lemma normalize_top_errors ds :
  all_chars Py.isdecimal ds = true -> normalize (top_errors ds) = top_errors ds.
Proof.
  intros D. unfold normalize, top_errors.
  rewrite !lower_append, (lower_digits ds D).
  change (Py.lower "top ") with "top ". change (Py.lower " errors") with " errors".
  unfold Py.strip. cbn [append Py.lstrip].
  replace (Py.isspace "t") with false by reflexivity.
  change (String "t" (String "o" (String "p" (String " " (ds ++ " errors")))))
    with ("top " ++ ds ++ " errors").
  rewrite <- append_assoc, rstrip_append by (vm_compute; discriminate).
  reflexivity.
Qed.

Lemma lower_top_errors ds :
  all_chars Py.isdecimal ds = true -> Py.lower (top_errors ds) = top_errors ds.
Proof.
  intros D. unfold top_errors. rewrite !lower_append, (lower_digits ds D).
  reflexivity.
Qed.

(** Whether a word without digits occurs in "top N errors" does not depend
    on the digits. *)
Lemma contains_top_errors w ds :
  w <> "" -> all_chars not_decimal w = true ->
  ds <> "" -> all_chars Py.isdecimal ds = true ->
  Py.contains w (top_errors ds)
  = Py.contains w "top " || Py.contains w " errors".
Proof. intros. unfold top_errors. now apply contains_around_digits. Qed.


(** *** Normalization keeps a lower-case word *)

Lemma lower_char_lower c : Py.islower_ascii c = true -> Py.lower_char c = c.
Proof.
  unfold Py.islower_ascii, Py.between. intros H.
  apply andb_true_iff in H as [L U]. apply N.leb_le in L. apply N.leb_le in U.
  unfold Py.lower_char, Py.isupper_ascii. rewrite !between_out by lia.
  reflexivity.
Qed.

Lemma lower_lower w : all_chars Py.islower_ascii w = true -> Py.lower w = w.
Proof.
  induction w as [|c w IH]; simpl; [reflexivity|]. intros H.
  apply andb_true_iff in H as [Lc L]. now rewrite lower_char_lower, IH.
Qed.

Lemma lower_not_space c : Py.islower_ascii c = true -> Py.isspace c = false.
Proof.
  unfold Py.islower_ascii, Py.between. intros H.
  apply andb_true_iff in H as [L U]. apply N.leb_le in L. apply N.leb_le in U.
  unfold Py.isspace. rewrite !between_out by lia.
  replace (Py.ord c =? 133)%N with false by (symmetry; apply N.eqb_neq; lia).
  replace (Py.ord c =? 160)%N with false by (symmetry; apply N.eqb_neq; lia).
  reflexivity.
Qed.

Lemma lstrip_keeps a c s :
  Py.isspace c = false ->
  exists a', Py.lstrip (a ++ String c s) = a' ++ String c s.
Proof.
  intros N. induction a as [|x a IH]; simpl.
  - rewrite N. now exists "".
  - destruct (Py.isspace x); [exact IH | now exists (String x a)].
Qed.

Lemma rstrip_nonspace_word w :
  w <> "" -> all_chars Py.islower_ascii w = true -> Py.rstrip w = w.
Proof.
  induction w as [|c w IH]; intros N A; [congruence|].
  simpl in A. apply andb_true_iff in A as [Lc A]. cbn [Py.rstrip].
  destruct w as [|d w].
  - cbn [Py.rstrip]. now rewrite (lower_not_space c Lc).
  - rewrite IH by (discriminate || exact A). reflexivity.
Qed.

Lemma rstrip_blank_tail x b : Py.rstrip b = "" -> Py.rstrip (x ++ b) = Py.rstrip x.
Proof.
  intros B. induction x as [|c x IH]; simpl; [exact B | now rewrite IH].
Qed.

Lemma rstrip_keeps w b :
  w <> "" -> all_chars Py.islower_ascii w = true ->
  exists b', Py.rstrip (w ++ b) = w ++ b'.
Proof.
  intros N A. destruct (Py.rstrip b) as [|y t] eqn:B.
  - exists "". now rewrite rstrip_blank_tail, rstrip_nonspace_word, append_nil_r.
  - exists (String y t). rewrite rstrip_append by (rewrite B; discriminate).
    now rewrite B.
Qed.

(** A word of lower-case letters that occurs in the utterance occurs in the
    normalized utterance. *)
Lemma normalize_keeps_word w u :
  w <> "" -> all_chars Py.islower_ascii w = true ->
  Substring w u -> Substring w (normalize u).
Proof.
  intros N A (pre & post & ->). unfold normalize, Py.strip.
  rewrite !lower_append, (lower_lower w A).
  destruct w as [|c w]; [congruence|].
  assert (Lc : Py.islower_ascii c = true)
    by (simpl in A; now apply andb_true_iff in A as [Lc _]).
  cbn [append].
  destruct (lstrip_keeps (Py.lower pre) c (w ++ Py.lower post)
              (lower_not_space c Lc)) as [a' ->].
  change (String c (w ++ Py.lower post)) with (String c w ++ Py.lower post).
  destruct (rstrip_keeps (String c w) (Py.lower post) N A) as [b' E].
  assert (R : Py.rstrip (a' ++ String c w ++ Py.lower post)
              = a' ++ String c w ++ b').
  { rewrite rstrip_append by (rewrite E; discriminate). now rewrite E. }
  rewrite R. now exists a', b'.
Qed.

End TextFacts.

(** ** Soundness of the matcher *)

Module ReFacts.
Import Re ReSpec.

Lemma star_sound p k : forall s pv n g x,
  star p k pv s n g = Some x ->
  exists c', steps (RStar p) (Cursor pv s n g) c' /\ k c' = Some x.
Proof.
  induction s as [|a s IH]; intros pv n g x H; simpl in H.
  - eexists; split; [apply StStarStop | exact H].
  - destruct (p a) eqn:Pa.
    + destruct (star p k (Some a) s (S n) g) eqn:E.
      * injection H as <-. destruct (IH _ _ _ _ E) as [c' [S1 K]].
        exists c'. split; [now apply StStarMore | exact K].
      * eexists; split; [apply StStarStop | exact H].
    + eexists; split; [apply StStarStop | exact H].
Qed.

(** Whatever the matcher returns was reached along the pattern. *)
Lemma rmatch_sound r : forall k c x,
  rmatch r k c = Some x -> exists c', steps r c c' /\ k c' = Some x.
Proof.
  induction r as [p| |r1 IH1 r2 IH2|r1 IH1 r2 IH2|p|r IH| ];
    intros k c x H; simpl in H.
  - destruct c as [pv s n g]; simpl in H.
    destruct s as [|a s]; [discriminate|].
    destruct (p a) eqn:Pa; [|discriminate].
    eexists; split; [apply StChar; exact Pa | exact H].
  - exists c; split; [constructor | exact H].
  - apply IH1 in H as [c1 [S1 H]]. apply IH2 in H as [c2 [S2 H]].
    exists c2; split; [econstructor; eauto | exact H].
  - destruct (rmatch r1 k c) eqn:E.
    + injection H as <-. apply IH1 in E as [c' [S1 K]].
      exists c'; split; [now apply StAltL | exact K].
    + apply IH2 in H as [c' [S1 K]].
      exists c'; split; [now apply StAltR | exact K].
  - destruct c as [pv s n g]; simpl in H. now apply star_sound.
  - apply IH in H as [c1 [S1 K]].
    exists (close_group c c1). split; [now constructor | exact K].
  - destruct (at_boundary c) eqn:B; [|discriminate].
    exists c; split; [now constructor | exact H].
Qed.

Lemma moved_refl c : moved c "" [] c.
Proof. unfold moved. simpl. rewrite app_nil_r. auto. Qed.

Lemma moved_trans c u1 g1 c1 u2 g2 c2 :
  moved c u1 g1 c1 -> moved c1 u2 g2 c2 ->
  moved c (u1 ++ u2) (g1 ++ g2)%list c2.
Proof.
  intros (R1 & P1 & G1) (R2 & P2 & G2). unfold moved.
  rewrite R1, R2, P2, P1, G2, G1, append_assoc, length_append, app_assoc.
  repeat split. lia.
Qed.

Lemma moved_group_text c u gs c1 :
  moved c u gs c1 -> substring 0 (c_pos c1 - c_pos c) (c_rest c) = u.
Proof.
  intros (R & P & _). rewrite R, P.
  replace (c_pos c + String.length u - c_pos c) with (String.length u) by lia.
  apply substring_append.
Qed.

Lemma moved_close_group c u gs c1 :
  moved c u gs c1 -> moved c u (gs ++ [u])%list (close_group c c1).
Proof.
  intros M. pose proof (moved_group_text _ _ _ _ M) as T.
  destruct M as (R & P & G). unfold moved, close_group; simpl.
  rewrite T, G, app_assoc. auto.
Qed.

Lemma steps_moved r c c' : steps r c c' -> exists u gs, moved c u gs c'.
Proof.
  induction 1 as [p a s pv n g Pa|c|r1 r2 c c1 c2 _ [u1 [g1 M1]] _ [u2 [g2 M2]]
                 |r1 r2 c c' _ IH|r1 r2 c c' _ IH|p c
                 |p a s pv n g c' Pa _ [u [gs M]]|r c c1 _ [u [gs M]]|c B].
  - exists (String a ""), []. unfold moved; simpl. rewrite app_nil_r. repeat split. lia.
  - exists "", []. apply moved_refl.
  - exists (u1 ++ u2), (g1 ++ g2)%list. eapply moved_trans; eauto.
  - exact IH.
  - exact IH.
  - exists "", []. apply moved_refl.
  - exists (String a u), gs. destruct M as (R & P & G). unfold moved in *; simpl in *.
    rewrite R, P, G. repeat split. lia.
  - exists u, (gs ++ [u])%list. now apply moved_close_group.
  - exists "", []. apply moved_refl.
Qed.

(** *** What the building blocks of the patterns consume *)

Lemma steps_lit w : forall c c', steps (lit w) c c' -> moved c w [] c'.
Proof.
  induction w as [|a w IH]; intros c c' H; simpl in H.
  - inversion H; subst. apply moved_refl.
  - inversion H as [| |? ? ? c1 ? H1 H2| | | | | |]; subst.
    inversion H1 as [? b ? ? ? ? Pb| | | | | | | |]; subst.
    apply Ascii.eqb_eq in Pb; subst b.
    apply IH in H2. destruct H2 as (R & P & G). unfold moved in *; simpl in *.
    rewrite R, P, G. repeat split. lia.
Qed.

Lemma steps_char p c c' :
  steps (RChar p) c c' -> exists a, p a = true /\ moved c (String a "") [] c'.
Proof.
  intros H. inversion H as [? a ? ? ? ? Pa| | | | | | | |]; subst.
  exists a. split; [exact Pa|]. unfold moved; simpl. rewrite app_nil_r.
  repeat split. lia.
Qed.

Lemma steps_opt r c c' : steps (opt r) c c' -> steps r c c' \/ c' = c.
Proof.
  intros H. unfold opt in H. inversion H as [| | |? ? ? ? H1|? ? ? ? H1| | | |]; subst.
  - now left.
  - inversion H1; subst. now right.
Qed.

Lemma steps_star p c c' :
  steps (RStar p) c c' -> exists u, all_chars p u = true /\ moved c u [] c'.
Proof.
  intros H. remember (RStar p) as r eqn:E. revert E.
  induction H as [| | | | |q c|q a s pv n g c' Pa H IH| |]; intros E;
    try discriminate; injection E as ->.
  - exists "". split; [reflexivity | apply moved_refl].
  - destruct (IH eq_refl) as [u [A (R & P & G)]]. exists (String a u).
    split; [simpl; now rewrite Pa, A | ].
    unfold moved in *; simpl in *. rewrite R, P, G. repeat split. lia.
Qed.

Lemma steps_plus p c c' :
  steps (plus p) c c' ->
  exists u, u <> "" /\ all_chars p u = true /\ moved c u [] c'.
Proof.
  intros H. unfold plus in H.
  inversion H as [| |? ? ? c1 ? H1 H2| | | | | |]; subst.
  inversion H1 as [? a ? ? ? ? Pa| | | | | | | |]; subst.
  apply steps_star in H2 as [u [A (R & P & G)]].
  exists (String a u). split; [discriminate|]. split; [simpl; now rewrite Pa, A|].
  unfold moved in *; simpl in *. rewrite R, P, G. repeat split. lia.
Qed.

Lemma steps_alts ws : forall c c',
  steps (alts ws) c c' -> exists w, In w ws /\ moved c w [] c'.
Proof.
  induction ws as [|w ws IH]; intros c c' H; simpl in H.
  - inversion H; subst. discriminate.
  - inversion H as [| | |? ? ? ? H1|? ? ? ? H1| | | |]; subst.
    + exists w. split; [now left | now apply steps_lit].
    + destruct (IH _ _ H1) as [w' [I M]]. exists w'. split; [now right | exact M].
Qed.

Lemma steps_group r c c' (Q : string -> Prop) :
  (forall c1, steps r c c1 -> exists u, Q u /\ moved c u [] c1) ->
  steps (RGroup r) c c' -> exists u, Q u /\ moved c u [u] c'.
Proof.
  intros HQ H. inversion H as [| | | | | | |? ? c1 H1|]; subst.
  destruct (HQ _ H1) as [u [Qu M]]. exists u. split; [exact Qu|].
  now apply (moved_close_group c u []).
Qed.

Lemma steps_seq r1 r2 c c' :
  steps (RSeq r1 r2) c c' -> exists c1, steps r1 c c1 /\ steps r2 c1 c'.
Proof. intros H. inversion H; subst. eauto. Qed.

(** *** From the matcher to [search] *)

Lemma match_at_sound r adv pv s n m :
  match_at r adv pv s n = Some m ->
  exists c', steps r (Cursor pv s n []) c' /\
             m = MkMatch n (c_pos c') (substring 0 (c_pos c' - n) s) (c_groups c').
Proof.
  unfold match_at. intros H.
  destruct (rmatch r (accept adv n) (Cursor pv s n [])) as [c|] eqn:E; [|discriminate].
  injection H as <-. apply rmatch_sound in E as [c' [S1 A]].
  unfold accept in A. destruct (adv && (c_pos c' =? n)%nat); [discriminate|].
  injection A as <-. exists c'. auto.
Qed.

Lemma search_from_sound r : forall s pv n m,
  search_from r pv s n = Some m ->
  exists pre pv' s',
    s = pre ++ s' /\ match_at r false pv' s' (n + String.length pre) = Some m.
Proof.
  induction s as [|a s IH]; intros pv n m H; simpl in H.
  - destruct (match_at r false pv "" n) eqn:E; [|discriminate].
    injection H as <-. exists "", pv, "". simpl. rewrite Nat.add_0_r. auto.
  - destruct (match_at r false pv (String a s) n) eqn:E.
    + injection H as <-. exists "", pv, (String a s). simpl. rewrite Nat.add_0_r. auto.
    + apply IH in H as (pre & pv' & s' & -> & M).
      exists (String a pre), pv', s'. simpl. split; [reflexivity|].
      now rewrite <- plus_n_Sm.
Qed.

(** A match found by [search] splits the subject around the matched text, and
    the matched text and groups are those of a run of the pattern. *)
Lemma search_sound r s m :
  search r s = Some m ->
  exists pre u gs post pv c',
    s = pre ++ u ++ post /\
    steps r (Cursor pv (u ++ post) (String.length pre) []) c' /\
    moved (Cursor pv (u ++ post) (String.length pre) []) u gs c' /\
    c_rest c' = post /\
    m = MkMatch (String.length pre) (String.length pre + String.length u) u gs.
Proof.
  intros H. apply search_from_sound in H as (pre & pv & s' & -> & M).
  simpl in M. apply match_at_sound in M as (c' & St & ->).
  destruct (steps_moved _ _ _ St) as (u & gs & Mv).
  pose proof (moved_group_text _ _ _ _ Mv) as T. simpl in T.
  destruct Mv as (R & P & G). simpl in R, P, G.
  exists pre, u, gs, (c_rest c'), pv, c'. rewrite <- R.
  split; [reflexivity|]. split; [exact St|].
  split; [unfold moved; simpl; auto|]. split; [reflexivity|].
  now rewrite T, P, G.
Qed.

Lemma requires_lit w : requires (lit w) w.
Proof.
  intros c c' H. apply steps_lit in H as (R & _). exists "", (c_rest c'). exact R.
Qed.

Lemma requires_seq_l r1 r2 w : requires r1 w -> requires (RSeq r1 r2) w.
Proof. intros R c c' H. apply steps_seq in H as (c1 & H1 & _). eauto. Qed.

Lemma requires_seq_r r1 r2 w : requires r2 w -> requires (RSeq r1 r2) w.
Proof.
  intros R c c' H. apply steps_seq in H as (c1 & H1 & H2).
  apply steps_moved in H1 as (u & gs & (E & _)). rewrite E.
  apply Substring_suffix. eauto.
Qed.

Lemma requires_group r w : requires r w -> requires (RGroup r) w.
Proof. intros R c c' H. inversion H; subst. eauto. Qed.

Lemma search_requires r w s :
  requires r w -> Py.contains w s = false -> search r s = None.
Proof.
  intros R C. destruct (search r s) as [m|] eqn:E; [|reflexivity].
  apply search_sound in E as (pre & u & gs & post & pv & c' & -> & St & _).
  apply R in St. simpl in St.
  apply contains_false_iff in C. exfalso. apply C. now apply Substring_suffix.
Qed.


(** *** [findall] reads the subject from left to right *)

Lemma occur_prepend p ws s :
  Expected.occur_in_order ws s -> Expected.occur_in_order ws (p ++ s).
Proof.
  intros H. destruct H as [s|w ws pre rest H].
  - constructor.
  - rewrite <- append_assoc. now constructor.
Qed.

Lemma occur_here w ws rest s :
  s = w ++ rest ->
  Expected.occur_in_order ws rest -> Expected.occur_in_order (w :: ws) s.
Proof. intros -> H. now apply (Expected.OccurCons w ws "" rest). Qed.

Lemma occur_later a ws s :
  Expected.occur_in_order ws s -> Expected.occur_in_order ws (String a s).
Proof. apply (occur_prepend (String a "")). Qed.

Lemma occur_filter f ws s :
  Expected.occur_in_order ws s -> Expected.occur_in_order (filter f ws) s.
Proof.
  induction 1 as [s|w ws pre rest H IH]; simpl.
  - constructor.
  - destruct (f w).
    + now constructor.
    + apply occur_prepend. now apply occur_prepend.
Qed.

Lemma match_at_text r adv pv s n m :
  match_at r adv pv s n = Some m ->
  exists rest, s = m_text m ++ rest /\ m_end m - n = String.length (m_text m).
Proof.
  intros H. apply match_at_sound in H as (c' & St & ->).
  apply steps_moved in St as (u & gs & Mv).
  pose proof (moved_group_text _ _ _ _ Mv) as T.
  destruct Mv as (R & P & _). simpl in *. exists (c_rest c').
  rewrite T. split; [exact R | lia].
Qed.

Lemma scan_in_order r : forall s adv skip pv n pre rest,
  s = pre ++ rest -> String.length pre = skip ->
  Expected.occur_in_order (hit_texts (scan r adv skip pv s n)) rest.
Proof.
  induction s as [|a s IH]; intros adv skip pv n pre rest E L.
  - destruct pre; [|discriminate]. simpl in E, L. subst rest skip.
    cbn [scan]. destruct (match_at r adv pv "" n) as [m|] eqn:M; [|constructor].
    apply match_at_text in M as (rest & E & _).
    destruct (m_text m) as [|x t] eqn:T; [|discriminate].
    destruct (m_end m - n); cbn [hit_texts]; rewrite T;
      apply (occur_here "" [] ""); (reflexivity || constructor).
  - destruct skip as [|k].
    + destruct pre; [|discriminate]. simpl in E. subst rest. cbn [scan].
      destruct (match_at r adv pv (String a s) n) as [m|] eqn:M.
      * apply match_at_text in M as (rest & E & Len). rewrite Len.
        destruct (m_text m) as [|x t] eqn:T; cbn [String.length].
        -- cbn [hit_texts]. rewrite T.
           apply (occur_here "" _ (String a s)); [reflexivity|].
           destruct (match_at r true pv (String a s) n) as [m'|] eqn:M'.
           ++ apply match_at_text in M' as (rest' & E' & Len').
              cbn [hit_texts].
              destruct (m_text m') as [|x' t'] eqn:T'.
              ** replace (m_end m' - S n) with 0 by (simpl in Len'; lia).
                 apply (occur_here "" _ (String a s)); [reflexivity|].
                 apply occur_later.
                 now apply (IH false 0 (Some a) (S n) "" s).
              ** simpl in E'. injection E' as <- E'.
                 replace (m_end m' - S n) with (String.length t')
                   by (simpl in Len'; lia).
                 apply (occur_here _ _ rest'); [simpl; now rewrite E'|].
                 now apply (IH false _ (Some a) (S n) t' rest').
           ++ cbn [hit_texts]. apply occur_later.
              now apply (IH false 0 (Some a) (S n) "" s).
        -- simpl in E. injection E as <- E. cbn [hit_texts]. rewrite T.
           apply (occur_here _ _ rest); [simpl; now rewrite E|].
           now apply (IH false _ (Some a) (S n) t rest).
      * cbn [hit_texts]. apply occur_later.
        now apply (IH false 0 (Some a) (S n) "" s).
    + destruct pre as [|x pre]; [discriminate|]. simpl in E, L.
      injection E as <- E. injection L as L. cbn [scan].
      now apply (IH false k (Some a) (S n) pre rest).
Qed.

(** The texts [findall] returns occur in the subject in the order of the
    list, one after the other. *)
Lemma findall_in_order r s : Expected.occur_in_order (findall r s) s.
Proof. unfold findall. now apply (scan_in_order r s false 0 None 0 "" s). Qed.


(** *** Where a pattern cannot match *)

Lemma starts_char p : starts_with (RChar p) p.
Proof. intros c c' H. inversion H; subst. simpl. eauto. Qed.

Lemma starts_weaken r (p q : ascii -> bool) :
  (forall a, p a = true -> q a = true) -> starts_with r p -> starts_with r q.
Proof. intros I S c c' H. destruct (S c c' H) as (a & s & E & Pa). eauto. Qed.

Lemma starts_lit a w : starts_with (lit (String a w)) (Ascii.eqb a).
Proof.
  intros c c' H. apply steps_lit in H as (R & _). simpl in R.
  exists a, (w ++ c_rest c'). split; [exact R | apply Ascii.eqb_refl].
Qed.

Lemma starts_plus p : starts_with (plus p) p.
Proof.
  intros c c' H. apply steps_seq in H as (c1 & H1 & _).
  now apply starts_char in H1.
Qed.

Lemma starts_seq r1 r2 p : starts_with r1 p -> starts_with (RSeq r1 r2) p.
Proof. intros S c c' H. apply steps_seq in H as (c1 & H1 & _). eauto. Qed.

Lemma starts_bound r p : starts_with r p -> starts_with (RSeq RBound r) p.
Proof.
  intros S c c' H. apply steps_seq in H as (c1 & H1 & H2).
  inversion H1; subst. eauto.
Qed.

Lemma starts_group r p : starts_with r p -> starts_with (RGroup r) p.
Proof. intros S c c' H. inversion H; subst. eauto. Qed.

Lemma starts_alts ws p :
  Forall (fun w => exists a w', w = String a w' /\ p a = true) ws ->
  starts_with (alts ws) p.
Proof.
  intros F c c' H. apply steps_alts in H as (w & I & (R & _)).
  rewrite Forall_forall in F. destruct (F w I) as (a & w' & -> & Pa).
  simpl in R. eauto.
Qed.

Lemma match_at_starts r p adv pv s n :
  starts_with r p ->
  match s with String a _ => p a = false | EmptyString => True end ->
  match_at r adv pv s n = None.
Proof.
  intros S N. destruct (match_at r adv pv s n) as [m|] eqn:E; [|reflexivity].
  apply match_at_sound in E as (c' & St & _).
  apply S in St as (a & s' & R & Pa). simpl in R. subst s. congruence.
Qed.

Lemma match_at_requires r w adv pv s n :
  requires r w -> Py.contains w s = false -> match_at r adv pv s n = None.
Proof.
  intros R C. destruct (match_at r adv pv s n) as [m|] eqn:E; [|reflexivity].
  apply match_at_sound in E as (c' & St & _). apply R in St. simpl in St.
  apply contains_false_iff in C. contradiction.
Qed.

Lemma contains_tail w a s :
  Py.contains w (String a s) = false -> Py.contains w s = false.
Proof. cbn [Py.contains]. intros H. now apply orb_false_iff in H. Qed.

Lemma scan_requires r w repl : requires r w -> forall s pv n,
  Py.contains w s = false ->
  sub_pieces repl (scan r false 0 pv s n) = s.
Proof.
  intros R. induction s as [|a s IH]; intros pv n C; cbn [scan];
    rewrite (match_at_requires r w _ _ _ _ R C); [reflexivity|].
  cbn [sub_pieces]. f_equal. apply IH. now apply contains_tail in C.
Qed.

(** A pattern that needs a word leaves a text without that word as it is. *)
Lemma sub_requires r w repl s :
  requires r w -> Py.contains w s = false -> sub r repl s = s.
Proof. intros R C. unfold sub. now apply (scan_requires r w). Qed.

Lemma last_char_cons a u : Py.last_char (String a u) <> None.
Proof.
  revert a. induction u as [|b u IH]; intros a; simpl; [discriminate|].
  apply IH.
Qed.

Lemma prev_after_cons pv a u :
  Expected.prev_after pv (String a u) = Expected.prev_after (Some a) u.
Proof.
  unfold Expected.prev_after. destruct u as [|b u]; [reflexivity|].
  change (Py.last_char (String a (String b u)))
    with (Py.last_char (String b u)).
  pose proof (last_char_cons b u) as N.
  now destruct (Py.last_char (String b u)).
Qed.

Lemma negb_all p a u :
  all_chars (fun c => negb (p c)) (String a u) = true ->
  p a = false /\ all_chars (fun c => negb (p c)) u = true.
Proof.
  simpl. intros H. apply andb_true_iff in H as [Pa H]. split; [|exact H].
  now destruct (p a).
Qed.

(** Over characters that cannot start a match the scan keeps every
    character and goes on behind them. *)
Lemma sub_over r p repl : starts_with r p -> forall u pv t n,
  all_chars (fun c => negb (p c)) u = true ->
  sub_pieces repl (scan r false 0 pv (u ++ t) n)
  = u ++ sub_pieces repl
           (scan r false 0 (Expected.prev_after pv u) t (n + String.length u)).
Proof.
  intros S. induction u as [|a u IH]; intros pv t n A.
  - cbn [append String.length]. now rewrite Nat.add_0_r.
  - apply negb_all in A as [Pa A]. cbn [append scan].
    rewrite (match_at_starts r p) by (exact S || exact Pa).
    cbn [sub_pieces]. rewrite (IH _ _ _ A), prev_after_cons.
    cbn [String.length]. now rewrite <- plus_n_Sm.
Qed.

Lemma hits_over r p : starts_with r p -> forall u pv t n,
  all_chars (fun c => negb (p c)) u = true ->
  hit_texts (scan r false 0 pv (u ++ t) n)
  = hit_texts (scan r false 0 (Expected.prev_after pv u) t (n + String.length u)).
Proof.
  intros S. induction u as [|a u IH]; intros pv t n A.
  - cbn [append String.length]. now rewrite Nat.add_0_r.
  - apply negb_all in A as [Pa A]. cbn [append scan].
    rewrite (match_at_starts r p) by (exact S || exact Pa).
    cbn [hit_texts]. rewrite (IH _ _ _ A), prev_after_cons.
    cbn [String.length]. now rewrite <- plus_n_Sm.
Qed.

(** *** The greedy star *)

Lemma star_stop p k pv a s n g :
  p a = false -> star p k pv (String a s) n g = k (Cursor pv (String a s) n g).
Proof. intros Pa. cbn [star]. now rewrite Pa. Qed.

(** When the continuation accepts behind the whole run, the star takes the
    whole run. *)
Lemma star_run p k : forall u pv t n g x,
  all_chars p u = true ->
  star p k (Expected.prev_after pv u) t (n + String.length u) g = Some x ->
  star p k pv (u ++ t) n g = Some x.
Proof.
  induction u as [|a u IH]; intros pv t n g x A H.
  - cbn [append String.length] in *. now rewrite Nat.add_0_r in H.
  - simpl in A. apply andb_true_iff in A as [Pa A]. cbn [append star].
    rewrite Pa. rewrite (IH (Some a) t (S n) g x A); [reflexivity|].
    rewrite prev_after_cons in H. cbn [String.length] in H.
    now rewrite <- plus_n_Sm in H.
Qed.


(** *** One step of the scan *)

Lemma scan_keep r pv a s n :
  match_at r false pv (String a s) n = None ->
  scan r false 0 pv (String a s) n = Keep a :: scan r false 0 (Some a) s (S n).
Proof. intros H. cbn [scan]. now rewrite H. Qed.

Lemma scan_hit r pv a s n m len :
  match_at r false pv (String a s) n = Some m ->
  m_end m - n = S len ->
  scan r false 0 pv (String a s) n = Hit m :: scan r false len (Some a) s (S n).
Proof. intros H L. cbn [scan]. now rewrite H, L. Qed.

Lemma scan_inside r k pv a s n :
  scan r false (S k) pv (String a s) n = scan r false k (Some a) s (S n).
Proof. reflexivity. Qed.

Lemma scan_end r adv pv n :
  match_at r adv pv "" n = None -> scan r adv 0 pv "" n = [].
Proof. intros H. cbn [scan]. now rewrite H. Qed.


Lemma search_at_start r s m :
  match_at r false None s 0 = Some m -> search r s = Some m.
Proof. intros H. unfold search. destruct s; cbn [search_from]; now rewrite H. Qed.


(** *** Completeness of the matcher *)

Lemma star_complete p k c c' x :
  steps (RStar p) c c' -> k c' = Some x ->
  exists y, star p k (c_prev c) (c_rest c) (c_pos c) (c_groups c) = Some y.
Proof.
  intros H. remember (RStar p) as r eqn:E. revert E.
  induction H as [| | | | |q c|q a s pv n g c' Pa H IH| |]; intros E K;
    try discriminate; injection E as ->.
  - destruct c as [pv s n g]. cbn [c_prev c_rest c_pos c_groups].
    destruct s as [|a s]; cbn [star]; [eauto|].
    destruct (p a); [|eauto].
    destruct (star p k (Some a) s (S n) g); eauto.
  - destruct (IH eq_refl K) as [y Y]. cbn [c_prev c_rest c_pos c_groups] in *.
    cbn [star]. rewrite Pa, Y. eauto.
Qed.

(** When some run of the pattern leads to a cursor the continuation accepts,
    the matcher returns a result. *)
Lemma rmatch_complete r : forall k c c' x,
  steps r c c' -> k c' = Some x -> exists y, rmatch r k c = Some y.
Proof.
  induction r as [p| |r1 IH1 r2 IH2|r1 IH1 r2 IH2|p|r IH| ];
    intros k c c' x H K; cbn [rmatch].
  - inversion H; subst. cbn [c_rest c_pos c_groups].
    match goal with Pa : p _ = true |- _ => rewrite Pa end. eauto.
  - inversion H; subst. eauto.
  - apply steps_seq in H as (c1 & H1 & H2).
    destruct (IH2 k c1 c' x H2 K) as [y Y].
    apply (IH1 (fun c0 => rmatch r2 k c0) c c1 y H1 Y).
  - inversion H as [| | |? ? ? ? H1|? ? ? ? H1| | | |]; subst.
    + destruct (IH1 k c c' x H1 K) as [y Y]. rewrite Y. eauto.
    + destruct (rmatch r1 k c); [eauto|]. apply (IH2 k c c' x H1 K).
  - apply (star_complete p k c c' x H K).
  - inversion H as [| | | | | | |? ? c1 H1|]; subst.
    apply (IH (fun c0 => k (close_group c c0)) c c1 x H1 K).
  - inversion H; subst.
    match goal with B : at_boundary _ = true |- _ => rewrite B end. eauto.
Qed.

Lemma match_at_complete r pv s n c' :
  steps r (Cursor pv s n []) c' -> match_at r false pv s n <> None.
Proof.
  intros H. unfold match_at.
  destruct (rmatch_complete r (accept false n) _ c' c' H eq_refl) as [y Y].
  now rewrite Y.
Qed.

Lemma search_from_none r : forall pre pv s n,
  search_from r pv (pre ++ s) n = None ->
  match_at r false (Expected.prev_after pv pre) s (n + String.length pre) = None.
Proof.
  induction pre as [|a pre IH]; intros pv s n H.
  - cbn [append String.length] in *. rewrite Nat.add_0_r.
    unfold Expected.prev_after. cbn [Py.last_char].
    destruct s; cbn [search_from] in H;
      now destruct (match_at r false pv _ n).
  - cbn [append search_from] in H.
    destruct (match_at r false pv (String a (pre ++ s)) n); [discriminate|].
    apply IH in H. rewrite prev_after_cons. cbn [String.length].
    now rewrite <- plus_n_Sm.
Qed.

Lemma prev_after_none pre : Expected.prev_after None pre = Py.last_char pre.
Proof. unfold Expected.prev_after. now destruct (Py.last_char pre). Qed.

Lemma last_char_prev pv pre :
  pre <> "" -> Expected.prev_after pv pre = Py.last_char pre.
Proof.
  intros N. unfold Expected.prev_after. destruct pre as [|a pre]; [congruence|].
  pose proof (last_char_cons a pre). now destruct (Py.last_char (String a pre)).
Qed.

Lemma search_from_position r : forall s pv n m,
  search_from r pv s n = Some m ->
  exists pre s',
    s = pre ++ s' /\
    match_at r false (Expected.prev_after pv pre) s' (n + String.length pre)
    = Some m.
Proof.
  induction s as [|a s IH]; intros pv n m H; cbn [search_from] in H.
  - destruct (match_at r false pv "" n) eqn:E; [|discriminate].
    injection H as <-. exists "", "". cbn. rewrite Nat.add_0_r. auto.
  - destruct (match_at r false pv (String a s) n) eqn:E.
    + injection H as <-. exists "", (String a s). cbn. rewrite Nat.add_0_r. auto.
    + apply IH in H as (pre & s' & -> & M).
      exists (String a pre), s'. split; [reflexivity|].
      rewrite prev_after_cons. cbn [String.length]. now rewrite <- plus_n_Sm.
Qed.

(** [search] finds a match exactly when the pattern occurs in the text. *)
Lemma search_iff r s : search r s <> None <-> occurs r s.
Proof.
  unfold search, occurs. split.
  - intros H. destruct (search_from r None s 0) as [m|] eqn:E; [|congruence].
    apply search_from_position in E as (pre & s' & -> & M).
    rewrite prev_after_none in M. cbn [Nat.add] in M.
    apply match_at_sound in M as (c' & St & _). eauto.
  - intros (pre & rest & c' & -> & St) H.
    apply search_from_none in H. rewrite prev_after_none in H.
    cbn [Nat.add] in H. now apply match_at_complete in St.
Qed.

(** *** Runs built from the text *)

Lemma steps_lit_run w : forall pv t n g,
  steps (lit w) (Cursor pv (w ++ t) n g)
        (Cursor (Expected.prev_after pv w) t (n + String.length w) g).
Proof.
  induction w as [|a w IH]; intros pv t n g.
  - cbn. rewrite Nat.add_0_r. constructor.
  - cbn [lit append]. apply StSeq with (Cursor (Some a) (w ++ t) (S n) g).
    + apply StChar, Ascii.eqb_refl.
    + rewrite prev_after_cons. cbn [String.length]. rewrite <- plus_n_Sm.
      apply IH.
Qed.

Lemma steps_star_run p u : forall pv t n g,
  all_chars p u = true ->
  steps (RStar p) (Cursor pv (u ++ t) n g)
        (Cursor (Expected.prev_after pv u) t (n + String.length u) g).
Proof.
  induction u as [|a u IH]; intros pv t n g A.
  - cbn. rewrite Nat.add_0_r. constructor.
  - simpl in A. apply andb_true_iff in A as [Pa A]. cbn [append].
    apply StStarMore; [exact Pa|].
    rewrite prev_after_cons. cbn [String.length]. rewrite <- plus_n_Sm.
    now apply IH.
Qed.

Lemma steps_plus_run p u pv t n g :
  u <> "" -> all_chars p u = true ->
  steps (plus p) (Cursor pv (u ++ t) n g)
        (Cursor (Expected.prev_after pv u) t (n + String.length u) g).
Proof.
  intros N A. destruct u as [|a u]; [congruence|].
  simpl in A. apply andb_true_iff in A as [Pa A]. cbn [append]. unfold plus.
  apply StSeq with (Cursor (Some a) (u ++ t) (S n) g).
  - now apply StChar.
  - rewrite prev_after_cons. cbn [String.length]. rewrite <- plus_n_Sm.
    now apply steps_star_run.
Qed.

Lemma steps_alts_run ws w pv t n g :
  In w ws ->
  steps (alts ws) (Cursor pv (w ++ t) n g)
        (Cursor (Expected.prev_after pv w) t (n + String.length w) g).
Proof.
  induction ws as [|w' ws IH]; intros I; [destruct I|]. cbn [alts fold_right].
  destruct I as [->|I].
  - apply StAltL, steps_lit_run.
  - apply StAltR. now apply IH.
Qed.

End ReFacts.

(** ** What the extractors return *)

Module ExtractorFacts.
Import Re ReSpec ReFacts NLQParser.

Ltac split_steps :=
  repeat match goal with
  | H : steps (seq _) _ _ |- _ => cbn [seq fold_right] in H
  | H : steps (RSeq _ _) _ _ |- _ =>
      let c := fresh "c" in let H1 := fresh "St" in let H2 := fresh "St" in
      apply steps_seq in H as (c & H1 & H2)
  | H : steps REps _ _ |- _ => inversion H; subst; clear H
  | H : steps (lit _) _ _ |- _ => apply steps_lit in H
  | H : steps (chr _) _ _ |- _ =>
      let a := fresh "a" in let E := fresh "E" in
      apply steps_char in H as (a & E & H)
  | H : steps (opt _) _ _ |- _ => apply steps_opt in H as [H | ->]
  | H : steps (plus _) _ _ |- _ =>
      let u := fresh "u" in let N := fresh "Ne" in let A := fresh "All" in
      apply steps_plus in H as (u & N & A & H)
  | H : steps (RStar _) _ _ |- _ =>
      let u := fresh "u" in let A := fresh "All" in
      apply steps_star in H as (u & A & H)
  | H : steps (RGroup (plus ?p)) _ _ |- _ =>
      let u := fresh "u" in let N := fresh "Ne" in let A := fresh "All" in
      apply (steps_group _ _ _ (fun u => u <> "" /\ all_chars p u = true)) in H;
      [ destruct H as (u & (N & A) & H)
      | let c1 := fresh in let X := fresh in
        intros c1 X; apply steps_plus in X as (u & N & A & X); eauto ]
  | H : steps (RGroup (alts ?ws)) _ _ |- _ =>
      let w := fresh "w" in let I := fresh "Inw" in
      apply (steps_group _ _ _ (fun w => In w ws)) in H;
      [ destruct H as (w & I & H)
      | let c1 := fresh in let X := fresh in
        intros c1 X; apply steps_alts in X as (w & I & X); eauto ]
  end.

(** Collect the groups along a chain of [moved] facts. *)
Ltac chain_groups :=
  repeat match goal with
  | H : moved _ _ _ _ |- _ =>
      let G := fresh "G" in destruct H as (_ & _ & G); simpl in G
  end;
  repeat match goal with
  | G : c_groups _ = _ |- _ => rewrite G in *; clear G
  end.

Lemma groups_of_search r s m (Q : list string -> Prop) :
  (forall c c', c_groups c = [] -> steps r c c' -> Q (c_groups c')) ->
  search r s = Some m -> Q (m_groups m).
Proof.
  intros HQ H.
  apply search_sound in H as (pre & u & gs & post & pv & c' & _ & St & Mv & _ & ->).
  destruct Mv as (_ & _ & G). simpl in G. simpl. rewrite <- G.
  eapply HQ; [|exact St]. reflexivity.
Qed.

Lemma service_pattern_groups p q m :
  In p service_name_patterns -> search p q = Some m -> one_name (m_groups m).
Proof.
  intros I. apply groups_of_search. intros c c' G0 St.
  unfold service_name_patterns in I. cbn [In] in I.
  destruct I as [<-|[<-|[<-|[<-|[]]]]]; split_steps; chain_groups;
    simpl; eexists; split; eauto.
Qed.

Lemma size_pattern_groups p q m :
  In p size_patterns -> search p q = Some m -> one_number (m_groups m).
Proof.
  intros I. apply groups_of_search. intros c c' G0 St.
  unfold size_patterns in I. cbn [In] in I.
  destruct I as [<-|[<-|[<-|[<-|[]]]]]; split_steps; chain_groups;
    simpl; eexists; split; eauto.
Qed.

Lemma last_pattern_groups q m :
  search OpenSearchQueryBuilder.last_pattern q = Some m ->
  amount_and_unit (m_groups m).
Proof.
  apply groups_of_search. intros c c' G0 St.
  unfold OpenSearchQueryBuilder.last_pattern in St.
  split_steps; chain_groups; simpl.
  eexists; eexists; split; eauto.
Qed.

Lemma digit_value_range c :
  Py.isdecimal c = true -> (0 <= Py.digit_value c <= 9)%Z.
Proof.
  unfold Py.isdecimal, Py.between, Py.digit_value. intros H.
  apply andb_true_iff in H as [L U].
  apply N.leb_le in L. apply N.leb_le in U. lia.
Qed.

Lemma int_acc_digits s : forall acc,
  all_chars Py.isdecimal s = true -> (0 <= acc)%Z ->
  exists z, Py.int_acc acc s = Some z /\ (0 <= z)%Z.
Proof.
  induction s as [|c s IH]; intros acc A P; cbn [Py.int_acc all_chars] in *.
  - eauto.
  - apply andb_true_iff in A as [Dc A]. rewrite Dc.
    apply IH; [exact A|]. pose proof (digit_value_range c Dc). lia.
Qed.

Lemma int_acc_nonneg s : forall acc z,
  Py.int_acc acc s = Some z -> (0 <= acc)%Z -> (0 <= z)%Z.
Proof.
  induction s as [|c s IH]; intros acc z H P; cbn [Py.int_acc] in H.
  - injection H as <-. exact P.
  - destruct (Py.isdecimal c) eqn:Dc; [|discriminate].
    apply IH in H; [exact H|]. pose proof (digit_value_range c Dc). lia.
Qed.

Lemma int_digits u :
  u <> "" -> all_chars Py.isdecimal u = true -> Py.too_long u = false ->
  exists z, Py.int u = Py.Ok z /\ (0 <= z)%Z.
Proof.
  intros N A L. destruct u as [|c u]; [congruence|]. unfold Py.int.
  rewrite L.
  destruct (int_acc_digits (String c u) 0 A) as [z [E P]]; [lia|].
  rewrite E. eauto.
Qed.

(** Past the limit of 4300 digits [int] raises. *)
Lemma int_too_long u :
  Py.too_long u = true -> Py.int u = Py.Raise (Py.ValueError u).
Proof.
  intros L. destruct u as [|c u]; [reflexivity|]. unfold Py.int. now rewrite L.
Qed.

Lemma int_nonneg u z : Py.int u = Py.Ok z -> (0 <= z)%Z.
Proof.
  unfold Py.int. destruct u as [|c u]; [discriminate|].
  destruct (Py.too_long (String c u)); [discriminate|].
  destruct (Py.int_acc 0 (String c u)) as [z'|] eqn:E; [|discriminate].
  intros H. injection H as <-. apply int_acc_nonneg in E; [exact E | lia].
Qed.

Lemma int_within u z : Py.int u = Py.Ok z -> Py.too_long u = false.
Proof.
  unfold Py.int. destruct u as [|c u]; [discriminate|].
  now destruct (Py.too_long (String c u)).
Qed.

Lemma int_acc_zeros u :
  all_chars (Ascii.eqb "0") u = true -> Py.int_acc 0 u = Some 0%Z.
Proof.
  induction u as [|c u IH]; [reflexivity|]. cbn [all_chars Py.int_acc].
  intros H. apply andb_true_iff in H as [Hc H]. apply Ascii.eqb_eq in Hc.
  subst c. now apply IH.
Qed.

(** A run of at most 4300 zeros is read as 0. *)
Lemma int_zeros u :
  u <> "" -> all_chars (Ascii.eqb "0") u = true -> Py.too_long u = false ->
  Py.int u = Py.Ok 0%Z.
Proof.
  intros N Z L. destruct u as [|c u]; [congruence|]. unfold Py.int.
  now rewrite L, (int_acc_zeros _ Z).
Qed.

Lemma last_char_append_nonempty a b :
  b <> "" -> Py.last_char (a ++ b) = Py.last_char b.
Proof.
  intros N. induction a as [|x a IH]; simpl; [reflexivity|].
  rewrite IH. destruct (a ++ b) eqn:E; [|reflexivity].
  destruct a; simpl in E; [congruence | discriminate].
Qed.

Lemma first_service_ok q : forall ps,
  (forall p, In p ps -> In p service_name_patterns) ->
  exists o, first_service ps q = Py.Ok o /\ truthy_str o = o.
Proof.
  induction ps as [|p ps IH]; intros Sub; simpl.
  - exists None. auto.
  - destruct (search p q) as [m|] eqn:E.
    + apply service_pattern_groups in E as (u & G & Ne); [|apply Sub; now left].
      unfold group. rewrite G. simpl.
      destruct (Py.endswith_char u "-"); eexists; split; try reflexivity.
      * destruct u; [congruence | reflexivity].
      * destruct u; [congruence | reflexivity].
    + apply IH. intros p' I. apply Sub. now right.
Qed.

(** [_extract_service_name] returns, and never an empty name. *)
Lemma extract_service_name_ok q :
  exists o, _extract_service_name q = Py.Ok o /\ truthy_str o = o.
Proof. apply first_service_ok. auto. Qed.

Lemma first_size_ok q : forall ps,
  (forall p, In p ps -> In p size_patterns) ->
  (exists o, first_size ps q = Py.Ok o /\ forall n, o = Some n -> (0 <= n)%Z) \/
  (exists digits, first_size ps q = Py.Raise (Py.ValueError digits) /\
                  Py.too_long digits = true).
Proof.
  induction ps as [|p ps IH]; intros Sub; simpl.
  - left. exists None. split; [reflexivity | discriminate].
  - destruct (search p q) as [m|] eqn:E.
    + apply size_pattern_groups in E as (u & G & Ne & A); [|apply Sub; now left].
      unfold group. rewrite G. simpl.
      destruct (Py.too_long u) eqn:L.
      * right. exists u. rewrite (int_too_long u L). now split.
      * left. destruct (int_digits u Ne A L) as [z [Ez Pz]]. rewrite Ez. simpl.
        exists (Some z). split; [reflexivity|]. intros n H. now injection H as <-.
    + apply IH. intros p' I. apply Sub. now right.
Qed.

(** [_extract_size] returns a size that is not negative, or raises the
    [ValueError] of [int] on a capture of more than 4300 digits. *)
Lemma extract_size_ok q :
  (exists o, _extract_size q = Py.Ok o /\ forall n, o = Some n -> (0 <= n)%Z) \/
  (exists digits, _extract_size q = Py.Raise (Py.ValueError digits) /\
                  Py.too_long digits = true).
Proof. apply first_size_ok. auto. Qed.

Lemma time_map_total w :
  In w OpenSearchQueryBuilder.time_units ->
  exists code, OpenSearchQueryBuilder.getitem OpenSearchQueryBuilder.time_map w
               = Py.Ok code /\ In code ["m"; "h"; "d"; "w"; "M"; "y"].
Proof.
  unfold OpenSearchQueryBuilder.time_units. cbn [In]. intros I.
  repeat (destruct I as [<-|I]; [eexists; split; [reflexivity | cbn [In]; tauto]|]).
  destruct I.
Qed.

Lemma build_time_range_ok self spec :
  exists o, OpenSearchQueryBuilder.build_time_range self spec = Py.Ok o.
Proof.
  unfold OpenSearchQueryBuilder.build_time_range.
  destruct (search _ _) as [m|] eqn:E.
  - apply last_pattern_groups in E as (a & w & G & _ & _ & I).
    unfold group. rewrite G. cbn [nth_error Py.bind m_groups].
    destruct (time_map_total w I) as [code [Ec _]]. rewrite Ec. simpl. eauto.
  - destruct (Py.contains "today" _); [eauto|].
    destruct (Py.contains "yesterday" _); eauto.
Qed.

(** One exception escapes [_parse_to_dict], the [ValueError] of [int] on a
    size capture of more than 4300 digits: every group the code reads exists,
    every unit it looks up is a key of [time_map], and every text it converts
    is a string of digits. *)
Lemma parse_to_dict_cases self u :
  (exists d, _parse_to_dict self u = Py.Ok d) \/
  (exists digits,
     Py.too_long digits = true /\
     Expected.search_intent (Expected.normalize u) /\
     _extract_size (Expected.normalize u) = Py.Raise (Py.ValueError digits) /\
     _parse_to_dict self u = Py.Raise (Py.ValueError digits)).
Proof.
  unfold _parse_to_dict, Expected.search_intent, Expected.normalize.
  destruct (_is_unsupported_query _); [eauto|].
  destruct (_is_cluster_query _); [eauto|].
  destruct (_is_cat_query _); [eauto|].
  destruct (extract_service_name_ok (Py.strip (Py.lower u))) as [o1 [E1 _]].
  rewrite E1. simpl.
  unfold _extract_time_range.
  destruct (build_time_range_ok (query_builder self) (Py.strip (Py.lower u)))
    as [o2 E2].
  rewrite E2. simpl.
  destruct (extract_size_ok (Py.strip (Py.lower u)))
    as [[o3 [E3 _]]|[digits [E3 L]]]; rewrite E3; simpl; [left; eauto|right].
  exists digits. auto.
Qed.


Lemma time_map_unit_code w :
  In w OpenSearchQueryBuilder.time_units ->
  OpenSearchQueryBuilder.getitem OpenSearchQueryBuilder.time_map w
  = Py.Ok (Expected.unit_code w).
Proof.
  unfold OpenSearchQueryBuilder.time_units. cbn [In]. intros I.
  repeat (destruct I as [<-|I]; [reflexivity|]). destruct I.
Qed.

(** A match of the "last N unit" pattern, read off the subject. *)
Lemma last_pattern_match s m :
  search OpenSearchQueryBuilder.last_pattern s = Some m ->
  exists pre ws1 amount ws2 unit post,
    s = pre ++ "last" ++ ws1 ++ amount ++ ws2 ++ unit ++ post /\
    ws1 <> "" /\ all_chars Py.isspace ws1 = true /\
    amount <> "" /\ all_chars Py.isdecimal amount = true /\
    ws2 <> "" /\ all_chars Py.isspace ws2 = true /\
    In unit OpenSearchQueryBuilder.time_units /\
    m_groups m = [amount; unit].
Proof.
  intros H.
  apply search_sound in H as (pre & u & gs & post & pv & c' & -> & St & Mv & R' & ->).
  destruct Mv as (_ & _ & G). simpl in G. revert R' G.
  unfold OpenSearchQueryBuilder.last_pattern in St. split_steps. intros R' G.
  repeat match goal with
         | H : moved _ _ _ _ |- _ =>
             let R := fresh "R" in let G := fresh "G" in
             destruct H as (R & _ & G); simpl in R, G
         end.
  exists pre, u1, u2, u0, w, post.
  repeat (split; [assumption || idtac|]).
  - f_equal. rewrite R3, R2, R1, R0, R, R'. reflexivity.
  - simpl. rewrite <- G, G0, G1, G2, G3, G4. reflexivity.
Qed.


(** *** [int] reads back what [str] prints *)

Ltac eval_digit :=
  cbn [Py.int_acc];
  match goal with
  | |- context [Py.isdecimal ?c] =>
      replace (Py.isdecimal c) with true by reflexivity
  end;
  match goal with
  | |- context [Py.digit_value ?c] =>
      let v := eval vm_compute in (Py.digit_value c) in
      change (Py.digit_value c) with v
  end.

Lemma int_acc_of_uint_acc d : forall acc,
  Py.int_acc (Zpos acc) (NilEmpty.string_of_uint d)
  = Some (Zpos (Pos.of_uint_acc d acc)).
Proof.
  induction d; intros acc; cbn [NilEmpty.string_of_uint Pos.of_uint_acc];
    try reflexivity;
    (eval_digit; rewrite <- IHd; f_equal; lia).
Qed.

Lemma int_acc_of_uint d :
  Py.int_acc 0 (NilEmpty.string_of_uint d) = Some (Z.of_N (Pos.of_uint d)).
Proof.
  induction d; cbn [NilEmpty.string_of_uint Pos.of_uint]; try reflexivity;
    eval_digit; try (rewrite <- IHd; reflexivity);
    (cbn [Z.of_N]; rewrite <- int_acc_of_uint_acc; reflexivity).
Qed.

Lemma string_of_uint_digits d :
  all_chars Py.isdecimal (NilEmpty.string_of_uint d) = true.
Proof. induction d; simpl; auto. Qed.

Lemma str_of_int_pos p :
  Py.str_of_int (Zpos p) = NilEmpty.string_of_uint (Pos.to_uint p).
Proof.
  unfold Py.str_of_int. cbn [Z.to_int NilZero.string_of_int].
  unfold NilZero.string_of_uint.
  pose proof (DecimalPos.Unsigned.to_uint_nonnil p) as N.
  now destruct (Pos.to_uint p).
Qed.

(** The decimal text of a positive integer: digits only, not empty, and read
    back by [int] as the integer itself when it has at most 4300 digits. *)
Lemma str_of_int_positive z :
  (0 < z)%Z ->
  Py.str_of_int z <> "" /\
  all_chars Py.isdecimal (Py.str_of_int z) = true /\
  (Py.too_long (Py.str_of_int z) = false ->
   Py.int (Py.str_of_int z) = Py.Ok z).
Proof.
  intros P. destruct z as [|p|p]; try lia. rewrite str_of_int_pos.
  pose proof (DecimalPos.Unsigned.to_uint_nonnil p) as N.
  assert (Ne : NilEmpty.string_of_uint (Pos.to_uint p) <> "").
  { destruct (Pos.to_uint p); try discriminate. congruence. }
  split; [exact Ne|]. split; [apply string_of_uint_digits|].
  intros L. unfold Py.int. rewrite L, int_acc_of_uint, DecimalPos.Unsigned.of_to.
  now destruct (NilEmpty.string_of_uint (Pos.to_uint p)).
Qed.


Lemma first_size_skip q before : forall rest,
  Forall (fun p => search p q = None) before ->
  first_size (before ++ rest) q = first_size rest q.
Proof.
  induction before as [|p before IH]; intros rest F; [reflexivity|].
  inversion F as [|? ? Hp F']; subst. cbn [app first_size]. rewrite Hp.
  now apply IH.
Qed.

(** The first pattern of the list, in the order of the list, that is found
    in the text decides the size. *)
Lemma first_size_pattern q before p after m :
  size_patterns = (before ++ p :: after)%list ->
  Forall (fun p' => search p' q = None) before ->
  search p q = Some m ->
  exists digits,
    m_groups m = [digits] /\ digits <> "" /\
    all_chars Py.isdecimal digits = true /\
    ((Py.too_long digits = false /\
      exists n, Py.int digits = Py.Ok n /\ (0 <= n)%Z /\
                _extract_size q = Py.Ok (Some n)) \/
     (Py.too_long digits = true /\
      Py.int digits = Py.Raise (Py.ValueError digits) /\
      _extract_size q = Py.Raise (Py.ValueError digits))).
Proof.
  intros E F H. unfold _extract_size. rewrite E, (first_size_skip q before _ F).
  cbn [first_size]. rewrite H.
  apply size_pattern_groups in H as (digits & G & Ne & A).
  - exists digits. repeat (split; [assumption|]).
    unfold group. rewrite G. cbn [nth_error Py.bind].
    destruct (Py.too_long digits) eqn:L.
    + right. rewrite (int_too_long digits L). auto.
    + left. destruct (int_digits digits Ne A L) as [n [En Pn]].
      split; [reflexivity|]. exists n. rewrite En. auto.
  - rewrite E. apply in_or_app. right. now left.
Qed.


(** A text of the shape "last N unit" is found by the pattern. *)
Lemma last_shape_occurs s :
  Expected.last_shape s -> occurs OpenSearchQueryBuilder.last_pattern s.
Proof.
  intros (pre & ws1 & amount & ws2 & unit & post & -> & N1 & A1 & Na & Aa
          & N2 & A2 & I).
  exists pre, ("last" ++ ws1 ++ amount ++ ws2 ++ unit ++ post). eexists.
  split; [reflexivity|].
  unfold OpenSearchQueryBuilder.last_pattern. cbn [seq fold_right].
  eapply StSeq; [apply steps_lit_run|].
  eapply StSeq; [apply steps_plus_run; assumption|].
  eapply StSeq; [apply StGroup, steps_plus_run; assumption|].
  unfold close_group; cbn [c_prev c_rest c_pos c_groups].
  eapply StSeq; [apply steps_plus_run; assumption|].
  eapply StSeq; [apply StGroup, steps_alts_run; assumption|].
  constructor.
Qed.

(** The "last N unit" pattern is found exactly in the texts of that shape. *)
Lemma last_pattern_iff s :
  search OpenSearchQueryBuilder.last_pattern s <> None <-> Expected.last_shape s.
Proof.
  split.
  - intros H. destruct (search _ s) as [m|] eqn:E; [|congruence].
    apply last_pattern_match in E
      as (pre & ws1 & amount & ws2 & unit & post & H').
    exists pre, ws1, amount, ws2, unit, post. tauto.
  - intros H. apply search_iff. now apply last_shape_occurs.
Qed.

End ExtractorFacts.

(** ** The facade *)

Module ParserFacts.
Import Re ReSpec ReFacts NLQParser ExtractorFacts Expected.

Lemma emit_query_builder levelname msg self :
  query_builder (emit levelname msg self) = query_builder self.
Proof. unfold emit. now destruct (enabled (logger self)). Qed.

(** [_parse_to_dict] reads the query builder only. *)
Lemma parse_to_dict_builder self self' u :
  query_builder self = query_builder self' ->
  _parse_to_dict self u = _parse_to_dict self' u.
Proof.
  intros E. unfold _parse_to_dict, _extract_time_range. now rewrite E.
Qed.

Lemma parse_output self u :
  fst (parse self u) =
  match _parse_to_dict self u with
  | Py.Ok d => dumps_compact d
  | Py.Raise _ => dumps_default (error_dict UNSUPPORTED_MESSAGE)
  end.
Proof.
  unfold parse.
  rewrite (parse_to_dict_builder (info _ self) self) by apply emit_query_builder.
  now destruct (_parse_to_dict self u).
Qed.

Lemma parse_query_builder self u :
  query_builder (snd (parse self u)) = query_builder self.
Proof.
  unfold parse. destruct (_parse_to_dict _ u); simpl;
    unfold info, warning; now rewrite !emit_query_builder.
Qed.

(** The two ways [parse] comes to its text. *)
Lemma parse_cases self u :
  (exists d, _parse_to_dict self u = Py.Ok d /\
             fst (parse self u) = dumps_compact d) \/
  (exists digits,
     Py.too_long digits = true /\
     search_intent (normalize u) /\
     _extract_size (normalize u) = Py.Raise (Py.ValueError digits) /\
     fst (parse self u) = dumps_default (error_dict UNSUPPORTED_MESSAGE)).
Proof.
  destruct (parse_to_dict_cases self u) as [[d E]|(digits & L & SI & Ez & E)].
  - left. exists d. split; [exact E|]. now rewrite parse_output, E.
  - right. exists digits. repeat (split; [assumption|]).
    now rewrite parse_output, E.
Qed.

Lemma unsupported_iff q :
  _is_unsupported_query q = true <->
  (exists kw, In kw unsupported_keywords /\ Substring kw q) \/
  (exists p, In p modify_patterns /\ search p q <> None).
Proof.
  unfold _is_unsupported_query. split.
  - destruct (existsb _ unsupported_keywords) eqn:K.
    + intros _. left. apply existsb_exists in K as [kw [I C]].
      exists kw. split; [exact I | now apply contains_iff].
    + destruct (existsb _ modify_patterns) eqn:P; [|discriminate].
      intros _. right. apply existsb_exists in P as [p [I C]].
      exists p. split; [exact I|]. now destruct (search p q).
  - intros [[kw [I C]] | [p [I C]]].
    + replace (existsb _ unsupported_keywords) with true; [reflexivity|].
      symmetry. apply existsb_exists. exists kw. split; [exact I | now apply contains_iff].
    + destruct (existsb _ unsupported_keywords); [reflexivity|].
      replace (existsb _ modify_patterns) with true; [reflexivity|].
      symmetry. apply existsb_exists. exists p. split; [exact I|].
      now destruct (search p q).
Qed.

Lemma shards_is_cluster q :
  Py.contains "shards" q = true -> _is_cluster_query q = true.
Proof.
  intros H. unfold _is_cluster_query. apply existsb_exists. exists "shard".
  split; [cbn; tauto|]. apply contains_iff. apply contains_iff in H.
  eapply Substring_trans; [|exact H]. now exists "", "s".
Qed.

(** The dictionaries [_parse_to_dict] can return. *)
Lemma parse_to_dict_shape self u d :
  _parse_to_dict self u = Py.Ok d ->
  (exists msg, In msg [UNSUPPORTED_MESSAGE; UNSUPPORTED_CLUSTER_MESSAGE;
                       UNSUPPORTED_CAT_MESSAGE] /\ d = error_dict msg) \/
  (exists path, In path ["_cluster/health"; "_cat/nodes?v"; "_cat/indices?v"] /\
                d = api_dict path) \/
  (exists n query, d = JDict [("size", JInt n);
                              ("sort", OpenSearchQueryBuilder.default_sort
                                         (query_builder self));
                              ("query", query)]).
Proof.
  unfold _parse_to_dict. set (q := Py.strip (Py.lower u)).
  destruct (_is_unsupported_query q).
  { intros H. injection H as <-. left. exists UNSUPPORTED_MESSAGE. cbn; auto. }
  destruct (_is_cluster_query q) eqn:Cl.
  { intros H. injection H as <-. unfold _handle_cluster_query.
    destruct (_ || _).
    - right; left. eexists; split; [|reflexivity]. cbn; auto.
    - destruct (Py.contains "node" q).
      + right; left. eexists; split; [|reflexivity]. cbn; auto.
      + left. eexists; split; [|reflexivity]. cbn; auto. }
  destruct (_is_cat_query q).
  { intros H. injection H as <-. unfold _handle_cat_query.
    destruct (_ || _).
    - right; left. eexists; split; [|reflexivity]. cbn; auto.
    - destruct (Py.contains "nodes" q).
      + right; left. eexists; split; [|reflexivity]. cbn; auto.
      + destruct (Py.contains "shards" q) eqn:Sh.
        * apply shards_is_cluster in Sh. congruence.
        * left. eexists; split; [|reflexivity]. cbn; auto. }
  destruct (_extract_service_name q) as [o1|]; [|discriminate].
  destruct (_extract_time_range self q) as [o2|]; [|discriminate].
  destruct (_extract_size q) as [o3|]; [|discriminate].
  cbn [Py.bind]. intros H. injection H as <-. right; right.
  unfold OpenSearchQueryBuilder.build_base_query.
  destruct (truthy_int o3) as [n|];
    match goal with
    | |- context [match ?l with [] => _ | _ :: _ => _ end] => destruct l
    end; cbn; eauto.
Qed.


Lemma run_query_builder calls : forall self,
  query_builder (run self calls) = query_builder self.
Proof.
  unfold run. induction calls as [|u calls IH]; intros self; simpl.
  - reflexivity.
  - now rewrite IH, parse_query_builder.
Qed.

Lemma extract_log_level_canonical q l :
  _extract_log_level q = Some l ->
  In l ["error"; "warn"; "info"; "debug"; "trace"].
Proof.
  unfold _extract_log_level, levels. cbn [first_level].
  repeat (destruct (Py.contains _ q);
          [intros H; injection H as <-; vm_compute; tauto|]).
  discriminate.
Qed.

Lemma level_filter_clause qb l :
  In l ["error"; "warn"; "info"; "debug"; "trace"] ->
  OpenSearchQueryBuilder.build_log_level_filter qb l = level_clause l.
Proof.
  cbn [In]. intros [<-|[<-|[<-|[<-|[<-|[]]]]]]; reflexivity.
Qed.

(** The dictionary of a search-intent utterance, facet by facet. *)
Lemma search_dict_of_facets lg u :
  search_intent (normalize u) ->
  exists service time,
    _extract_service_name (normalize u) = Py.Ok service /\
    _extract_time_range (parser lg) (normalize u) = Py.Ok time /\
    truthy_str service = service /\
    _parse_to_dict (parser lg) u
    = (size <- _extract_size (normalize u) ;;
       Py.Ok (search_dict
                match truthy_int size with Some n => n | None => 50%Z end
                (query_of (opt_list (option_map level_clause
                                       (_extract_log_level (normalize u)))
                           ++ opt_list (option_map service_clause service)
                           ++ opt_list time
                           ++ map term_clause
                                  (_extract_search_terms (normalize u)))%list))).
Proof.
  unfold normalize. set (q := Py.strip (Py.lower u)). intros (U & Cl & Ca).
  destruct (extract_service_name_ok q) as [service [Es Ts]].
  destruct (build_time_range_ok OpenSearchQueryBuilder.__init__ q) as [time Et].
  exists service, time. repeat (split; [assumption|]).
  unfold _parse_to_dict. fold q. rewrite U, Cl, Ca, Es. cbn [Py.bind].
  unfold _extract_time_range. cbn [query_builder parser]. rewrite Et.
  cbn [Py.bind]. destruct (_extract_size q) as [size|e]; [|reflexivity].
  cbn [Py.bind]. rewrite Ts.
  assert (L : append_if (truthy_str (_extract_log_level q))
                (OpenSearchQueryBuilder.build_log_level_filter
                   OpenSearchQueryBuilder.__init__) []
              = opt_list (option_map level_clause (_extract_log_level q))).
  { destruct (_extract_log_level q) as [l|] eqn:El; [|reflexivity].
    apply extract_log_level_canonical in El.
    cbn [In] in El. destruct El as [<-|[<-|[<-|[<-|[<-|[]]]]]]; reflexivity. }
  rewrite L. clear L.
  set (ls := opt_list (option_map level_clause (_extract_log_level q))).
  set (ts := map _ (_extract_search_terms q)).
  assert (M : (append_if time (fun c => c)
                 (append_if service
                    (OpenSearchQueryBuilder.build_service_filter
                       OpenSearchQueryBuilder.__init__) ls) ++ ts
               = ls ++ opt_list (option_map service_clause service)
                    ++ opt_list time ++ map term_clause (_extract_search_terms q))%list).
  { subst ts. destruct service, time; cbn [append_if opt_list option_map];
      rewrite <- ?app_assoc; rewrite ?app_nil_r; reflexivity. }
  rewrite M. clear M.
  set (must := (ls ++ _)%list).
  destruct (truthy_int size) as [n|]; destruct must; reflexivity.
Qed.

End ParserFacts.

(** ** The utterance "top N errors" *)

Module TopErrors.
Import Re ReSpec ReFacts NLQParser ExtractorFacts Expected TextFacts ParserFacts.

Lemma requires_seq_in w : forall rs, In (lit w) rs -> requires (seq rs) w.
Proof.
  induction rs as [|r rs IH]; intros I; [destruct I|].
  cbn [seq fold_right]. destruct I as [->|I].
  - apply requires_seq_l, requires_lit.
  - apply requires_seq_r. now apply IH.
Qed.

Lemma decimal_not_alpha c : Py.isdecimal c = true -> alpha_char c = false.
Proof.
  intros D. apply decimal_ord in D.
  unfold alpha_char, Py.islower_ascii, Py.isupper_ascii.
  rewrite !between_out by lia. reflexivity.
Qed.

Lemma decimal_not_space c : Py.isdecimal c = true -> Py.isspace c = false.
Proof.
  intros D. apply decimal_ord in D. unfold Py.isspace.
  rewrite !between_out by lia.
  replace (Py.ord c =? 133)%N with false by (symmetry; apply N.eqb_neq; lia).
  replace (Py.ord c =? 160)%N with false by (symmetry; apply N.eqb_neq; lia).
  reflexivity.
Qed.

Lemma digits_not_alpha ds :
  all_chars Py.isdecimal ds = true ->
  all_chars (fun c => negb (alpha_char c)) ds = true.
Proof.
  apply all_chars_impl. intros a D. now rewrite decimal_not_alpha.
Qed.

Lemma level_word_starts : starts_with level_word_pattern alpha_char.
Proof.
  unfold level_word_pattern. cbn [seq fold_right].
  apply starts_bound, starts_seq, starts_group, starts_alts.
  repeat constructor; eexists _, _; split; reflexivity.
Qed.

Lemma word_starts : starts_with word_pattern alpha_char.
Proof.
  unfold word_pattern. cbn [seq fold_right].
  apply starts_bound, starts_seq, starts_plus.
Qed.


Lemma level_tail pv n :
  sub_pieces "" (scan level_word_pattern false 0 pv " errors" n) = " ".
Proof.
  rewrite scan_keep
    by (apply (match_at_starts _ _ _ _ _ _ level_word_starts); reflexivity).
  rewrite (scan_hit _ _ _ _ _ (MkMatch (S n) (6 + S n) "errors" ["errors"]) 5).
  - rewrite !scan_inside, scan_end
      by (apply (match_at_starts _ _ _ _ _ _ level_word_starts); exact I).
    reflexivity.
  - unfold match_at. cbn -[Nat.sub substring].
    replace (S (S (S (S (S (S (S n)))))) - S n) with 6 by lia. reflexivity.
  - cbn [m_end]. lia.
Qed.

Lemma word_tail pv n :
  hit_texts (scan word_pattern false 0 pv " " n) = [].
Proof.
  rewrite scan_keep, scan_end;
    try (apply (match_at_starts _ _ _ _ _ _ word_starts)); reflexivity || exact I.
Qed.

Section Digits.

Variable ds : string.
Hypothesis ds_nonempty : ds <> "".
Hypothesis ds_digits : all_chars Py.isdecimal ds = true.

Lemma top_errors_level_sub :
  sub level_word_pattern "" (top_errors ds) = "top " ++ ds ++ " ".
Proof.
  unfold sub, top_errors. cbn [append].
  do 4 (rewrite scan_keep by (vm_compute; reflexivity)).
  cbn [sub_pieces].
  rewrite (sub_over _ _ "" level_word_starts) by now apply digits_not_alpha.
  rewrite level_tail. reflexivity.
Qed.

Lemma top_errors_words :
  findall word_pattern ("top " ++ ds ++ " ") = ["top"].
Proof.
  unfold findall. cbn [append].
  rewrite (scan_hit _ _ _ _ _ (MkMatch 0 3 "top" []) 2)
    by (vm_compute; reflexivity).
  rewrite !scan_inside.
  rewrite scan_keep by (vm_compute; reflexivity).
  cbn [hit_texts m_text].
  rewrite (hits_over _ _ word_starts) by now apply digits_not_alpha.
  now rewrite word_tail.
Qed.




Ltac word_in_top :=
  rewrite (contains_top_errors _ ds)
    by first [assumption | discriminate | reflexivity].

Ltac no_word :=
  word_in_top; vm_compute; reflexivity.

(** No pattern with a literal word that the utterance lacks is found. *)
Ltac search_fails :=
  match goal with
  | |- context [search (seq ?rs) (top_errors ds)] =>
      match rs with
      | context [lit ?w] =>
          rewrite (search_requires (seq rs) w (top_errors ds))
            by first [ apply requires_seq_in; cbn [In]; auto 10 | no_word ]
      end
  end.

Lemma top_errors_not_unsupported :
  _is_unsupported_query (top_errors ds) = false.
Proof.
  unfold _is_unsupported_query, unsupported_keywords, modify_patterns.
  cbn [existsb]. repeat word_in_top. repeat search_fails.
  vm_compute. reflexivity.
Qed.

Lemma top_errors_not_cluster : _is_cluster_query (top_errors ds) = false.
Proof.
  unfold _is_cluster_query, cluster_keywords. cbn [existsb].
  repeat word_in_top. vm_compute. reflexivity.
Qed.

Lemma top_errors_not_cat : _is_cat_query (top_errors ds) = false.
Proof.
  unfold _is_cat_query, cat_patterns. cbn [existsb].
  repeat search_fails. reflexivity.
Qed.

Lemma top_errors_level : _extract_log_level (top_errors ds) = Some "error".
Proof.
  unfold _extract_log_level, levels. cbn [first_level].
  word_in_top. reflexivity.
Qed.

Lemma top_errors_service : _extract_service_name (top_errors ds) = Py.Ok None.
Proof.
  unfold _extract_service_name, service_name_patterns. cbn [first_service].
  repeat search_fails. reflexivity.
Qed.

Lemma top_errors_time self :
  _extract_time_range self (top_errors ds) = Py.Ok None.
Proof.
  unfold _extract_time_range, OpenSearchQueryBuilder.build_time_range,
    OpenSearchQueryBuilder.last_pattern.
  rewrite (lower_top_errors ds ds_digits). search_fails.
  repeat word_in_top. reflexivity.
Qed.


Lemma top_errors_terms : _extract_search_terms (top_errors ds) = [].
Proof.
  unfold _extract_search_terms.
  rewrite (lower_top_errors ds ds_digits).
  unfold remove_all, service_patterns, time_patterns.
  cbn [fold_left].
  repeat match goal with
  | |- context [sub (seq ?rs) "" (top_errors ds)] =>
      match rs with
      | context [lit ?w] =>
          rewrite (sub_requires (seq rs) w "" (top_errors ds))
            by first [ apply requires_seq_in; cbn [In]; auto 10 | no_word ]
      end
  | |- context [sub (lit ?w) "" (top_errors ds)] =>
      rewrite (sub_requires (lit w) w "" (top_errors ds))
        by first [ apply requires_lit | no_word ]
  end.
  rewrite top_errors_level_sub, top_errors_words. reflexivity.
Qed.


Lemma top_pattern_match :
  search (seq [lit "top"; plus Py.isspace; RGroup (plus Py.isdecimal)])
         (top_errors ds)
  = Some (MkMatch 0 (4 + String.length ds) ("top " ++ ds) [ds]).
Proof.
  unfold top_errors. destruct ds as [|d ds'] eqn:Eds; [congruence|].
  simpl in ds_digits. apply andb_true_iff in ds_digits as [Dd D].
  apply search_at_start. unfold match_at.
  assert (R : rmatch (seq [lit "top"; plus Py.isspace; RGroup (plus Py.isdecimal)])
                (accept false 0)
                (Cursor None ("top " ++ String d ds' ++ " errors") 0 [])
              = Some (Cursor (prev_after (Some d) ds') " errors"
                             (5 + String.length ds') [String d ds'])).
  { cbn [append seq fold_right rmatch lit chr plus c_rest c_pos c_groups c_prev].
    rewrite !Ascii.eqb_refl. replace (Py.isspace " ") with true by reflexivity.
    rewrite star_stop by now apply decimal_not_space.
    cbn [c_rest c_pos c_groups]. rewrite Dd.
    apply star_run; [exact D|]. rewrite star_stop by reflexivity.
    unfold accept, close_group. cbn [c_rest c_pos c_groups c_prev andb app].
    replace (5 + String.length ds' - 4) with (String.length (String d ds'))
      by (cbn [String.length]; lia).
    change (String d (ds' ++ " errors")) with (String d ds' ++ " errors").
    now rewrite substring_append. }
  rewrite R. cbn [c_pos c_groups].
  replace (5 + String.length ds' - 0)
    with (String.length ("top " ++ String d ds'))
    by (rewrite length_append; cbn [String.length]; lia).
  rewrite <- (append_assoc "top " (String d ds') " errors"), substring_append.
  reflexivity.
Qed.

Lemma top_errors_size :
  _extract_size (top_errors ds) = (n <- Py.int ds ;; Py.Ok (Some n)).
Proof.
  unfold _extract_size, size_patterns. cbn [first_size].
  do 2 search_fails. rewrite top_pattern_match.
  unfold group. cbn [m_groups nth_error Py.bind]. reflexivity.
Qed.

(** What [_parse_to_dict] does with "top <digits> errors": the level clause
    and the size that [int] reads from the digits. *)
Lemma top_errors_dict lg :
  _parse_to_dict (parser lg) (top_errors ds)
  = (n <- Py.int ds ;;
     Py.Ok (search_dict match n with 0%Z => 50%Z | _ => n end
                        (bool_must [level_clause "error"]))).
Proof.
  unfold _parse_to_dict.
  change (Py.strip (Py.lower (top_errors ds))) with (normalize (top_errors ds)).
  rewrite (normalize_top_errors _ ds_digits).
  rewrite top_errors_not_unsupported, top_errors_not_cluster,
    top_errors_not_cat, top_errors_level, top_errors_service.
  cbn [Py.bind]. rewrite top_errors_time. cbn [Py.bind].
  rewrite top_errors_terms, top_errors_size.
  destruct (Py.int ds) as [n|e]; [|reflexivity].
  cbn [Py.bind]. now destruct n.
Qed.

End Digits.

(** The whole answer to "top N errors" for a positive N of at most 4300
    digits. *)
Lemma top_errors_parse lg N :
  (0 < N)%Z -> Py.too_long (Py.str_of_int N) = false ->
  fst (parse (parser lg) (top_errors (Py.str_of_int N)))
  = dq "{'size':" ++ Py.str_of_int N
    ++ dq ",'sort':[{'@timestamp':'desc'}],'query':{'bool':{'must':[{'match':{'log.level':'error'}}]}}}".
Proof.
  intros P L. destruct (str_of_int_positive N P) as (Ne & D & I).
  rewrite parse_output, (top_errors_dict _ Ne D), (I L).
  cbn [Py.bind]. destruct N as [|n|n]; try lia.
  cbn -[Py.str_of_int]. rewrite !append_assoc. reflexivity.
Qed.

(** The answer to "top <digits> errors" for more than 4300 digits. *)
Lemma top_errors_overlong lg digits :
  digits <> "" -> all_chars Py.isdecimal digits = true ->
  Py.too_long digits = true ->
  _parse_to_dict (parser lg) (top_errors digits)
  = Py.Raise (Py.ValueError digits) /\
  fst (parse (parser lg) (top_errors digits))
  = dumps_default (error_dict UNSUPPORTED_MESSAGE).
Proof.
  intros Ne D L.
  assert (E : _parse_to_dict (parser lg) (top_errors digits)
              = Py.Raise (Py.ValueError digits)).
  { rewrite (top_errors_dict _ Ne D), (int_too_long digits L). reflexivity. }
  split; [exact E|]. now rewrite parse_output, E.
Qed.

End TopErrors.

(** ** Further facts about the parser and the clients *)

Module ExtraFacts.
Import Re ReSpec ReFacts NLQParser ExtractorFacts Expected ParserFacts Further.

Lemma contains_longer a b s :
  Substring a b -> Py.contains a s = false -> Py.contains b s = false.
Proof.
  intros AB C. apply contains_false_iff. apply contains_false_iff in C.
  intros B. apply C. eapply Substring_trans; eauto.
Qed.


Lemma service_pattern_name p q m :
  In p service_name_patterns -> search p q = Some m ->
  exists u, m_groups m = [u] /\ u <> "" /\ all_chars name_char u = true.
Proof.
  intros I.
  apply (groups_of_search p q m
           (fun gs => exists u, gs = [u] /\ u <> "" /\
                                all_chars name_char u = true)).
  intros c c' G0 St.
  unfold service_name_patterns in I. cbn [In] in I.
  destruct I as [<-|[<-|[<-|[<-|[]]]]]; split_steps; chain_groups;
    simpl; eexists; eauto.
Qed.

Lemma service_pattern_needs_word p q m :
  In p service_name_patterns -> search p q = Some m -> Substring "service" q.
Proof.
  intros I H. apply contains_iff.
  destruct (Py.contains "service" q) eqn:C; [reflexivity|].
  rewrite (search_requires p "service" q) in H; [discriminate | | exact C].
  unfold service_name_patterns in I. cbn [In] in I.
  destruct I as [<-|[<-|[<-|[<-|[]]]]];
    apply TopErrors.requires_seq_in; cbn [In]; auto 10.
Qed.

Lemma first_service_shape q name : forall ps,
  (forall p, In p ps -> In p service_name_patterns) ->
  first_service ps q = Py.Ok (Some name) ->
  Substring "service" q /\ name <> "" /\
  all_chars name_char name = true /\ Py.endswith_char name "-" = false.
Proof.
  induction ps as [|p ps IH]; intros Sub H; cbn [first_service] in H.
  - discriminate.
  - destruct (search p q) as [m|] eqn:E.
    + pose proof (service_pattern_needs_word p q m (Sub p (or_introl eq_refl)) E) as W.
      apply service_pattern_name in E as (u & G & Ne & A);
        [|apply Sub; now left].
      unfold group in H. rewrite G in H. cbn [nth_error Py.bind] in H.
      destruct (Py.endswith_char u "-") eqn:D; injection H as <-.
      * split; [exact W|]. split; [destruct u; discriminate|].
        split; [rewrite TextFacts.all_chars_append, A; reflexivity|].
        unfold Py.endswith_char.
        rewrite last_char_append_nonempty by discriminate. reflexivity.
      * auto.
    + apply IH; [|exact H]. intros p' I. apply Sub. now right.
Qed.


Lemma lower_char_not_upper c : not_upper (Py.lower_char c) = true.
Proof. destruct c as [[] [] [] [] [] [] [] []]; reflexivity. Qed.

Lemma lower_not_upper s : all_chars not_upper (Py.lower s) = true.
Proof.
  induction s as [|c s IH]; simpl; [reflexivity|].
  now rewrite lower_char_not_upper, IH.
Qed.

Lemma all_chars_tail p a s :
  all_chars p (String a s) = true -> all_chars p s = true.
Proof. simpl. intros H. now apply andb_true_iff in H as [_ H]. Qed.

(** A deletion keeps only characters of the subject. *)
Lemma scan_keeps_chars r p : forall s adv skip pv n,
  all_chars p s = true ->
  all_chars p (sub_pieces "" (scan r adv skip pv s n)) = true.
Proof.
  induction s as [|a s IH]; intros adv skip pv n A.
  - destruct skip; cbn [scan]; [|reflexivity].
    destruct (match_at r adv pv "" n) as [m|]; [|reflexivity].
    now destruct (m_end m - n).
  - pose proof (all_chars_tail p a s A) as A'.
    assert (Pa : p a = true) by (simpl in A; now apply andb_true_iff in A as [Pa _]).
    destruct skip as [|k]; cbn [scan]; [|now apply IH].
    destruct (match_at r adv pv (String a s) n) as [m|].
    + destruct (m_end m - n); cbn [sub_pieces append]; [|now apply IH].
      destruct (match_at r true pv (String a s) n) as [m'|];
        cbn [sub_pieces append all_chars]; [now apply IH|].
      rewrite Pa. now apply IH.
    + cbn [sub_pieces all_chars]. rewrite Pa. now apply IH.
Qed.

Lemma sub_keeps_chars r p s :
  all_chars p s = true -> all_chars p (sub r "" s) = true.
Proof. apply scan_keeps_chars. Qed.

Lemma remove_all_keeps_chars p rs : forall s,
  all_chars p s = true -> all_chars p (remove_all rs s) = true.
Proof.
  unfold remove_all. induction rs as [|r rs IH]; intros s A; cbn [fold_left].
  - exact A.
  - apply IH. now apply sub_keeps_chars.
Qed.

Lemma cleaned_text_not_upper q :
  all_chars not_upper (cleaned_text q) = true.
Proof.
  unfold cleaned_text. apply sub_keeps_chars.
  do 2 apply remove_all_keeps_chars. apply lower_not_upper.
Qed.

(** Every text [findall] returns is the text of a match at some position. *)
Lemma scan_hits r t : forall s adv skip pv n,
  In t (hit_texts (scan r adv skip pv s n)) ->
  exists adv' pv' pre s' n' m,
    s = pre ++ s' /\ match_at r adv' pv' s' n' = Some m /\ m_text m = t.
Proof.
  induction s as [|a s IH]; intros adv skip pv n H.
  - destruct skip; cbn [scan] in H; [|destruct H].
    destruct (match_at r adv pv "" n) as [m|] eqn:M; [|destruct H].
    assert (In t [m_text m]) as [<-|[]] by (destruct (m_end m - n); exact H).
    exists adv, pv, "", "", n, m. auto.
  - assert (Tail : forall adv' k pv' n',
               In t (hit_texts (scan r adv' k pv' s n')) ->
               exists adv' pv' pre s' n' m,
                 String a s = pre ++ s' /\
                 match_at r adv' pv' s' n' = Some m /\ m_text m = t).
    { intros adv' k pv' n' I.
      destruct (IH _ _ _ _ I) as (ad & pw & pre & s' & n0 & m & -> & M & T).
      exists ad, pw, (String a pre), s', n0, m. auto. }
    destruct skip as [|k]; cbn [scan] in H; [|now apply Tail in H].
    destruct (match_at r adv pv (String a s) n) as [m|] eqn:M.
    + assert (Here : exists adv' pv' pre s' n' m0,
                 String a s = pre ++ s' /\
                 match_at r adv' pv' s' n' = Some m0 /\ m_text m0 = m_text m)
        by (exists adv, pv, "", (String a s), n, m; auto).
      destruct (m_end m - n); cbn [hit_texts] in H.
      * destruct H as [<-|H]; [exact Here|].
        destruct (match_at r true pv (String a s) n) as [m'|] eqn:M';
          cbn [hit_texts] in H; [|now apply Tail in H].
        destruct H as [<-|H]; [|now apply Tail in H].
        exists true, pv, "", (String a s), n, m'. auto.
      * destruct H as [<-|H]; [exact Here | now apply Tail in H].
    + cbn [hit_texts] in H. now apply Tail in H.
Qed.

Lemma word_match_text adv pv s n m :
  match_at word_pattern adv pv s n = Some m ->
  all_chars alpha_char (m_text m) = true /\ exists rest, s = m_text m ++ rest.
Proof.
  intros H. split.
  - apply match_at_sound in H as (c' & St & ->). cbn [m_text].
    unfold word_pattern in St. cbn [seq fold_right] in St.
    apply steps_seq in St as (c1 & B1 & St). inversion B1; subst.
    apply steps_seq in St as (c2 & P & St).
    apply steps_seq in St as (c3 & B2 & E). inversion B2; subst.
    inversion E; subst.
    apply steps_plus in P as (u & _ & A & Mv).
    pose proof (moved_group_text _ _ _ _ Mv) as T. cbn [c_pos c_rest] in T.
    now rewrite T.
  - apply match_at_text in H as (rest & E & _). eauto.
Qed.

Lemma alpha_not_upper_lower c :
  alpha_char c = true -> not_upper c = true -> Py.islower_ascii c = true.
Proof.
  unfold alpha_char, not_upper. destruct (Py.isupper_ascii c); [discriminate|].
  now rewrite orb_false_r.
Qed.

Lemma all_chars_both (p q r : ascii -> bool) s :
  (forall c, p c = true -> q c = true -> r c = true) ->
  all_chars p s = true -> all_chars q s = true -> all_chars r s = true.
Proof.
  intros I. induction s as [|c s IH]; simpl; [reflexivity|]. intros P Q.
  apply andb_true_iff in P as [Pc P]. apply andb_true_iff in Q as [Qc Q].
  now rewrite (I c Pc Qc), IH.
Qed.

(** The words read from the cleaned text are runs of lower-case letters. *)
Lemma cleaned_words_lower q t :
  In t (findall word_pattern (cleaned_text q)) ->
  all_chars Py.islower_ascii t = true.
Proof.
  intros H. unfold findall in H.
  apply scan_hits in H as (adv & pv & pre & s' & n & m & E & M & <-).
  apply word_match_text in M as (A & rest & ->).
  pose proof (cleaned_text_not_upper q) as N. rewrite E in N.
  rewrite !TextFacts.all_chars_append in N.
  apply andb_true_iff in N as [_ N]. apply andb_true_iff in N as [N _].
  exact (all_chars_both _ _ _ _ alpha_not_upper_lower A N).
Qed.


(** The text of the search branch starts with the size member, unless an
    exception was caught. *)
Lemma search_branch_text self u :
  _is_unsupported_query (normalize u) = false ->
  _is_cluster_query (normalize u) = false ->
  _is_cat_query (normalize u) = false ->
  prefix (dq "{'size'") (fst (parse self u)) = true \/
  fst (parse self u) = dumps_default (error_dict UNSUPPORTED_MESSAGE).
Proof.
  unfold normalize. intros U C K. rewrite parse_output. unfold _parse_to_dict.
  rewrite U, C, K.
  destruct (_extract_service_name _) as [o1|]; [|now right].
  destruct (_extract_time_range self _) as [o2|]; [|now right].
  destruct (_extract_size _) as [o3|]; [|now right].
  cbn [Py.bind]. left.
  unfold OpenSearchQueryBuilder.build_base_query.
  destruct (truthy_int o3) as [n|];
    match goal with
    | |- context [match ?l with [] => _ | _ :: _ => _ end] => destruct l
    end; reflexivity.
Qed.

Lemma keyword_absent q kw :
  _is_unsupported_query q = false -> In kw unsupported_keywords ->
  Py.contains kw q = false.
Proof.
  unfold _is_unsupported_query. intros U I.
  destruct (existsb _ unsupported_keywords) eqn:E; [discriminate|].
  destruct (Py.contains kw q) eqn:C; [|reflexivity].
  assert (X : existsb (fun keyword => Py.contains keyword q) unsupported_keywords
              = true) by (apply existsb_exists; eauto).
  congruence.
Qed.

Lemma cluster_trigger q :
  _is_cluster_query q = true <->
  Py.contains "cluster health" q = true \/ Py.contains "cluster status" q = true \/
  Py.contains "node" q = true \/ Py.contains "shard" q = true.
Proof.
  unfold _is_cluster_query, cluster_keywords. cbn [existsb].
  rewrite orb_false_r, !orb_true_iff. tauto.
Qed.


Lemma cat_trigger q :
  _is_cat_query q = true <-> exists p, In p cat_patterns /\ occurs p q.
Proof.
  unfold _is_cat_query. rewrite existsb_exists.
  split; intros (p & I & H); exists p; (split; [exact I|]).
  - apply search_iff. now destruct (search p q).
  - apply search_iff in H. now destruct (search p q).
Qed.

(** Past the cluster check, only three of the cat patterns can match. *)
Lemma cat_past_cluster q p :
  _is_cluster_query q = false -> In p cat_patterns -> occurs p q ->
  Substring "indices" q \/ p = seq [RBound; lit "cat"; plus Py.isspace].
Proof.
  intros C I O.
  assert (Nn : Py.contains "nodes" q = false).
  { apply (contains_longer "node" "nodes"); [now exists "", "s"|].
    destruct (Py.contains "node" q) eqn:X; [|reflexivity].
    assert (F : _is_cluster_query q = true) by (apply cluster_trigger; auto).
    congruence. }
  assert (Ns : Py.contains "shards" q = false).
  { apply (contains_longer "shard" "shards"); [now exists "", "s"|].
    destruct (Py.contains "shard" q) eqn:X; [|reflexivity].
    assert (F : _is_cluster_query q = true) by (apply cluster_trigger; auto).
    congruence. }
  assert (R : forall w rs, In (lit w) rs -> Py.contains w q = false ->
                           ~ occurs (seq rs) q).
  { intros w rs Iw Cw Oc. apply search_iff in Oc. apply Oc.
    apply (search_requires _ w); [|exact Cw].
    now apply TopErrors.requires_seq_in. }
  destruct (Py.contains "indices" q) eqn:Ci; [left; now apply contains_iff|].
  unfold cat_patterns in I. cbn [In] in I.
  destruct I as [<-|[<-|[<-|[<-|[<-|[<-|[<-|[]]]]]]]]; [..|now right];
    exfalso; revert O;
    first [apply (R "indices"); [cbn [In]; tauto | assumption]
          |apply (R "nodes"); [cbn [In]; tauto | assumption]
          |apply (R "shards"); [cbn [In]; tauto | assumption]].
Qed.


Lemma lower_char_idem c : Py.lower_char (Py.lower_char c) = Py.lower_char c.
Proof. destruct c as [[] [] [] [] [] [] [] []]; reflexivity. Qed.

Lemma lower_idem s : Py.lower (Py.lower s) = Py.lower s.
Proof.
  induction s as [|c s IH]; simpl; [reflexivity|].
  now rewrite lower_char_idem, IH.
Qed.

Lemma lower_char_space c : Py.isspace c = true -> Py.lower_char c = c.
Proof.
  destruct c as [[] [] [] [] [] [] [] []]; intros H;
    first [reflexivity | discriminate H].
Qed.

Lemma lower_blank a : all_chars Py.isspace a = true -> Py.lower a = a.
Proof.
  induction a as [|c a IH]; simpl; [reflexivity|]. intros H.
  apply andb_true_iff in H as [Hc H]. now rewrite lower_char_space, IH.
Qed.

Lemma lstrip_blank_head a y :
  all_chars Py.isspace a = true -> Py.lstrip (a ++ y) = Py.lstrip y.
Proof.
  induction a as [|c a IH]; simpl; [reflexivity|]. intros H.
  apply andb_true_iff in H as [Hc H]. rewrite Hc. now apply IH.
Qed.

Lemma rstrip_blank b : all_chars Py.isspace b = true -> Py.rstrip b = "".
Proof.
  induction b as [|c b IH]; simpl; [reflexivity|]. intros H.
  apply andb_true_iff in H as [Hc H]. now rewrite IH, Hc.
Qed.

Lemma lstrip_blank b : all_chars Py.isspace b = true -> Py.lstrip b = "".
Proof.
  induction b as [|c b IH]; simpl; [reflexivity|]. intros H.
  apply andb_true_iff in H as [Hc H]. rewrite Hc. now apply IH.
Qed.

Lemma strip_blank_tail x b :
  all_chars Py.isspace b = true -> Py.strip (x ++ b) = Py.strip x.
Proof.
  intros B. unfold Py.strip. induction x as [|c x IH].
  - cbn [append]. now rewrite (lstrip_blank b B).
  - cbn [append Py.lstrip]. destruct (Py.isspace c); [exact IH|].
    change (String c (x ++ b)) with (String c x ++ b).
    apply TextFacts.rstrip_blank_tail. now apply rstrip_blank.
Qed.

Lemma strip_padded a x b :
  all_chars Py.isspace a = true -> all_chars Py.isspace b = true ->
  Py.strip (a ++ x ++ b) = Py.strip x.
Proof.
  intros A B. unfold Py.strip. rewrite (lstrip_blank_head a _ A).
  now apply strip_blank_tail.
Qed.

Lemma normalize_padded a u b :
  all_chars Py.isspace a = true -> all_chars Py.isspace b = true ->
  normalize (a ++ u ++ b) = normalize u.
Proof.
  intros A B. unfold normalize.
  rewrite !TextFacts.lower_append, (lower_blank a A), (lower_blank b B).
  now apply strip_padded.
Qed.

Lemma parse_of_normalized self u v :
  normalize u = normalize v -> fst (parse self u) = fst (parse self v).
Proof.
  intros E. rewrite !parse_output. unfold _parse_to_dict.
  unfold normalize in E. now rewrite E.
Qed.


Lemma add_condition_clause filter c :
  parser_clause c ->
  WebexLogsClient.add_condition filter c
  = Dyn.Done (filter ++ [to_filter c])%list.
Proof. intros [(field & x & ->)|(bounds & ->)]; reflexivity. Qed.

Lemma add_conditions_clauses : forall clauses filter,
  Forall parser_clause clauses ->
  WebexLogsClient.add_conditions filter clauses
  = Dyn.Done (filter ++ map to_filter clauses)%list.
Proof.
  induction clauses as [|c clauses IH]; intros filter F.
  - cbn [WebexLogsClient.add_conditions map]. now rewrite app_nil_r.
  - inversion F as [|? ? Hc F']; subst.
    cbn [WebexLogsClient.add_conditions map].
    rewrite (add_condition_clause filter c Hc).
    cbn [Dyn.bind]. rewrite (IH _ F'), <- app_assoc. reflexivity.
Qed.

Lemma time_filter_is_range self q c :
  _extract_time_range self q = Py.Ok (Some c) ->
  exists bounds, c = OpenSearchQueryBuilder.range_clause bounds.
Proof.
  unfold _extract_time_range, OpenSearchQueryBuilder.build_time_range.
  destruct (search _ _) as [m|].
  - destruct (group m 1) as [amount|]; [|discriminate].
    destruct (group m 2) as [unit|]; [|discriminate]. cbn [Py.bind].
    destruct (OpenSearchQueryBuilder.getitem _ unit) as [code|]; [|discriminate].
    cbn [Py.bind]. intros H. injection H as <-. eauto.
  - destruct (Py.contains "today" _); [intros H; injection H as <-; eauto|].
    destruct (Py.contains "yesterday" _); [intros H; injection H as <-; eauto|].
    discriminate.
Qed.

Lemma convert_search_dict now_ms size clauses :
  Forall parser_clause clauses ->
  WebexLogsClient._convert_to_webex_format now_ms
    [("size", JInt size); ("sort", fixed_sort); ("query", query_of clauses)]
  = Dyn.Done
      (webex_request now_ms (Z.min size 5000) (map to_filter clauses)).
Proof.
  intros F. destruct clauses as [|c clauses]; [reflexivity|].
  unfold WebexLogsClient._convert_to_webex_format, query_of, bool_must.
  cbn [dict_get String.eqb Ascii.eqb Bool.eqb Dyn.min_
       Dyn.bind Dyn.in_ Dyn.getitem
       Dyn.iter].
  now rewrite (add_conditions_clauses (c :: clauses) [] F).
Qed.


(** *** Cookies *)

Lemma lacks_append c a b : lacks c (a ++ b) = lacks c a && lacks c b.
Proof. apply TextFacts.all_chars_append. Qed.

Lemma all_chars_lstrip p s :
  all_chars p s = true -> all_chars p (Py.lstrip s) = true.
Proof.
  induction s as [|c s IH]; [auto|]. intros H. cbn [Py.lstrip].
  destruct (Py.isspace c); [|exact H]. apply IH. now apply all_chars_tail in H.
Qed.

Lemma all_chars_rstrip p s :
  all_chars p s = true -> all_chars p (Py.rstrip s) = true.
Proof.
  induction s as [|c s IH]; [auto|]. cbn [all_chars Py.rstrip]. intros H.
  apply andb_true_iff in H as [Hc H]. specialize (IH H).
  destruct (Py.rstrip s) as [|d t].
  - destruct (Py.isspace c); [reflexivity|]. cbn [all_chars]. now rewrite Hc.
  - cbn [all_chars] in *. now rewrite Hc, IH.
Qed.

Lemma all_chars_strip p s :
  all_chars p s = true -> all_chars p (Py.strip s) = true.
Proof. intros H. now apply all_chars_rstrip, all_chars_lstrip. Qed.

Lemma lstrip_head s :
  Py.lstrip s = "" \/
  exists c t, Py.lstrip s = String c t /\ Py.isspace c = false.
Proof.
  induction s as [|c s IH]; [now left|]. cbn [Py.lstrip].
  destruct (Py.isspace c) eqn:E; [exact IH|]. right. eauto.
Qed.

Lemma rstrip_head c t :
  Py.isspace c = false -> exists t', Py.rstrip (String c t) = String c t'.
Proof.
  intros E. cbn [Py.rstrip]. destruct (Py.rstrip t); [rewrite E|]; eauto.
Qed.

Lemma rstrip_idem s : Py.rstrip (Py.rstrip s) = Py.rstrip s.
Proof.
  induction s as [|c s IH]; [reflexivity|]. cbn [Py.rstrip].
  destruct (Py.rstrip s) as [|d t] eqn:R.
  - destruct (Py.isspace c) eqn:E; [reflexivity|]. cbn [Py.rstrip]. now rewrite E.
  - change (Py.rstrip (String c (String d t)))
      with (match Py.rstrip (String d t) with
            | "" => if Py.isspace c then "" else String c ""
            | String x y => String c (String x y)
            end).
    now rewrite IH.
Qed.

Lemma strip_idem s : Py.strip (Py.strip s) = Py.strip s.
Proof.
  unfold Py.strip. destruct (lstrip_head s) as [->|(c & t & -> & E)];
    [reflexivity|].
  destruct (rstrip_head c t E) as [t' R]. rewrite R.
  cbn [Py.lstrip]. rewrite E, <- R. apply rstrip_idem.
Qed.

Lemma length_lstrip s : String.length (Py.lstrip s) <= String.length s.
Proof.
  induction s as [|c s IH]; [auto|]. cbn [Py.lstrip].
  destruct (Py.isspace c); cbn [String.length]; lia.
Qed.

Lemma length_rstrip s : String.length (Py.rstrip s) <= String.length s.
Proof.
  induction s as [|c s IH]; [auto|]. cbn [Py.rstrip].
  destruct (Py.rstrip s); [destruct (Py.isspace c)|]; cbn [String.length] in *; lia.
Qed.

Lemma stripped_head s :
  Py.strip s = s ->
  s = "" \/ exists c t, s = String c t /\ Py.isspace c = false.
Proof.
  destruct s as [|c t]; [now left|]. intros H. right. exists c, t.
  split; [reflexivity|]. destruct (Py.isspace c) eqn:E; [|reflexivity].
  exfalso. unfold Py.strip in H. cbn [Py.lstrip] in H. rewrite E in H.
  pose proof (length_rstrip (Py.lstrip t)) as L1.
  pose proof (length_lstrip t) as L2. rewrite H in L1.
  cbn [String.length] in L1. lia.
Qed.

Lemma stripped_lstrip s : Py.strip s = s -> Py.lstrip s = s.
Proof.
  intros H. destruct (stripped_head s H) as [->|(c & t & -> & E)];
    [reflexivity|]. cbn [Py.lstrip]. now rewrite E.
Qed.

Lemma stripped_rstrip s : Py.strip s = s -> Py.rstrip s = s.
Proof.
  intros H. pose proof (stripped_lstrip s H) as L. unfold Py.strip in H.
  now rewrite L in H.
Qed.

Lemma split_lacks sep s :
  Forall (fun w => lacks sep w = true) (WebexLogsClient.split sep s).
Proof.
  induction s as [|c s IH]; cbn [WebexLogsClient.split].
  - now repeat constructor.
  - destruct (c =? sep)%char eqn:E.
    + constructor; [reflexivity | exact IH].
    + destruct (WebexLogsClient.split sep s) as [|w ws].
      * constructor; [|constructor]. unfold lacks. cbn [all_chars]. now rewrite E.
      * inversion IH as [|? ? Hw Hws]; subst. constructor; [|exact Hws].
        unfold lacks in *. cbn [all_chars]. now rewrite E, Hw.
Qed.

Lemma contains_one_char sep c s :
  Py.contains (String sep "") (String c s)
  = (sep =? c)%char || Py.contains (String sep "") s.
Proof.
  cbn [Py.contains prefix]. destruct (sep =? c)%char eqn:E.
  - apply Ascii.eqb_eq in E. subst. destruct (ascii_dec c c); [|congruence].
    now destruct s.
  - apply Ascii.eqb_neq in E. destruct (ascii_dec sep c); [congruence|].
    reflexivity.
Qed.

Lemma split_once_found sep s :
  Py.contains (String sep "") s = true ->
  exists a b, WebexLogsClient.split_once sep s = [a; b] /\
              s = a ++ String sep b /\ lacks sep a = true.
Proof.
  induction s as [|c s IH].
  - cbn. discriminate.
  - rewrite contains_one_char. cbn [WebexLogsClient.split_once].
    rewrite (Ascii.eqb_sym sep c). destruct (c =? sep)%char eqn:E.
    + intros _. apply Ascii.eqb_eq in E. subst. exists "", s. now repeat split.
    + cbn [orb]. intros H. destruct (IH H) as (a & b & -> & -> & L).
      exists (String c a), b. repeat split. unfold lacks in *.
      cbn [all_chars]. now rewrite E, L.
Qed.

Lemma setitem_in d k v k' v' :
  In (k', v') (WebexLogsClient.setitem d k v) ->
  (k', v') = (k, v) \/ In (k', v') d.
Proof.
  induction d as [|[a b] d IH]; cbn [WebexLogsClient.setitem].
  - intros [H|[]]. now left.
  - destruct (a =? k)%string.
    + intros [H|H]; [now left | right; now right].
    + intros [H|H]; [right; now left|]. destruct (IH H); [now left | right; now right].
Qed.

Lemma setitem_key_in d k v x :
  In x (map fst (WebexLogsClient.setitem d k v)) -> x = k \/ In x (map fst d).
Proof.
  intros H. apply in_map_iff in H as ([a b] & <- & I).
  apply setitem_in in I as [I|I].
  - left. now injection I.
  - right. apply in_map_iff. now exists (a, b).
Qed.

Lemma setitem_nodup d k v :
  NoDup (map fst d) -> NoDup (map fst (WebexLogsClient.setitem d k v)).
Proof.
  induction d as [|[a b] d IH]; cbn [WebexLogsClient.setitem map fst].
  - intros _. constructor; [intros [] | constructor].
  - intros N. inversion N as [|? ? Na Nd]; subst.
    destruct (a =? k)%string eqn:E.
    + apply String.eqb_eq in E. subst. cbn [map fst]. now constructor.
    + apply String.eqb_neq in E. cbn [map fst]. constructor; [|now apply IH].
      intros I. apply setitem_key_in in I as [I|I]; [congruence | contradiction].
Qed.

Lemma setitem_fresh d k v :
  ~ In k (map fst d) -> WebexLogsClient.setitem d k v = (d ++ [(k, v)])%list.
Proof.
  induction d as [|[a b] d IH]; cbn [WebexLogsClient.setitem map fst In app];
    [reflexivity|].
  intros N. destruct (a =? k)%string eqn:E.
  - apply String.eqb_eq in E. tauto.
  - rewrite IH; [reflexivity | tauto].
Qed.

(** One piece of the cookie string keeps the cookies well formed. *)
Lemma add_cookie_clean jar piece :
  lacks ";" piece = true ->
  NoDup (map fst jar) -> Forall cookie_pair jar ->
  exists jar', WebexLogsClient.add_cookie jar piece = Dyn.Done jar' /\
               NoDup (map fst jar') /\ Forall cookie_pair jar'.
Proof.
  intros L N F. unfold WebexLogsClient.add_cookie.
  destruct (Py.contains "=" (Py.strip piece)) eqn:C; [|eauto].
  destruct (split_once_found "=" _ C) as (a & b & -> & E & La).
  eexists. split; [reflexivity|]. split; [now apply setitem_nodup|].
  apply Forall_forall. intros [k' v'] I. apply setitem_in in I as [I|I];
    [|revert I; now apply Forall_forall].
  injection I as -> ->.
  assert (Ls : lacks ";" (Py.strip piece) = true) by now apply all_chars_strip.
  rewrite E, lacks_append in Ls. apply andb_true_iff in Ls as [L1 L2].
  unfold lacks in L2. apply all_chars_tail in L2.
  unfold cookie_pair. cbn [fst snd]. rewrite !strip_idem.
  repeat split; now apply all_chars_strip.
Qed.

Lemma add_cookies_clean : forall pieces jar,
  Forall (fun w => lacks ";" w = true) pieces ->
  NoDup (map fst jar) -> Forall cookie_pair jar ->
  exists jar', WebexLogsClient.add_cookies jar pieces = Dyn.Done jar' /\
               NoDup (map fst jar') /\ Forall cookie_pair jar'.
Proof.
  induction pieces as [|piece pieces IH]; intros jar L N F;
    cbn [WebexLogsClient.add_cookies]; [eauto|].
  inversion L as [|? ? Lp Ls]; subst.
  destruct (add_cookie_clean jar piece Lp N F) as (jar1 & -> & N1 & F1).
  cbn [Dyn.bind]. now apply IH.
Qed.


Lemma split_lacking sep a :
  lacks sep a = true -> WebexLogsClient.split sep a = [a].
Proof.
  unfold lacks. induction a as [|c a IH]; [reflexivity|].
  cbn [all_chars WebexLogsClient.split]. intros H.
  apply andb_true_iff in H as [Hc H]. apply negb_true_iff in Hc.
  now rewrite Hc, (IH H).
Qed.

Lemma split_join sep a b :
  lacks sep a = true ->
  WebexLogsClient.split sep (a ++ String sep b)
  = a :: WebexLogsClient.split sep b.
Proof.
  unfold lacks. induction a as [|c a IH].
  - intros _. cbn [append WebexLogsClient.split]. now rewrite Ascii.eqb_refl.
  - cbn [all_chars append WebexLogsClient.split]. intros H.
    apply andb_true_iff in H as [Hc H]. apply negb_true_iff in Hc.
    now rewrite Hc, (IH H).
Qed.

Lemma split_once_join sep a b :
  lacks sep a = true ->
  WebexLogsClient.split_once sep (a ++ String sep b) = [a; b].
Proof.
  unfold lacks. induction a as [|c a IH].
  - intros _. cbn [append WebexLogsClient.split_once]. now rewrite Ascii.eqb_refl.
  - cbn [all_chars append WebexLogsClient.split_once]. intros H.
    apply andb_true_iff in H as [Hc H]. apply negb_true_iff in Hc.
    now rewrite Hc, (IH H).
Qed.

Lemma strip_pair pad n v :
  all_chars Py.isspace pad = true ->
  Py.strip n = n -> Py.strip v = v ->
  Py.strip (pad ++ n ++ "=" ++ v) = n ++ "=" ++ v.
Proof.
  intros P Sn Sv. unfold Py.strip. rewrite (lstrip_blank_head pad _ P).
  assert (Rv : Py.rstrip ("=" ++ v) = "=" ++ v).
  { cbn [append Py.rstrip]. rewrite (stripped_rstrip v Sv). now destruct v. }
  assert (L : Py.lstrip (n ++ "=" ++ v) = n ++ "=" ++ v).
  { destruct (stripped_head n Sn) as [->|(c & t & -> & E)]; [reflexivity|].
    cbn [append Py.lstrip]. now rewrite E. }
  rewrite L, TextFacts.rstrip_append; rewrite Rv; [reflexivity | discriminate].
Qed.

Lemma add_cookie_pair jar pad n v :
  all_chars Py.isspace pad = true -> cookie_pair (n, v) ->
  ~ In n (map fst jar) ->
  WebexLogsClient.add_cookie jar (pad ++ n ++ "=" ++ v)
  = Dyn.Done (jar ++ [(n, v)])%list.
Proof.
  intros P (Sn & Sv & _ & Ln & _) N. cbn [fst snd] in *.
  unfold WebexLogsClient.add_cookie. rewrite (strip_pair pad n v P Sn Sv).
  assert (C : Py.contains "=" (n ++ "=" ++ v) = true).
  { apply contains_iff. now exists n, v. }
  rewrite C. change (n ++ "=" ++ v) with (n ++ String "=" v).
  rewrite (split_once_join "=" n v Ln), Sn, Sv. now rewrite setitem_fresh.
Qed.

Lemma cookie_header_nonempty pairs : pairs <> [] -> cookie_header pairs <> "".
Proof.
  destruct pairs as [|[n v] rest]; [congruence|]. intros _.
  cbn [cookie_header]. destruct rest, n; discriminate.
Qed.

Lemma add_header : forall pairs jar pad,
  pairs <> [] ->
  all_chars Py.isspace pad = true -> lacks ";" pad = true ->
  Forall cookie_pair pairs ->
  NoDup (map fst jar ++ map fst pairs) ->
  WebexLogsClient.add_cookies jar
    (WebexLogsClient.split ";" (pad ++ cookie_header pairs))
  = Dyn.Done (jar ++ pairs)%list.
Proof.
  induction pairs as [|[n v] rest IH]; intros jar pad NE P Lp F N; [congruence|].
  inversion F as [|? ? Hp F']; subst.
  assert (Hp' := Hp). destruct Hp' as (_ & _ & L1 & _ & L2). cbn [fst snd] in *.
  assert (Lpiece : lacks ";" (pad ++ n ++ "=" ++ v) = true).
  { rewrite !lacks_append, Lp, L1, L2. reflexivity. }
  assert (Nn : ~ In n (map fst jar)).
  { cbn [map fst] in N. apply NoDup_remove_2 in N. intros I. apply N.
    apply in_or_app. now left. }
  destruct rest as [|p2 rest].
  - cbn [cookie_header]. rewrite (split_lacking ";" _ Lpiece).
    cbn [WebexLogsClient.add_cookies].
    now rewrite (add_cookie_pair jar pad n v P Hp Nn).
  - assert (E : pad ++ cookie_header ((n, v) :: p2 :: rest)
                = (pad ++ n ++ "=" ++ v)
                    ++ String ";" (" " ++ cookie_header (p2 :: rest))).
    { cbn [cookie_header]. rewrite !append_assoc. reflexivity. }
    rewrite E, (split_join ";" _ _ Lpiece).
    cbn [WebexLogsClient.add_cookies].
    rewrite (add_cookie_pair jar pad n v P Hp Nn). cbn [Dyn.bind].
    rewrite (IH (jar ++ [(n, v)])%list " "); try reflexivity;
      [now rewrite <- app_assoc | discriminate | exact F' |].
    rewrite map_app, <- app_assoc. exact N.
Qed.


(** *** The patterns of the unsupported check *)

Lemma verb_object_pattern verb ws q :
  occurs (seq [lit verb; plus Py.isspace; RGroup (alts ws)]) q <->
  exists w, In w ws /\ verb_then verb w q.
Proof.
  split.
  - intros (pre & rest & c' & -> & St). split_steps.
    repeat match goal with
           | H : moved _ _ _ _ |- _ =>
               let R := fresh "R" in destruct H as (R & _ & _); simpl in R
           end.
    exists w. split; [assumption|]. exists pre, u, (c_rest c').
    repeat split; try assumption. now rewrite R1, R0, R.
  - intros (w & I & pre & sp & post & -> & N & A).
    exists pre, (verb ++ sp ++ w ++ post). eexists. split; [reflexivity|].
    cbn [seq fold_right].
    eapply StSeq; [apply steps_lit_run|].
    eapply StSeq; [apply steps_plus_run; assumption|].
    eapply StSeq; [apply StGroup, steps_alts_run; exact I|].
    constructor.
Qed.

Lemma verb_pattern verb q :
  occurs (seq [lit verb; plus Py.isspace]) q <-> verb_then verb "" q.
Proof.
  split.
  - intros (pre & rest & c' & -> & St). split_steps.
    repeat match goal with
           | H : moved _ _ _ _ |- _ =>
               let R := fresh "R" in destruct H as (R & _ & _); simpl in R
           end.
    exists pre, u, (c_rest c'). repeat split; try assumption.
    now rewrite R0, R.
  - intros (pre & sp & post & -> & N & A).
    exists pre, (verb ++ sp ++ post). eexists. split; [reflexivity|].
    cbn [seq fold_right].
    eapply StSeq; [apply steps_lit_run|].
    eapply StSeq; [apply steps_plus_run; assumption|].
    constructor.
Qed.

Lemma verb_then_verb verb object q : verb_then verb object q -> Substring verb q.
Proof. intros (pre & sp & post & -> & _). now exists pre, (sp ++ object ++ post). Qed.

Lemma verb_then_object verb object q :
  verb_then verb object q -> Substring object q.
Proof.
  intros (pre & sp & post & -> & _). exists (pre ++ verb ++ sp), post.
  now rewrite !append_assoc.
Qed.

Lemma essential_is_keyword kw :
  In kw essential_keywords -> In kw unsupported_keywords.
Proof.
  unfold essential_keywords, unsupported_keywords. cbn [In].
  intros H. repeat (destruct H as [<-|H]; [tauto|]). destruct H.
Qed.

Lemma keyword_has_essential kw q :
  In kw unsupported_keywords -> Substring kw q ->
  exists kw', In kw' essential_keywords /\ Substring kw' q.
Proof.
  intros I S.
  assert (C : In kw essential_keywords \/
              In kw ["mappings"; "reindex"; "aliases"]).
  { unfold unsupported_keywords, essential_keywords in *. cbn [In] in *.
    repeat (destruct I as [<-|I]; [tauto|]). destruct I. }
  destruct C as [C|C]; [eauto|].
  cbn [In] in C. destruct C as [<-|[<-|[<-|[]]]].
  - exists "mapping". split; [unfold essential_keywords; cbn [In]; tauto|].
    apply (Substring_trans _ "mappings"); [now exists "", "s" | exact S].
  - exists "index". split; [unfold essential_keywords; cbn [In]; tauto|].
    apply (Substring_trans _ "reindex"); [now exists "re", "" | exact S].
  - exists "alias". split; [unfold essential_keywords; cbn [In]; tauto|].
    apply (Substring_trans _ "aliases"); [now exists "", "es" | exact S].
Qed.

End ExtraFacts.

(** ** The words of a text *)

Module WordFacts.
Import Re ReSpec ReFacts NLQParser ExtractorFacts Expected ParserFacts Further
       ExtraFacts.

Lemma alpha_is_word a : alpha_char a = true -> Py.isword a = true.
Proof.
  destruct a as [[] [] [] [] [] [] [] []]; intros H;
    first [reflexivity | discriminate H].
Qed.

Lemma prev_after_letters r : forall a,
  alpha_char a = true -> all_chars alpha_char r = true ->
  is_word_opt (prev_after (Some a) r) = true.
Proof.
  induction r as [|b r IH]; intros a Ha A.
  - cbn. now apply alpha_is_word.
  - cbn [all_chars] in A. apply andb_true_iff in A as [Hb A].
    rewrite prev_after_cons. now apply IH.
Qed.

(** A text starts with a run of letters, which ends at the end of the text
    or before a character that is not a letter. *)
Lemma run_split s :
  exists r t, s = r ++ t /\ all_chars alpha_char r = true /\
              (t = "" \/ exists b t', t = String b t' /\ alpha_char b = false).
Proof.
  induction s as [|a s (r & t & E & A & T)].
  - exists "", "". auto.
  - destruct (alpha_char a) eqn:Ha.
    + exists (String a r), t. cbn [append all_chars]. rewrite Ha, A, E. auto.
    + exists "", (String a s). cbn [append all_chars].
      split; [reflexivity|]. split; [reflexivity|]. right. exists a, s. auto.
Qed.

(** Behind a word character the star over a run of letters either takes the
    whole run or fails: a continuation that wants a boundary finds none
    inside the run. *)
Lemma star_letters (K : cursor -> option cursor) :
  (forall pv b rest n g,
     is_word_opt pv = true -> Py.isword b = true ->
     K (Cursor pv (String b rest) n g) = None) ->
  forall r pv t n g,
    all_chars alpha_char r = true -> is_word_opt pv = true ->
    (t = "" \/ exists b t', t = String b t' /\ alpha_char b = false) ->
    star alpha_char K pv (r ++ t) n g
    = K (Cursor (prev_after pv r) t (n + String.length r) g).
Proof.
  intros HK. induction r as [|a r IH]; intros pv t n g A W T.
  - cbn [append String.length]. rewrite Nat.add_0_r.
    change (prev_after pv "") with pv.
    destruct T as [->|(b & t' & -> & Hb)]; cbn [star]; [reflexivity|].
    now rewrite Hb.
  - cbn [all_chars] in A. apply andb_true_iff in A as [Ha A].
    cbn [append star String.length]. rewrite Ha.
    rewrite (IH (Some a) t (S n) g A (alpha_is_word a Ha) T).
    rewrite prev_after_cons, <- plus_n_Sm. cbn [Nat.add].
    match goal with
    | |- match ?x with Some _ => _ | None => _ end = _ => destruct x
    end; [reflexivity|].
    apply HK; [exact W | now apply alpha_is_word].
Qed.

Lemma match_word_nil adv pv n : match_at word_pattern adv pv "" n = None.
Proof.
  unfold match_at, word_pattern.
  cbn [seq fold_right rmatch plus c_rest c_pos c_groups c_prev].
  now destruct (at_boundary _).
Qed.

Lemma match_word_not_letter adv pv a s n :
  alpha_char a = false -> match_at word_pattern adv pv (String a s) n = None.
Proof.
  intros Ha. unfold match_at, word_pattern.
  cbn [seq fold_right rmatch plus c_rest c_pos c_groups c_prev].
  rewrite Ha. now destruct (at_boundary _).
Qed.

Lemma match_word_after_word adv pv a s n :
  is_word_opt pv = true -> alpha_char a = true ->
  match_at word_pattern adv pv (String a s) n = None.
Proof.
  intros W Ha. unfold match_at, word_pattern.
  cbn [seq fold_right rmatch plus c_rest c_pos c_groups c_prev].
  unfold at_boundary at 1. cbn [c_prev c_rest next_char is_word_opt].
  rewrite W, (alpha_is_word a Ha). reflexivity.
Qed.

(** At a position after a character that is not a word character, a run of
    letters is a match exactly when no word character follows it. *)
Lemma match_word_start adv pv a r t n :
  is_word_opt pv = false -> alpha_char a = true ->
  all_chars alpha_char r = true ->
  (t = "" \/ exists b t', t = String b t' /\ alpha_char b = false) ->
  match_at word_pattern adv pv (String a (r ++ t)) n
  = if is_word_opt (next_char t) then None
    else Some (MkMatch n (S n + String.length r) (String a r) []).
Proof.
  intros W Ha A T. unfold match_at, word_pattern.
  cbn [seq fold_right rmatch plus c_rest c_pos c_groups c_prev].
  unfold at_boundary at 1. cbn [c_prev c_rest next_char is_word_opt].
  rewrite W, (alpha_is_word a Ha), Ha. cbn [xorb].
  match goal with
  | |- context [star alpha_char ?K _ _ _ _] =>
      rewrite (star_letters K); [|intros pv' b rest n' g Hp Hb| | |]
  end; try assumption; [| |now apply alpha_is_word].
  - unfold at_boundary. cbn [c_prev c_rest next_char is_word_opt].
    rewrite (prev_after_letters r a Ha A).
    destruct (is_word_opt (next_char t)); cbn [xorb negb]; [reflexivity|].
    unfold accept. cbn [c_pos c_groups].
    replace (S n + String.length r =? n)%nat with false
      by (symmetry; apply Nat.eqb_neq; lia).
    rewrite andb_false_r. cbn [c_pos c_groups].
    replace (S n + String.length r - n) with (String.length (String a r))
      by (cbn [String.length]; lia).
    change (String a (r ++ t)) with (String a r ++ t).
    now rewrite substring_append.
  - unfold at_boundary. cbn [c_prev c_rest next_char is_word_opt].
    now rewrite Hp, Hb.
Qed.

(** Skipping the characters of a match. *)
Lemma scan_skip r0 : forall u pv t n,
  scan r0 false (String.length u) pv (u ++ t) n
  = scan r0 false 0 (prev_after pv u) t (n + String.length u).
Proof.
  induction u as [|a u IH]; intros pv t n.
  - cbn [String.length append]. now rewrite Nat.add_0_r.
  - cbn [String.length append]. rewrite scan_inside, IH, prev_after_cons.
    now rewrite <- plus_n_Sm.
Qed.

Lemma words_over_run : forall r w t,
  all_chars alpha_char r = true ->
  words_from (Some w) true (r ++ t) = words_from (Some (w ++ r)) true t.
Proof.
  induction r as [|a r IH]; intros w t A.
  - cbn [append]. now rewrite append_nil_r.
  - cbn [all_chars] in A. apply andb_true_iff in A as [Ha A].
    cbn [append words_from]. rewrite Ha, (IH _ _ A), append_assoc. reflexivity.
Qed.

Lemma words_past_run : forall r t,
  all_chars alpha_char r = true ->
  words_from None true (r ++ t) = words_from None true t.
Proof.
  induction r as [|a r IH]; intros t A; [reflexivity|].
  cbn [all_chars] in A. apply andb_true_iff in A as [Ha A].
  cbn [append words_from]. rewrite Ha. now apply IH.
Qed.

(** The scan with the word pattern gives the words of the text. *)
Lemma scan_words : forall k s,
  String.length s <= k ->
  forall pv n,
    hit_texts (scan word_pattern false 0 pv s n)
    = words_from None (is_word_opt pv) s.
Proof.
  induction k as [|k IH]; intros s Len pv n.
  { destruct s; [|cbn [String.length] in Len; lia].
    now rewrite scan_end by apply match_word_nil. }
  destruct s as [|a s]; [now rewrite scan_end by apply match_word_nil|].
  cbn [String.length] in Len.
  destruct (alpha_char a) eqn:Ha.
  - destruct (is_word_opt pv) eqn:W.
    + rewrite scan_keep by now apply match_word_after_word.
      cbn [hit_texts words_from]. rewrite Ha, IH by lia.
      cbn [is_word_opt]. now rewrite (alpha_is_word a Ha).
    + destruct (run_split s) as (r & t & -> & A & T).
      pose proof (match_word_start false pv a r t n W Ha A T) as M.
      destruct (is_word_opt (next_char t)) eqn:Wn.
      * rewrite scan_keep by exact M.
        cbn [hit_texts words_from]. rewrite Ha, IH by lia.
        cbn [is_word_opt]. rewrite (alpha_is_word a Ha).
        rewrite (words_over_run r _ t A), (words_past_run r t A).
        destruct T as [->|(b & t' & -> & Hb)]; [discriminate Wn|].
        cbn [next_char is_word_opt] in Wn. cbn [words_from].
        now rewrite Hb, Wn.
      * rewrite (scan_hit _ _ _ _ _ _ (String.length r) M)
          by (cbn [m_end]; lia).
        cbn [hit_texts m_text]. rewrite scan_skip.
        rewrite length_append in Len. rewrite IH by lia.
        rewrite (prev_after_letters r a Ha A).
        cbn [words_from]. rewrite Ha, (words_over_run r _ t A).
        cbn [append].
        destruct T as [->|(b & t' & -> & Hb)]; [reflexivity|].
        cbn [next_char is_word_opt] in Wn. cbn [words_from].
        now rewrite Hb, Wn.
  - rewrite scan_keep by now apply match_word_not_letter.
    cbn [hit_texts words_from]. rewrite Ha, IH by lia.
    cbn [is_word_opt]. now destruct (Py.isword a).
Qed.

(** [re.findall(r'\b[a-zA-Z]+\b', s)] is the list of the words of [s]. *)
Lemma findall_words s : findall word_pattern s = words s.
Proof. unfold findall, words. now apply (scan_words (String.length s)). Qed.

(** A lower-case word does not start with a digit. *)
Lemma lower_word_no_digits w :
  all_chars Py.islower_ascii w = true ->
  match_ digits_pattern w = None.
Proof.
  intros L. unfold match_, match_at, digits_pattern.
  cbn [plus rmatch c_rest c_pos c_groups c_prev].
  destruct w as [|c w]; [reflexivity|].
  cbn [all_chars] in L. apply andb_true_iff in L as [Lc _].
  replace (Py.isdecimal c) with false; [reflexivity|].
  symmetry. revert Lc. clear.
  destruct c as [[] [] [] [] [] [] [] []]; intros H;
    first [reflexivity | discriminate H].
Qed.

(** The search terms are the words of the cleaned text that are not stop
    words and have more than two letters. *)
Lemma search_terms_pinned q :
  _extract_search_terms q = filter surviving (words (cleaned_text q)).
Proof.
  unfold _extract_search_terms. fold (cleaned_text q).
  rewrite <- findall_words. apply filter_ext_in. intros w I.
  pose proof (cleaned_words_lower q w I) as L.
  unfold keep_word, surviving.
  now rewrite (TextFacts.lower_lower w L), (lower_word_no_digits w L), andb_true_r.
Qed.

End WordFacts.


(** ** The claims *)

Module Claims.
Import Re ReSpec ReFacts NLQParser ExtractorFacts Expected ParserFacts.

(** C1.  Whenever the utterance contains one of the unsupported keywords as
    a substring, as it is given or after normalization, or one of the
    mutating-verb patterns occurs in the normalized utterance, [parse]
    returns the fixed error payload, whatever else the utterance holds: the
    check comes before the cluster, cat and search branches. *)
Theorem unsupported_query_rejected (lg : Logger) (u : string) :
  (exists kw, In kw unsupported_keywords /\ Substring kw u) \/
  (exists kw, In kw unsupported_keywords /\ Substring kw (normalize u)) \/
  (exists p, In p modify_patterns /\ occurs p (normalize u)) ->
  fst (parse (parser lg) u)
  = dq "{'error':'Unsupported query. Please rephrase or check available APIs.'}".
Proof.
  intros H.
  assert (U : _is_unsupported_query (normalize u) = true).
  { apply unsupported_iff. destruct H as [(kw & I & S) | [H | (p & I & O)]].
    - left. exists kw. split; [exact I|].
      apply TextFacts.normalize_keeps_word; [| |exact S];
        unfold unsupported_keywords in I; cbn [In] in I;
        repeat (destruct I as [<-|I]; [discriminate || reflexivity|]);
        destruct I.
    - now left.
    - right. exists p. split; [exact I | now apply search_iff]. }
  rewrite parse_output. unfold _parse_to_dict.
  unfold normalize in U. rewrite U. reflexivity.
Qed.

Lemma unsupported_query_rejected_witness :
  fst (parse (parser (MkLogger false []))
             "create a new index with custom mappings")
  = dq "{'error':'Unsupported query. Please rephrase or check available APIs.'}".
Proof.
  apply unsupported_query_rejected. left. exists "create".
  split; [cbn; tauto|]. exists "", " a new index with custom mappings".
  reflexivity.
Defined.

(** A phrase caught by a pattern only: no keyword occurs in "add field". *)
Example add_field_rejected :
  existsb (fun kw => Py.contains kw "add field") unsupported_keywords = false /\
  occurs (seq [lit "add"; plus Py.isspace;
               RGroup (alts ["field"; "mapping"; "alias"])])
         (normalize "Please ADD  Field") /\
  fst (parse (parser (MkLogger true [])) "Please ADD  Field")
  = dq "{'error':'Unsupported query. Please rephrase or check available APIs.'}".
Proof.
  split; [vm_compute; reflexivity|]. split; [|vm_compute; reflexivity].
  apply search_iff. vm_compute. discriminate.
Qed.

(** The patterns are looked for after normalization: the white space that
    "modify\s+" needs is stripped from the end of "modify ", which is then
    searched as a plain term. *)
Example trailing_space_is_stripped :
  search (seq [lit "modify"; plus Py.isspace]) "modify " <> None /\
  search (seq [lit "modify"; plus Py.isspace]) (normalize "modify ") = None /\
  fst (parse (parser (MkLogger false [])) "modify ")
  = dq "{'size':50,'sort':[{'@timestamp':'desc'}],'query':{'bool':{'must':[{'match':{'_all':'modify'}}]}}}".
Proof. repeat split; try (vm_compute; reflexivity). vm_compute. discriminate. Qed.

(** C2.  For a search-intent utterance the must list is made of the log-level
    clause (if any), then the service-name clause (if any), then the
    time-range clause (if any), then one match clause per search term.  The
    search terms are the words of the cleaned text, from left to right and
    with their repetitions, that are not stop words and have more than two
    letters; they stand in the cleaned text one after the other.  There is no
    must list in one case only: the size
    capture has more than 4300 digits, [int] raises and [_parse_to_dict] with
    it.  The utterance of the end-to-end scenario gives exactly the three
    clauses, size 50 and the fixed sort. *)
Theorem must_clauses_in_fixed_order (lg : Logger) (u : string) :
  (search_intent (normalize u) ->
   exists service time,
     _extract_service_name (normalize u) = Py.Ok service /\
     _extract_time_range (parser lg) (normalize u) = Py.Ok time /\
     _extract_search_terms (normalize u)
     = filter surviving (words (cleaned_text (normalize u))) /\
     occur_in_order (_extract_search_terms (normalize u))
                    (cleaned_text (normalize u)) /\
     ((exists size,
         _parse_to_dict (parser lg) u
         = Py.Ok (search_dict size
                    (query_of (opt_list (option_map level_clause
                                           (_extract_log_level (normalize u)))
                               ++ opt_list (option_map service_clause service)
                               ++ opt_list time
                               ++ map term_clause
                                      (_extract_search_terms (normalize u)))%list)))
      \/
      (exists digits,
         Py.too_long digits = true /\
         _extract_size (normalize u) = Py.Raise (Py.ValueError digits) /\
         _parse_to_dict (parser lg) u = Py.Raise (Py.ValueError digits))))
  /\
  fst (parse (parser lg)
         "I want to get details of errors in last 5 minutes for checkout-service")
  = dq "{'size':50,'sort':[{'@timestamp':'desc'}],'query':{'bool':{'must':[{'match':{'log.level':'error'}},{'match':{'service.name':'checkout-service'}},{'range':{'@timestamp':{'gte':'now-5m'}}}]}}}".
Proof.
  split.
  - intros SI.
    destruct (search_dict_of_facets lg u SI) as (service & time & Es & Et & _ & E).
    exists service, time. repeat (split; [assumption|]).
    split; [apply WordFacts.search_terms_pinned|]. split.
    { unfold _extract_search_terms, cleaned_text.
      apply occur_filter, findall_in_order. }
    destruct (extract_size_ok (normalize u)) as [[size [Ez _]]|[digits [Ez L]]];
      rewrite Ez in E; cbn [Py.bind] in E.
    + left. eexists. exact E.
    + right. exists digits. auto.
  - rewrite parse_output.
    rewrite (parse_to_dict_builder _ (__init__ false)) by reflexivity.
    vm_compute. reflexivity.
Qed.

Lemma must_clauses_in_fixed_order_witness :
  exists size,
    _parse_to_dict (parser (MkLogger false []))
                   "Database timeout yesterday in payment service"
    = Py.Ok (search_dict size
               (bool_must [service_clause "payment"; yesterday_clause;
                           term_clause "database"; term_clause "timeout"])).
Proof.
  destruct (must_clauses_in_fixed_order (MkLogger false [])
              "Database timeout yesterday in payment service") as [H _].
  destruct H
    as (service & time & Es & Et & _ & _ & [[size E]|(digits & _ & Ez & _)]).
  - repeat split; vm_compute; reflexivity.
  - exists size. rewrite E.
    vm_compute in Es. injection Es as <-.
    vm_compute in Et. injection Et as <-.
    vm_compute. reflexivity.
  - vm_compute in Ez. discriminate Ez.
Defined.

(** C3.  [build_time_range] tries the "last N unit" pattern first: when the
    lower-cased text holds "last", white space, digits, white space and a unit
    of the synonym table, the result is the clause with lower bound "now-",
    the digits of such an occurrence and the short code of its unit (m, h, d,
    w, M, y).  When the text has no such shape, "today" in it gives the lower
    bound "now/d", otherwise "yesterday" in it gives the pair of bounds
    "now-1d/d" and "now/d", otherwise there is no clause. *)
Theorem time_range_extraction (self : OpenSearchQueryBuilder.t)
        (time_spec : string) :
  ((exists pre ws1 amount ws2 unit post,
      Py.lower time_spec
      = pre ++ "last" ++ ws1 ++ amount ++ ws2 ++ unit ++ post /\
      ws1 <> "" /\ all_chars Py.isspace ws1 = true /\
      amount <> "" /\ all_chars Py.isdecimal amount = true /\
      ws2 <> "" /\ all_chars Py.isspace ws2 = true /\
      In unit OpenSearchQueryBuilder.time_units /\
      In (unit_code unit) ["m"; "h"; "d"; "w"; "M"; "y"] /\
      OpenSearchQueryBuilder.build_time_range self time_spec
      = Py.Ok (Some (gte_clause ("now-" ++ amount ++ unit_code unit))))
   \/
   (~ last_shape (Py.lower time_spec) /\
    OpenSearchQueryBuilder.build_time_range self time_spec
    = Py.Ok (if Py.contains "today" (Py.lower time_spec)
             then Some (gte_clause "now/d")
             else if Py.contains "yesterday" (Py.lower time_spec)
                  then Some yesterday_clause
                  else None)))
  /\ OpenSearchQueryBuilder.build_time_range self "last 5 minutes"
     = Py.Ok (Some (gte_clause "now-5m"))
  /\ OpenSearchQueryBuilder.build_time_range self "last 2 hours"
     = Py.Ok (Some (gte_clause "now-2h"))
  /\ OpenSearchQueryBuilder.build_time_range self "last 3 months"
     = Py.Ok (Some (gte_clause "now-3M"))
  /\ OpenSearchQueryBuilder.build_time_range self "today"
     = Py.Ok (Some (gte_clause "now/d"))
  /\ OpenSearchQueryBuilder.build_time_range self "yesterday"
     = Py.Ok (Some yesterday_clause)
  /\ OpenSearchQueryBuilder.build_time_range self "tomorrow" = Py.Ok None
  /\ dumps_compact (gte_clause "now-5m")
     = dq "{'range':{'@timestamp':{'gte':'now-5m'}}}"
  /\ dumps_compact (gte_clause "now/d")
     = dq "{'range':{'@timestamp':{'gte':'now/d'}}}"
  /\ dumps_compact yesterday_clause
     = dq "{'range':{'@timestamp':{'gte':'now-1d/d','lt':'now/d'}}}".
Proof.
  split; [|repeat split; vm_compute; reflexivity].
  unfold OpenSearchQueryBuilder.build_time_range.
  destruct (search _ _) as [m|] eqn:E.
  - left. apply last_pattern_match in E
      as (pre & ws1 & amount & ws2 & unit & post & Es & ? & ? & ? & ? & ? & ? & I & G).
    exists pre, ws1, amount, ws2, unit, post.
    repeat (split; [assumption|]).
    destruct (time_map_total unit I) as (code & Ec & Ic).
    rewrite (time_map_unit_code unit I) in Ec. injection Ec as <-.
    split; [exact Ic|].
    unfold group. rewrite G. cbn [nth_error Py.bind].
    rewrite (time_map_unit_code unit I). reflexivity.
  - right. split.
    + intros L. apply last_pattern_iff in L. congruence.
    + destruct (Py.contains "today" _); [reflexivity|].
      destruct (Py.contains "yesterday" _); reflexivity.
Qed.

(** C4.  [parse] returns a text for every input: the compact serialization
    of the dictionary when [_parse_to_dict] returns one, and the fixed error
    payload, serialized with the default separators, when [_parse_to_dict]
    raises. *)
Theorem parse_never_raises (self : NLQParser.t) (u : string) :
  (exists d, _parse_to_dict self u = Py.Ok d /\
             fst (parse self u) = dumps_compact d) \/
  (exists e, _parse_to_dict self u = Py.Raise e /\
             fst (parse self u)
             = dq "{'error': 'Unsupported query. Please rephrase or check available APIs.'}").
Proof.
  rewrite parse_output. destruct (_parse_to_dict self u) as [d|e].
  - left. now exists d.
  - right. now exists e.
Qed.

(** C5, as stated, fails: "show shards" is answered with an error dictionary
    whose message is not the message of the unsupported check. *)
Lemma sole_error_message_counterexample :
  _parse_to_dict (__init__ false) "show shards"
  = Py.Ok (error_dict "Unsupported cluster query. Please rephrase or check available APIs.")
  /\ fst (parse (__init__ false) "show shards")
     = dq "{'error':'Unsupported cluster query. Please rephrase or check available APIs.'}"
  /\ "Unsupported cluster query. Please rephrase or check available APIs."
     <> UNSUPPORTED_MESSAGE.
Proof. repeat split; try (vm_compute; reflexivity). discriminate. Qed.

(** C5, amended.  Every output that is an error object is one of four fixed
    texts: the message of the unsupported check, the message of an unresolved
    cluster request or the message of an unresolved cat request, written
    compactly, or the message of the unsupported check written with the
    default separators, which is what [parse] returns when it catches an
    exception.  The last one is only returned for a search-intent utterance
    whose size capture has more than 4300 digits, and "top", 4301 zeros,
    "errors" is such an utterance. *)
Theorem error_text_is_one_of_four (self : NLQParser.t) (lg : Logger)
        (u : string) :
  (prefix (dq "{'error'") (fst (parse self u)) = true ->
   In (fst (parse self u)) error_outputs) /\
  (fst (parse self u) = caught_error_text ->
   search_intent (normalize u) /\
   exists digits,
     Py.too_long digits = true /\
     _extract_size (normalize u) = Py.Raise (Py.ValueError digits)) /\
  fst (parse (parser lg) (top_errors zeros_4301)) = caught_error_text.
Proof.
  split; [|split].
  - destruct (parse_cases self u) as [[d [E ->]]|(digits & _ & _ & _ & ->)];
      [|intros _; vm_compute; auto 6].
    apply parse_to_dict_shape in E
      as [[msg [I ->]] | [[path [I ->]] | [n [query ->]]]]; intros P.
    + cbn [In] in I. unfold error_outputs, error_texts.
      destruct I as [<-|[<-|[<-|[]]]]; vm_compute; auto.
    + cbn [In] in I. destruct I as [<-|[<-|[<-|[]]]]; vm_compute in P; discriminate.
    + vm_compute in P. discriminate.
  - intros T.
    destruct (parse_cases self u) as [[d [E D]]|(digits & L & SI & Ez & _)].
    + exfalso. rewrite D in T. clear D.
      apply parse_to_dict_shape in E
        as [[msg [I ->]] | [[path [I ->]] | [n [query ->]]]].
      * cbn [In] in I. destruct I as [<-|[<-|[<-|[]]]]; vm_compute in T; discriminate.
      * cbn [In] in I. destruct I as [<-|[<-|[<-|[]]]]; vm_compute in T; discriminate.
      * vm_compute in T. discriminate.
    + split; [exact SI | exists digits; auto].
  - destruct (TopErrors.top_errors_overlong lg zeros_4301) as [_ H];
      [vm_compute; discriminate | vm_compute; reflexivity
      | vm_compute; reflexivity |].
    rewrite H. reflexivity.
Qed.

Lemma error_text_is_one_of_four_witness :
  In (fst (parse (__init__ false) "cat foo")) error_outputs.
Proof.
  destruct (error_text_is_one_of_four (__init__ false) (MkLogger false [])
                                      "cat foo") as (H & _).
  apply H. vm_compute. reflexivity.
Defined.

(** C6.  When the unsupported, cluster and cat checks do not fire and no
    extractor finds anything, [parse] returns the match-all query with the
    default size and the fixed sort. *)
Theorem no_facet_gives_match_all (lg : Logger) (u : string) :
  search_intent (normalize u) ->
  _extract_log_level (normalize u) = None ->
  _extract_service_name (normalize u) = Py.Ok None ->
  _extract_time_range (parser lg) (normalize u) = Py.Ok None ->
  _extract_search_terms (normalize u) = [] ->
  _extract_size (normalize u) = Py.Ok None ->
  fst (parse (parser lg) u)
  = dq "{'size':50,'sort':[{'@timestamp':'desc'}],'query':{'match_all':{}}}".
Proof.
  unfold normalize. intros (U & Cl & Ca) L Sv T W Sz.
  rewrite parse_output. unfold _parse_to_dict.
  rewrite U, Cl, Ca, L, Sv. cbn [Py.bind]. rewrite T. cbn [Py.bind].
  rewrite W, Sz. reflexivity.
Qed.

Lemma no_facet_gives_match_all_witness :
  fst (parse (parser (MkLogger false [])) "Get the logs")
  = dq "{'size':50,'sort':[{'@timestamp':'desc'}],'query':{'match_all':{}}}".
Proof.
  apply no_facet_gives_match_all;
    try (repeat split); vm_compute; reflexivity.
Defined.

(** C7, as stated, fails: 10^4300 is a positive integer, its decimal text
    has 4301 digits, and "top", that text, "errors" is answered with the text
    of a caught exception, not with a size. *)
Lemma size_round_trip_counterexample :
  (0 < 10 ^ 4300)%Z /\
  _parse_to_dict (parser (MkLogger false []))
                 ("top " ++ Py.str_of_int (10 ^ 4300) ++ " errors")
  = Py.Raise (Py.ValueError (Py.str_of_int (10 ^ 4300))) /\
  fst (parse (parser (MkLogger false []))
             ("top " ++ Py.str_of_int (10 ^ 4300) ++ " errors"))
  = dq "{'error': 'Unsupported query. Please rephrase or check available APIs.'}".
Proof.
  assert (P : (0 < 10 ^ 4300)%Z) by (apply Z.pow_pos_nonneg; lia).
  split; [exact P|].
  destruct (str_of_int_positive _ P) as (Ne & D & _).
  apply (TopErrors.top_errors_overlong (MkLogger false []) _ Ne D).
  vm_compute. reflexivity.
Qed.

(** C7, amended.  The size patterns are tried in the order "show N results",
    "limit N", "top N", "first N": the first of them, in that order, that is
    found in the utterance decides, whatever stands earlier in the text.  A
    capture of at most 4300 digits gives the size, and a positive size
    replaces the default; a longer capture makes [int] raise, and [parse]
    returns the text of a caught exception.  For every positive integer N
    whose decimal text has at most 4300 digits the utterance "top N errors"
    is answered with size N, for every longer N with that error text, and a
    search-intent utterance without size pattern with size 50. *)
Theorem size_extraction (lg : Logger) (u : string) (N : Z) :
  (search_intent (normalize u) ->
   forall before p after m,
     size_patterns = (before ++ p :: after)%list ->
     Forall (fun p' => search p' (normalize u) = None) before ->
     search p (normalize u) = Some m ->
     exists digits,
       m_groups m = [digits] /\
       (Py.too_long digits = false ->
        exists n query,
          Py.int digits = Py.Ok n /\
          _extract_size (normalize u) = Py.Ok (Some n) /\
          ((0 < n)%Z ->
           _parse_to_dict (parser lg) u = Py.Ok (search_dict n query))) /\
       (Py.too_long digits = true ->
        _extract_size (normalize u) = Py.Raise (Py.ValueError digits) /\
        fst (parse (parser lg) u) = caught_error_text))
  /\ _extract_size "show 10 results limit 20 top 30 first 40" = Py.Ok (Some 10%Z)
  /\ _extract_size "first 40 top 30 limit 20" = Py.Ok (Some 20%Z)
  /\ _extract_size "first 40 top 30" = Py.Ok (Some 30%Z)
  /\ _extract_size "first 40" = Py.Ok (Some 40%Z)
  /\ ((0 < N)%Z -> Py.too_long (Py.str_of_int N) = false ->
      fst (parse (parser lg) ("top " ++ Py.str_of_int N ++ " errors"))
      = dq "{'size':" ++ Py.str_of_int N
        ++ dq ",'sort':[{'@timestamp':'desc'}],'query':{'bool':{'must':[{'match':{'log.level':'error'}}]}}}")
  /\ ((0 < N)%Z -> Py.too_long (Py.str_of_int N) = true ->
      fst (parse (parser lg) ("top " ++ Py.str_of_int N ++ " errors"))
      = caught_error_text)
  /\ (search_intent (normalize u) ->
      _extract_size (normalize u) = Py.Ok None ->
      exists query, _parse_to_dict (parser lg) u = Py.Ok (search_dict 50 query)).
Proof.
  split; [|split; [|split; [|split; [|split; [|split; [|split]]]]]].
  2-5: vm_compute; reflexivity.
  - intros SI before p after m E F H.
    destruct (first_size_pattern _ _ _ _ _ E F H)
      as (digits & G & _ & _ & C).
    destruct (search_dict_of_facets lg u SI) as (service & time & _ & _ & _ & D).
    exists digits. split; [exact G|].
    destruct C as [(L & n & En & _ & Ez)|(L & _ & Ez)];
      rewrite Ez in D; cbn [Py.bind] in D; (split; intros L'; [|]);
      try congruence.
    + exists n. eexists. repeat (split; [eassumption|]).
      intros P. rewrite D. destruct n; try lia. reflexivity.
    + split; [exact Ez|]. rewrite parse_output, D. reflexivity.
  - apply TopErrors.top_errors_parse.
  - intros P L. destruct (str_of_int_positive N P) as (Ne & D & _).
    destruct (TopErrors.top_errors_overlong lg _ Ne D L) as [_ T].
    exact T.
  - intros SI Ez.
    destruct (search_dict_of_facets lg u SI) as (service & time & _ & _ & _ & D).
    rewrite Ez in D. eexists. exact D.
Qed.

Lemma size_extraction_witness :
  fst (parse (parser (MkLogger false [])) "top 100 errors")
  = dq "{'size':100,'sort':[{'@timestamp':'desc'}],'query':{'bool':{'must':[{'match':{'log.level':'error'}}]}}}"
  /\ (exists query,
        _parse_to_dict (parser (MkLogger false [])) "Top 9 Limit 7"
        = Py.Ok (search_dict 7 query))
  /\ (exists query,
        _parse_to_dict (parser (MkLogger false [])) "errors today"
        = Py.Ok (search_dict 50 query)).
Proof.
  split; [|split].
  - destruct (size_extraction (MkLogger false []) "" 100)
      as (_ & _ & _ & _ & _ & H & _).
    apply H; reflexivity.
  - destruct (size_extraction (MkLogger false []) "Top 9 Limit 7" 1) as (H & _).
    destruct (H ltac:(repeat split; vm_compute; reflexivity)
                [Re.seq [Re.lit "show"; Re.plus Py.isspace;
                         Re.RGroup (Re.plus Py.isdecimal);
                         Re.plus Py.isspace; Re.lit "result";
                         Re.opt (Re.chr "s")]]
                (Re.seq [Re.lit "limit"; Re.plus Py.isspace;
                         Re.RGroup (Re.plus Py.isdecimal)])
                [Re.seq [Re.lit "top"; Re.plus Py.isspace;
                         Re.RGroup (Re.plus Py.isdecimal)];
                 Re.seq [Re.lit "first"; Re.plus Py.isspace;
                         Re.RGroup (Re.plus Py.isdecimal)]]
                (MkMatch 6 13 "limit 7" ["7"]))
      as (digits & G & Short & _).
    + reflexivity.
    + constructor; [vm_compute; reflexivity | constructor].
    + vm_compute. reflexivity.
    + cbn [m_groups] in G. injection G as <-.
      destruct (Short eq_refl) as (n & query & En & _ & D).
      exists query. vm_compute in En. injection En as <-. apply D. reflexivity.
  - destruct (size_extraction (MkLogger false []) "errors today" 1)
      as (_ & _ & _ & _ & _ & _ & _ & H).
    apply H; [repeat split|]; vm_compute; reflexivity.
Defined.

(** C8.  The text [parse] returns depends on the input only: whatever calls
    were made before, on parsers built with or without logging, the same
    string gives the same text; in particular two successive calls on one
    parser. *)
Theorem parse_deterministic (b1 b2 : bool) (calls1 calls2 : list string)
        (u : string) :
  fst (parse (run (__init__ b1) calls1) u)
  = fst (parse (run (__init__ b2) calls2) u)
  /\ fst (parse (snd (parse (run (__init__ b1) calls1) u)) u)
     = fst (parse (run (__init__ b1) calls1) u).
Proof.
  split.
  - rewrite !parse_output.
    rewrite (parse_to_dict_builder (run (__init__ b1) calls1)
                                   (run (__init__ b2) calls2)); [reflexivity|].
    now rewrite !run_query_builder.
  - rewrite !parse_output.
    rewrite (parse_to_dict_builder (snd (parse (run (__init__ b1) calls1) u))
                                   (run (__init__ b1) calls1)); [reflexivity|].
    apply parse_query_builder.
Qed.

(** C9.  No input makes [parse] return the cat-shards call: the branch of
    [_handle_cat_query] that builds it needs "shards" in the utterance, and
    such an utterance contains "shard", so the cluster check, which comes
    first, takes it; past the unsupported check it is answered with the
    cluster health call, the cat nodes call or the cluster error. *)
Theorem cat_shards_unreachable (self : NLQParser.t) (u : string) :
  fst (parse self u) <> dq "{'api':'_cat/shards?v'}" /\
  _parse_to_dict self u <> Py.Ok (api_dict "_cat/shards?v") /\
  (Substring "shards" (normalize u) ->
   _is_cluster_query (normalize u) = true /\
   (_is_unsupported_query (normalize u) = false ->
    In (fst (parse self u))
       [dq "{'api':'_cluster/health'}"; dq "{'api':'_cat/nodes?v'}";
        dq "{'error':'Unsupported cluster query. Please rephrase or check available APIs.'}"])).
Proof.
  assert (D : _parse_to_dict self u <> Py.Ok (api_dict "_cat/shards?v")).
  { intros E. apply parse_to_dict_shape in E
      as [[msg [I E]] | [[path [I E]] | [n [query E]]]].
    - discriminate.
    - injection E as <-. cbn [In] in I.
      destruct I as [E|[E|[E|[]]]]; discriminate.
    - discriminate. }
  split; [|split; [exact D|]].
  - destruct (parse_cases self u) as [[d [E ->]]|(digits & _ & _ & _ & ->)];
      [|vm_compute; discriminate].
    apply parse_to_dict_shape in E
      as [[msg [I ->]] | [[path [I ->]] | [n [query ->]]]].
    + cbn [In] in I. destruct I as [<-|[<-|[<-|[]]]]; vm_compute; discriminate.
    + cbn [In] in I. destruct I as [<-|[<-|[<-|[]]]]; vm_compute; discriminate.
    + intros P. vm_compute in P. discriminate.
  - intros Sh. apply contains_iff in Sh. apply shards_is_cluster in Sh.
    split; [exact Sh|]. intros U.
    rewrite parse_output. unfold _parse_to_dict. unfold normalize in *.
    rewrite U, Sh. unfold _handle_cluster_query.
    destruct (_ || _); [vm_compute; auto|].
    destruct (Py.contains "node" _); vm_compute; auto.
Qed.

Lemma cat_shards_unreachable_witness :
  _is_cluster_query (normalize "List Shards") = true /\
  In (fst (parse (__init__ false) "List Shards"))
     [dq "{'api':'_cluster/health'}"; dq "{'api':'_cat/nodes?v'}";
      dq "{'error':'Unsupported cluster query. Please rephrase or check available APIs.'}"].
Proof.
  destruct (cat_shards_unreachable (__init__ false) "List Shards") as (_ & _ & H).
  destruct H as [C R].
  - exists "list ", "". vm_compute. reflexivity.
  - split; [exact C|]. apply R. vm_compute. reflexivity.
Defined.

(** C10, as stated, fails: in "top", 4301 zeros, "errors" the size pattern
    captures a text of zeros, and the answer is not a query of size 50 but the
    text of a caught exception: [int] refuses the capture before it is
    compared with 0. *)
Lemma zero_capture_counterexample :
  search_intent (normalize (top_errors zeros_4301)) /\
  search (seq [lit "top"; plus Py.isspace; RGroup (plus Py.isdecimal)])
         (normalize (top_errors zeros_4301))
  = Some (MkMatch 0 4305 ("top " ++ zeros_4301) [zeros_4301]) /\
  all_chars (Ascii.eqb "0") zeros_4301 = true /\
  _parse_to_dict (parser (MkLogger false [])) (top_errors zeros_4301)
  = Py.Raise (Py.ValueError zeros_4301) /\
  fst (parse (parser (MkLogger false [])) (top_errors zeros_4301))
  = dq "{'error': 'Unsupported query. Please rephrase or check available APIs.'}".
Proof.
  assert (Ne : zeros_4301 <> "") by (vm_compute; discriminate).
  assert (D : all_chars Py.isdecimal zeros_4301 = true)
    by (vm_compute; reflexivity).
  split; [|split; [|split]].
  - rewrite (TextFacts.normalize_top_errors _ D).
    exact (conj (TopErrors.top_errors_not_unsupported _ Ne D)
             (conj (TopErrors.top_errors_not_cluster _ Ne D)
                   (TopErrors.top_errors_not_cat _ Ne D))).
  - rewrite (TextFacts.normalize_top_errors _ D).
    rewrite (TopErrors.top_pattern_match _ Ne D). f_equal.
  - vm_compute. reflexivity.
  - apply (TopErrors.top_errors_overlong (MkLogger false []) _ Ne D).
    vm_compute. reflexivity.
Qed.

(** C10, amended.  For a search-intent utterance whose deciding size pattern
    captures a run of at most 4300 zeros the size is extracted as 0 and the
    dictionary has size 50, and every dictionary built for a search-intent
    utterance has size 50 or a positive integer that a size pattern captured;
    "top", a run of at most 4300 zeros, "errors" and "limit 0" give size 50.
    No dictionary is built when the capture has more than 4300 digits. *)
Theorem zero_size_keeps_default (lg : Logger) (u zeros : string) :
  (search_intent (normalize u) ->
   forall before p after m,
     size_patterns = (before ++ p :: after)%list ->
     Forall (fun p' => search p' (normalize u) = None) before ->
     search p (normalize u) = Some m ->
     m_groups m = [zeros] ->
     all_chars (Ascii.eqb "0") zeros = true -> Py.too_long zeros = false ->
     _extract_size (normalize u) = Py.Ok (Some 0%Z))
  /\
  (search_intent (normalize u) ->
   _extract_size (normalize u) = Py.Ok (Some 0%Z) ->
   exists query, _parse_to_dict (parser lg) u = Py.Ok (search_dict 50 query))
  /\
  (search_intent (normalize u) ->
   forall d, _parse_to_dict (parser lg) u = Py.Ok d ->
   exists size query,
     d = search_dict size query /\
     (size = 50%Z \/
      ((0 < size)%Z /\ _extract_size (normalize u) = Py.Ok (Some size))))
  /\
  (zeros <> "" -> all_chars (Ascii.eqb "0") zeros = true ->
   Py.too_long zeros = false ->
   fst (parse (parser lg) (top_errors zeros))
   = dq "{'size':50,'sort':[{'@timestamp':'desc'}],'query':{'bool':{'must':[{'match':{'log.level':'error'}}]}}}")
  /\ fst (parse (parser lg) "limit 0")
     = dq "{'size':50,'sort':[{'@timestamp':'desc'}],'query':{'match_all':{}}}".
Proof.
  split; [|split; [|split; [|split]]].
  - intros SI before p after m E F H G Z L.
    destruct (first_size_pattern _ _ _ _ _ E F H)
      as (digits & G' & Ne & _ & C).
    rewrite G in G'. injection G' as <-.
    destruct C as [(_ & n & En & _ & Ez)|(L' & _)]; [|congruence].
    rewrite (int_zeros zeros Ne Z L) in En. injection En as <-. exact Ez.
  - intros SI Ez.
    destruct (search_dict_of_facets lg u SI) as (service & time & _ & _ & _ & E).
    rewrite Ez in E. eexists. exact E.
  - intros SI d Ed.
    destruct (search_dict_of_facets lg u SI) as (service & time & _ & _ & _ & E).
    rewrite Ed in E.
    destruct (extract_size_ok (normalize u)) as [[size [Ez Pz]]|[digits [Ez L]]];
      rewrite Ez in E; cbn [Py.bind] in E; [|discriminate E].
    injection E as ->. eexists _, _. split; [reflexivity|].
    destruct size as [n|]; [|now left].
    destruct n as [|n|n]; cbn [truthy_int].
    + now left.
    + right. split; [lia | exact Ez].
    + specialize (Pz _ eq_refl). lia.
  - intros Ne Z L.
    assert (D : all_chars Py.isdecimal zeros = true).
    { revert Z. apply TextFacts.all_chars_impl. intros a H.
      apply Ascii.eqb_eq in H. now subst. }
    rewrite parse_output, (TopErrors.top_errors_dict _ Ne D).
    rewrite (int_zeros zeros Ne Z L). reflexivity.
  - rewrite parse_output;
      rewrite (parse_to_dict_builder _ (__init__ false)) by reflexivity;
      vm_compute; reflexivity.
Qed.

Lemma zero_size_keeps_default_witness :
  (exists query,
     _parse_to_dict (parser (MkLogger false [])) "First 0 warnings"
     = Py.Ok (search_dict 50 query)) /\
  fst (parse (parser (MkLogger false [])) (top_errors "000"))
  = dq "{'size':50,'sort':[{'@timestamp':'desc'}],'query':{'bool':{'must':[{'match':{'log.level':'error'}}]}}}".
Proof.
  destruct (zero_size_keeps_default (MkLogger false []) "First 0 warnings" "000")
    as (_ & H & _ & T & _).
  split.
  - apply H; [repeat split|]; vm_compute; reflexivity.
  - apply T; [discriminate | reflexivity | reflexivity].
Defined.

End Claims.

(** ** Further properties *)

Module Extras.
Import Re ReSpec ReFacts NLQParser ExtractorFacts Expected ParserFacts Further
       ExtraFacts.

(** X1.  The log level is the first of error, warn, info, debug, trace that
    occurs in the query as a substring: the entries "errors", "warning" and
    "warnings" of the list never decide, since each of them contains an
    earlier entry. *)
Theorem log_level_is_first_canonical (query : string) :
  _extract_log_level query = first_contained canonical_levels query.
Proof.
  unfold _extract_log_level, levels, canonical_levels.
  cbn [first_level first_contained].
  destruct (Py.contains "error" query) eqn:E; [reflexivity|].
  rewrite (contains_longer "error" "errors" query) by first [assumption | now exists "", "s"].
  destruct (Py.contains "warn" query) eqn:W; [reflexivity|].
  rewrite (contains_longer "warn" "warning" query) by first [assumption | now exists "", "ing"].
  rewrite (contains_longer "warn" "warnings" query) by first [assumption | now exists "", "ings"].
  reflexivity.
Qed.


(** X2.  A service name is only ever extracted from a query that contains
    "service"; the name is not empty, is made of letters, digits, hyphens and
    underscores only, and never ends with a hyphen (a captured name that ends
    with a hyphen gets "service" appended). *)
Theorem service_name_shape (query name : string) :
  _extract_service_name query = Py.Ok (Some name) ->
  Substring "service" query /\ name <> "" /\
  all_chars name_char name = true /\ Py.endswith_char name "-" = false.
Proof. apply first_service_shape. auto. Qed.

Lemma service_name_shape_witness :
  _extract_service_name "errors for checkout-service"
  = Py.Ok (Some "checkout-service") /\
  Substring "service" "errors for checkout-service" /\
  Py.endswith_char "checkout-service" "-" = false.
Proof.
  assert (E : _extract_service_name "errors for checkout-service"
              = Py.Ok (Some "checkout-service")) by (vm_compute; reflexivity).
  destruct (service_name_shape _ _ E) as (S & _ & _ & D). auto.
Defined.


(** X3.  Every search term is a run of lower-case letters, at least three
    letters long, and not a stop word. *)
Theorem search_terms_are_words (query term : string) :
  In term (_extract_search_terms query) ->
  3 <= String.length term /\
  all_chars Py.islower_ascii term = true /\
  Py.mem term stop_words = false.
Proof.
  unfold _extract_search_terms. intros H. apply filter_In in H as [I K].
  fold (cleaned_text query) in I.
  pose proof (cleaned_words_lower query term I) as L.
  unfold keep_word in K. rewrite (TextFacts.lower_lower term L) in K.
  apply andb_true_iff in K as [K _]. apply andb_true_iff in K as [S Len].
  apply Nat.ltb_lt in Len. split; [lia|]. split; [exact L|].
  now destruct (Py.mem term stop_words).
Qed.

Lemma search_terms_are_words_witness :
  3 <= String.length "timeout" /\ Py.mem "timeout" stop_words = false.
Proof.
  destruct (search_terms_are_words
              "database timeout yesterday in payment service" "timeout")
    as (L & _ & S).
  - vm_compute. auto.
  - auto.
Defined.


Ltac each_way H := split; [|split]; (split; intros H).

Ltac other_text H := vm_compute in H; discriminate H.

(** X4.  Which utterances get which answer of the cluster branch.  The
    cluster health call is the answer exactly when the unsupported check
    does not fire, a cluster trigger ("cluster health", "cluster status",
    "node", "shard") is in the normalized utterance, and so is "health" or
    "status".  The cat nodes call is the answer exactly when the unsupported
    check does not fire and "node" is in the normalized utterance but neither
    "health" nor "status": the nodes branch of the cat handler never gives
    it.  The cluster error is the answer exactly when "shard" is the only
    trigger. *)
Theorem cluster_routing (self : NLQParser.t) (u : string) :
  (fst (parse self u) = health_text <->
   _is_unsupported_query (normalize u) = false /\
   _is_cluster_query (normalize u) = true /\
   (Substring "health" (normalize u) \/ Substring "status" (normalize u)))
  /\
  (fst (parse self u) = nodes_text <->
   _is_unsupported_query (normalize u) = false /\
   Substring "node" (normalize u) /\
   ~ Substring "health" (normalize u) /\ ~ Substring "status" (normalize u))
  /\
  (fst (parse self u) = cluster_error_text <->
   _is_unsupported_query (normalize u) = false /\
   Substring "shard" (normalize u) /\
   ~ Substring "health" (normalize u) /\ ~ Substring "status" (normalize u) /\
   ~ Substring "node" (normalize u)).
Proof.
  rewrite <- !contains_false_iff, <- !contains_iff.
  pose proof (search_branch_text self u) as SB.
  pose proof (cluster_trigger (normalize u)) as CT.
  revert SB CT. rewrite parse_output. unfold _parse_to_dict, normalize.
  set (q := Py.strip (Py.lower u)).
  destruct (_is_unsupported_query q) eqn:U.
  { intros _ _. each_way H; try (other_text H); destruct H as [H _]; discriminate H. }
  destruct (_is_cluster_query q) eqn:C.
  { intros _ CT. unfold _handle_cluster_query.
    destruct (Py.contains "health" q) eqn:Hh;
      destruct (Py.contains "status" q) eqn:Hs;
      destruct (Py.contains "node" q) eqn:Hn; cbn [orb];
      each_way H; try (other_text H); try reflexivity;
      try (intuition congruence).
    destruct CT as [CT _]. specialize (CT eq_refl).
    repeat split; try reflexivity.
    destruct CT as [X|[X|[X|X]]]; try congruence.
    - apply (contains_longer "health" "cluster health") in Hh;
        [congruence | now exists "cluster ", ""].
    - apply (contains_longer "status" "cluster status") in Hs;
        [congruence | now exists "cluster ", ""]. }
  intros SB CT.
  assert (Nn : Py.contains "node" q = false).
  { destruct (Py.contains "node" q) eqn:X; [|reflexivity].
    assert (F : false = true) by (apply CT; auto). discriminate F. }
  assert (Ns : Py.contains "shard" q = false).
  { destruct (Py.contains "shard" q) eqn:X; [|reflexivity].
    assert (F : false = true) by (apply CT; auto). discriminate F. }
  destruct (_is_cat_query q) eqn:K.
  { unfold _handle_cat_query.
    rewrite (contains_longer "node" "nodes" q) by first [assumption | now exists "", "s"].
    rewrite (contains_longer "shard" "shards" q) by first [assumption | now exists "", "s"].
    destruct (Py.contains "indices" q || Py.contains "index" q);
      each_way H; try (other_text H); intuition congruence. }
  specialize (SB eq_refl eq_refl eq_refl).
  each_way H; try (intuition congruence);
    destruct SB as [P|P]; rewrite H in P; vm_compute in P; discriminate P.
Qed.


(** X5.  Which utterances get an answer of the cat branch.  The cat indices
    call is the answer exactly when neither the unsupported check nor the
    cluster check fires, one of the cat patterns occurs in the normalized
    utterance and "indices" is in it.  The cat error is the answer exactly
    when neither check fires, the pattern [\bcat\s+] occurs and "indices" is
    not in the normalized utterance: the list and show patterns never lead to
    it, and the "index", "nodes" and "shards" tests of the handler decide
    nothing. *)
Theorem cat_routing (self : NLQParser.t) (u : string) :
  (fst (parse self u) = indices_text <->
   _is_unsupported_query (normalize u) = false /\
   _is_cluster_query (normalize u) = false /\
   (exists p, In p cat_patterns /\ occurs p (normalize u)) /\
   Substring "indices" (normalize u))
  /\
  (fst (parse self u) = cat_error_text <->
   _is_unsupported_query (normalize u) = false /\
   _is_cluster_query (normalize u) = false /\
   occurs (seq [RBound; lit "cat"; plus Py.isspace]) (normalize u) /\
   ~ Substring "indices" (normalize u)).
Proof.
  rewrite <- contains_false_iff, <- contains_iff.
  pose proof (search_branch_text self u) as SB.
  pose proof (cat_trigger (normalize u)) as KT.
  pose proof (cat_past_cluster (normalize u)) as PC.
  pose proof (cluster_trigger (normalize u)) as CT.
  pose proof (keyword_absent (normalize u) "index") as KA.
  revert SB KT PC CT KA. rewrite parse_output. unfold _parse_to_dict, normalize.
  set (q := Py.strip (Py.lower u)).
  destruct (_is_unsupported_query q) eqn:U.
  { intros _ _ _ _ _.
    split; (split; intros H); try (other_text H); destruct H as [H _];
      discriminate H. }
  destruct (_is_cluster_query q) eqn:C.
  { intros _ _ _ _ _. unfold _handle_cluster_query.
    destruct (Py.contains "health" q || Py.contains "status" q);
      [|destruct (Py.contains "node" q)];
      split; (split; intros H); try (other_text H); destruct H as (_ & H & _);
      discriminate H. }
  intros SB KT PC CT KA.
  assert (Ki : Py.contains "index" q = false).
  { apply KA; [reflexivity|]. unfold unsupported_keywords. cbn [In]. tauto. }
  assert (Nn : Py.contains "nodes" q = false).
  { apply (contains_longer "node" "nodes"); [now exists "", "s"|].
    destruct (Py.contains "node" q) eqn:X; [|reflexivity].
    assert (F : false = true) by (apply CT; auto). discriminate F. }
  assert (Ns : Py.contains "shards" q = false).
  { apply (contains_longer "shard" "shards"); [now exists "", "s"|].
    destruct (Py.contains "shard" q) eqn:X; [|reflexivity].
    assert (F : false = true) by (apply CT; auto). discriminate F. }
  destruct (_is_cat_query q) eqn:K.
  - unfold _handle_cat_query. rewrite Ki, Nn, Ns, orb_false_r.
    destruct KT as [KT _]. destruct (KT eq_refl) as (p & I & O).
    destruct (Py.contains "indices" q) eqn:Ci.
    + split; (split; intros H); try (other_text H).
      * repeat split; eauto.
      * reflexivity.
      * destruct H as (_ & _ & _ & H). discriminate H.
    + split; (split; intros H); try (other_text H).
      * destruct H as (_ & _ & _ & H). discriminate H.
      * repeat split.
        destruct (PC p eq_refl I O) as [S| ->]; [|exact O].
        apply contains_iff in S. congruence.
      * reflexivity.
  - specialize (SB eq_refl eq_refl eq_refl).
    split; (split; intros H);
      try (destruct SB as [P|P]; rewrite H in P; vm_compute in P; discriminate P).
    + destruct H as (_ & _ & H & _).
      assert (F : false = true) by (apply KT; exact H). discriminate F.
    + destruct H as (_ & _ & H & _).
      assert (F : false = true).
      { apply KT. eexists. split; [|exact H]. unfold cat_patterns. cbn [In]. tauto. }
      discriminate F.
Qed.

(** X6.  The fixed error payload is the answer only to the utterances the
    unsupported check rejects: [parse] returns it exactly when an unsupported
    keyword is in the normalized utterance or a mutating-verb pattern occurs
    in it.  No cluster, cat or search answer is the same text, and neither is
    the text built when an exception is caught, which is written with the
    default separators. *)
Theorem unsupported_text_iff (self : NLQParser.t) (u : string) :
  fst (parse self u) = dumps_compact (error_dict UNSUPPORTED_MESSAGE) <->
  (exists kw, In kw unsupported_keywords /\ Substring kw (normalize u)) \/
  (exists p, In p modify_patterns /\ occurs p (normalize u)).
Proof.
  assert (E : (exists p, In p modify_patterns /\ occurs p (normalize u)) <->
              (exists p, In p modify_patterns /\ search p (normalize u) <> None)).
  { split; intros (p & I & H); exists p; (split; [exact I|]);
      now apply search_iff. }
  rewrite E, <- unsupported_iff.
  pose proof (search_branch_text self u) as SB.
  revert SB. rewrite parse_output. unfold _parse_to_dict, normalize.
  set (q := Py.strip (Py.lower u)).
  destruct (_is_unsupported_query q) eqn:U; [intros _; now split|].
  destruct (_is_cluster_query q) eqn:C.
  { intros _. unfold _handle_cluster_query.
    destruct (Py.contains "health" q || Py.contains "status" q);
      [|destruct (Py.contains "node" q)];
      (split; intros H; [other_text H | discriminate H]). }
  destruct (_is_cat_query q) eqn:K.
  { intros _. unfold _handle_cat_query.
    destruct (Py.contains "indices" q || Py.contains "index" q);
      [|destruct (Py.contains "nodes" q); [|destruct (Py.contains "shards" q)]];
      (split; intros H; [other_text H | discriminate H]). }
  intros SB. specialize (SB eq_refl eq_refl eq_refl).
  split; intros H; [|discriminate H].
  destruct SB as [P|P]; rewrite H in P; vm_compute in P; discriminate P.
Qed.


(** X7.  The answer of [parse] does not depend on the letter case of the
    utterance nor on white space around it: an utterance between two runs of
    white space gets the answer of its lower-cased form, and so does the
    utterance itself. *)
Theorem parse_ignores_case_and_padding (self : NLQParser.t) (a u b : string) :
  all_chars Py.isspace a = true -> all_chars Py.isspace b = true ->
  fst (parse self (a ++ u ++ b)) = fst (parse self (Py.lower u)) /\
  fst (parse self u) = fst (parse self (Py.lower u)).
Proof.
  intros A B. split; apply parse_of_normalized.
  - rewrite (normalize_padded a u b A B). unfold normalize.
    now rewrite lower_idem.
  - unfold normalize. now rewrite lower_idem.
Qed.

Lemma parse_ignores_case_and_padding_witness :
  fst (parse (__init__ false) ("  " ++ "Show ERRORS Today" ++ " "))
  = fst (parse (__init__ false) (Py.lower "Show ERRORS Today")) /\
  fst (parse (__init__ false) "Show ERRORS Today")
  = fst (parse (__init__ false) (Py.lower "Show ERRORS Today")).
Proof.
  apply (parse_ignores_case_and_padding (__init__ false) "  " "Show ERRORS Today" " ");
    reflexivity.
Defined.


(** X8.  The Webex request of a search.  For an utterance that reaches the
    facet extractors, whenever the parser builds its dictionary (it does
    unless the size capture has more than 4300 digits),
    [_convert_to_webex_format] applied to that dictionary raises nothing and
    builds the request whose size is the size of the dictionary capped at
    5000, at least 1, and whose filter list has one entry per must clause, in
    the order of the clauses: a phrase match for each match clause (level,
    service, search term), the range clause as it is.  The sort of the
    dictionary is not taken over. *)
Theorem webex_request_of_search (lg : Logger) (u : string) (now_ms : Z)
        (d : json) :
  search_intent (normalize u) ->
  _parse_to_dict (parser lg) u = Py.Ok d ->
  exists size clauses,
    d = search_dict size (query_of clauses) /\
    Forall parser_clause clauses /\
    WebexLogsClient._convert_to_webex_format now_ms
      [("size", JInt size); ("sort", fixed_sort); ("query", query_of clauses)]
    = Dyn.Done
        (webex_request now_ms (Z.min size 5000) (map to_filter clauses)) /\
    (1 <= Z.min size 5000 <= 5000)%Z.
Proof.
  intros SI Ed.
  destruct (search_dict_of_facets lg u SI) as (service & time & Es & Et & Ts & E).
  rewrite Ed in E.
  destruct (extract_size_ok (normalize u)) as [[size [Ez Pz]]|[digits [Ez L]]];
    rewrite Ez in E; cbn [Py.bind] in E; [|discriminate E].
  injection E as ->.
  eexists _, _. split; [reflexivity|].
  assert (F : Forall parser_clause
                (opt_list (option_map level_clause
                             (_extract_log_level (normalize u)))
                 ++ opt_list (option_map service_clause service)
                 ++ opt_list time
                 ++ map term_clause (_extract_search_terms (normalize u)))%list).
  { repeat (apply Forall_app; split).
    - destruct (_extract_log_level _); cbn [option_map opt_list];
        constructor; [left; unfold level_clause; eauto | constructor].
    - destruct service; cbn [option_map opt_list];
        constructor; [left; unfold service_clause; eauto | constructor].
    - destruct time as [c|]; cbn [opt_list]; constructor; [|constructor].
      right. eapply time_filter_is_range. exact Et.
    - apply Forall_forall. intros c I. apply in_map_iff in I as (term & <- & _).
      left. unfold term_clause. eauto. }
  split; [exact F|]. split; [now apply convert_search_dict|].
  destruct size as [n|]; cbn [truthy_int].
  - specialize (Pz n eq_refl). destruct n; cbn [truthy_int]; lia.
  - lia.
Qed.

Lemma webex_request_of_search_witness :
  exists size clauses,
    search_dict 9000 (bool_must [level_clause "error";
                                 gte_clause "now/d"])
    = search_dict size (query_of clauses) /\
    Forall parser_clause clauses /\
    WebexLogsClient._convert_to_webex_format 1700000000000
      [("size", JInt size); ("sort", fixed_sort); ("query", query_of clauses)]
    = Dyn.Done
        (webex_request 1700000000000 (Z.min size 5000) (map to_filter clauses)) /\
    (1 <= Z.min size 5000 <= 5000)%Z.
Proof.
  apply (webex_request_of_search (MkLogger false []) "Top 9000 errors today"
                                 1700000000000%Z).
  - repeat split; vm_compute; reflexivity.
  - vm_compute. reflexivity.
Defined.

(** X9.  The cookies of a client are well formed, whatever string it is
    built from: [__init__] raises nothing (the unpacking of the name and the
    value always finds two parts), no name is stored twice, no name or value
    starts or ends with white space or holds a semicolon, and no name holds
    an equals sign. *)
Theorem cookies_are_well_formed (cookies_string access_token : option string)
        (host : string) :
  exists self,
    WebexLogsClient.__init__ cookies_string access_token host
    = Dyn.Done self /\
    NoDup (map fst (WebexLogsClient.cookies self)) /\
    Forall cookie_pair (WebexLogsClient.cookies self).
Proof.
  unfold WebexLogsClient.__init__.
  assert (E : exists jar,
             match cookies_string with
             | Some (String c s) =>
                 WebexLogsClient.add_cookies []
                   (WebexLogsClient.split ";" (String c s))
             | _ => Dyn.Done []
             end = Dyn.Done jar /\
             NoDup (map fst jar) /\ Forall cookie_pair jar).
  { destruct cookies_string as [[|c s]|];
      try (exists []; repeat split; constructor).
    apply add_cookies_clean; [apply split_lacks | constructor | constructor]. }
  destruct E as (jar & -> & N & F). cbn [Dyn.bind].
  eexists. split; [reflexivity|]. now split.
Qed.

(** X10.  A cookie header is read back as it was written: for names and
    values without white space at their ends and without semicolon, the names
    without equals sign and all different, the client built from the pairs
    joined as [name=value] with "; " between them holds exactly these pairs,
    in their order. *)
Theorem cookie_header_round_trip (pairs : list (string * string))
        (access_token : option string) (host : string) :
  Forall cookie_pair pairs -> NoDup (map fst pairs) ->
  exists self,
    WebexLogsClient.__init__ (Some (cookie_header pairs)) access_token host
    = Dyn.Done self /\
    WebexLogsClient.cookies self = pairs.
Proof.
  intros F N. unfold WebexLogsClient.__init__.
  destruct pairs as [|p pairs]; [cbn; eauto|].
  destruct (cookie_header (p :: pairs)) as [|c s] eqn:H.
  { now apply cookie_header_nonempty in H. }
  cbv iota. rewrite <- H.
  pose proof (add_header (p :: pairs) [] "" ltac:(discriminate)
                         eq_refl eq_refl F N) as A.
  change ("" ++ cookie_header (p :: pairs)) with (cookie_header (p :: pairs)) in A.
  rewrite A. cbn [Dyn.bind app]. eauto.
Qed.

Lemma cookie_header_round_trip_witness :
  exists self,
    WebexLogsClient.__init__
      (Some (cookie_header [("sid", "a1=b2"); ("theme", "dark")]))
      None "https://logs.example.com"
    = Dyn.Done self /\
    WebexLogsClient.cookies self = [("sid", "a1=b2"); ("theme", "dark")].
Proof.
  apply (cookie_header_round_trip [("sid", "a1=b2"); ("theme", "dark")] None
                                  "https://logs.example.com").
  - repeat constructor.
  - repeat constructor; cbn; intuition discriminate.
Defined.


(** X11.  Without execution the OpenSearch client answers with the text of
    the parser, whatever the utterance: when [json.loads] reads that text
    back as the dictionary it was written from, [query] with [execute] false
    raises nothing and returns the text of [parse] on every path, the
    cluster health, cat and error paths included. *)
Theorem query_without_execute (loads : string -> option json)
        (self : OpenSearchNLQClient.t) (u index : string) (d : json) :
  _parse_to_dict (OpenSearchNLQClient.nlq_parser self) u = Py.Ok d ->
  loads (fst (parse (OpenSearchNLQClient.nlq_parser self) u)) = Some d ->
  OpenSearchNLQClient.query loads self u index false
  = Dyn.Done (OpenSearchNLQClient.ReturnText
                (fst (parse (OpenSearchNLQClient.nlq_parser self) u))).
Proof.
  intros E L. unfold OpenSearchNLQClient.query. cbv zeta. rewrite L. clear L.
  generalize (fst (parse (OpenSearchNLQClient.nlq_parser self) u)). intros text.
  apply parse_to_dict_shape in E
    as [(msg & _ & ->)|[(path & I & ->)|(n & query & ->)]];
    [reflexivity | | reflexivity].
  cbn [In] in I. destruct I as [<-|[<-|[<-|[]]]]; reflexivity.
Qed.

Lemma query_without_execute_witness :
  OpenSearchNLQClient.query
    (reads_back indices_text (api_dict "_cat/indices?v"))
    (OpenSearchNLQClient.Build (__init__ true)) "List indices" "logs-*" false
  = Dyn.Done (OpenSearchNLQClient.ReturnText
                (fst (parse (__init__ true) "List indices"))).
Proof.
  apply (query_without_execute _ (OpenSearchNLQClient.Build (__init__ true))
                               "List indices" "logs-*"
                               (api_dict "_cat/indices?v"));
    vm_compute; reflexivity.
Defined.

(** X12.  What the OpenSearch client does with an utterance when it
    executes: when [json.loads] reads the text of the parser back as the
    dictionary it was written from, [query] raises nothing and either asks
    for the cluster health (the cluster health call), lists the indices (the
    cat indices call), returns the dictionary (an error dictionary) or runs a
    search with the dictionary as its body.  The last case takes every
    search dictionary and also the cat nodes call, which has no handler. *)
Theorem query_with_execute (loads : string -> option json)
        (self : OpenSearchNLQClient.t) (u index : string) (d : json) :
  _parse_to_dict (OpenSearchNLQClient.nlq_parser self) u = Py.Ok d ->
  loads (fst (parse (OpenSearchNLQClient.nlq_parser self) u)) = Some d ->
  (d = api_dict "_cluster/health" /\
   OpenSearchNLQClient.query loads self u index true
   = Dyn.Done OpenSearchNLQClient.GetClusterHealth) \/
  (d = api_dict "_cat/indices?v" /\
   OpenSearchNLQClient.query loads self u index true
   = Dyn.Done OpenSearchNLQClient.ListIndices) \/
  ((exists msg, d = error_dict msg) /\
   OpenSearchNLQClient.query loads self u index true
   = Dyn.Done (OpenSearchNLQClient.ReturnDict d)) \/
  ((d = api_dict "_cat/nodes?v" \/
    exists n sort query,
      d = JDict [("size", JInt n); ("sort", sort); ("query", query)]) /\
   OpenSearchNLQClient.query loads self u index true
   = Dyn.Done (OpenSearchNLQClient.ExecuteSearch d index)).
Proof.
  intros E L. unfold OpenSearchNLQClient.query. cbv zeta. rewrite L. clear L.
  generalize (fst (parse (OpenSearchNLQClient.nlq_parser self) u)). intros text.
  apply parse_to_dict_shape in E
    as [(msg & _ & ->)|[(path & I & ->)|(n & query & ->)]].
  - right. right. left. split; [eauto | reflexivity].
  - cbn [In] in I. destruct I as [<-|[<-|[<-|[]]]].
    + left. now split.
    + right. right. right. split; [now left | reflexivity].
    + right. left. now split.
  - right. right. right. split; [right; eauto | reflexivity].
Qed.

Lemma query_with_execute_witness :
  (api_dict "_cat/nodes?v" = api_dict "_cluster/health" /\
   OpenSearchNLQClient.query
     (reads_back nodes_text (api_dict "_cat/nodes?v"))
     (OpenSearchNLQClient.Build (__init__ true)) "Show nodes" "logs-*" true
   = Dyn.Done OpenSearchNLQClient.GetClusterHealth) \/
  (api_dict "_cat/nodes?v" = api_dict "_cat/indices?v" /\
   OpenSearchNLQClient.query
     (reads_back nodes_text (api_dict "_cat/nodes?v"))
     (OpenSearchNLQClient.Build (__init__ true)) "Show nodes" "logs-*" true
   = Dyn.Done OpenSearchNLQClient.ListIndices) \/
  ((exists msg, api_dict "_cat/nodes?v" = error_dict msg) /\
   OpenSearchNLQClient.query
     (reads_back nodes_text (api_dict "_cat/nodes?v"))
     (OpenSearchNLQClient.Build (__init__ true)) "Show nodes" "logs-*" true
   = Dyn.Done (OpenSearchNLQClient.ReturnDict (api_dict "_cat/nodes?v"))) \/
  ((api_dict "_cat/nodes?v" = api_dict "_cat/nodes?v" \/
    exists n sort query,
      api_dict "_cat/nodes?v"
      = JDict [("size", JInt n); ("sort", sort); ("query", query)]) /\
   OpenSearchNLQClient.query
     (reads_back nodes_text (api_dict "_cat/nodes?v"))
     (OpenSearchNLQClient.Build (__init__ true)) "Show nodes" "logs-*" true
   = Dyn.Done (OpenSearchNLQClient.ExecuteSearch (api_dict "_cat/nodes?v")
                                                 "logs-*")).
Proof.
  apply (query_with_execute (reads_back nodes_text (api_dict "_cat/nodes?v"))
                            (OpenSearchNLQClient.Build (__init__ true))
                            "Show nodes" "logs-*" (api_dict "_cat/nodes?v"));
    vm_compute; reflexivity.
Defined.

(** X13.  What the Webex client does with an utterance: when [json.loads]
    reads the text of the parser back as the dictionary it was written from,
    [query] raises nothing; it returns an error dictionary as it is, without
    a request, hands the path of a cluster or cat call to
    [_execute_api_query], the cat nodes call included, and hands a search
    dictionary to [_execute_search_query]. *)
Theorem webex_query_routing (loads : string -> option json)
        (self : WebexLogsClient.t) (u : string) (d : json) :
  _parse_to_dict (WebexLogsClient.parser self) u = Py.Ok d ->
  loads (fst (parse (WebexLogsClient.parser self) u)) = Some d ->
  ((exists msg, d = error_dict msg) /\
   WebexLogsClient.query loads self u
   = Dyn.Done (WebexLogsClient.Return d)) \/
  (exists path,
     In path ["_cluster/health"; "_cat/nodes?v"; "_cat/indices?v"] /\
     d = api_dict path /\
     WebexLogsClient.query loads self u
     = Dyn.Done (WebexLogsClient.ExecuteApiQuery (JStr path))) \/
  ((exists n sort query,
      d = JDict [("size", JInt n); ("sort", sort); ("query", query)]) /\
   WebexLogsClient.query loads self u
   = Dyn.Done (WebexLogsClient.ExecuteSearchQuery d)).
Proof.
  intros E L. unfold WebexLogsClient.query. cbv zeta. rewrite L. clear L.
  apply parse_to_dict_shape in E
    as [(msg & _ & ->)|[(path & I & ->)|(n & query & ->)]].
  - left. split; [eauto | reflexivity].
  - right. left. exists path. split; [exact I|]. split; reflexivity.
  - right. right. split; [eauto | reflexivity].
Qed.

Lemma webex_query_routing_witness :
  ((exists msg, api_dict "_cat/nodes?v" = error_dict msg) /\
   WebexLogsClient.query
       (reads_back nodes_text (api_dict "_cat/nodes?v"))
       (WebexLogsClient.Build "https://logs.example.com" None (__init__ true)
                              [] [])
       "Show nodes"
   = Dyn.Done (WebexLogsClient.Return (api_dict "_cat/nodes?v"))) \/
  (exists path,
     In path ["_cluster/health"; "_cat/nodes?v"; "_cat/indices?v"] /\
     api_dict "_cat/nodes?v" = api_dict path /\
     WebexLogsClient.query
       (reads_back nodes_text (api_dict "_cat/nodes?v"))
       (WebexLogsClient.Build "https://logs.example.com" None (__init__ true)
                              [] [])
       "Show nodes"
     = Dyn.Done (WebexLogsClient.ExecuteApiQuery (JStr path))) \/
  ((exists n sort query,
      api_dict "_cat/nodes?v"
      = JDict [("size", JInt n); ("sort", sort); ("query", query)]) /\
   WebexLogsClient.query
       (reads_back nodes_text (api_dict "_cat/nodes?v"))
       (WebexLogsClient.Build "https://logs.example.com" None (__init__ true)
                              [] [])
       "Show nodes"
   = Dyn.Done (WebexLogsClient.ExecuteSearchQuery (api_dict "_cat/nodes?v"))).
Proof.
  apply (webex_query_routing
           (reads_back nodes_text (api_dict "_cat/nodes?v"))
           (WebexLogsClient.Build "https://logs.example.com" None
                                  (__init__ true) [] [])
           "Show nodes" (api_dict "_cat/nodes?v"));
    vm_compute; reflexivity.
Defined.


(** X14.  The unsupported check in short.  An utterance is rejected exactly
    when it holds one of nineteen keywords, or "add" or "remove" followed by
    white space and "field", or "modify" followed by white space.  The
    keywords "mappings", "reindex" and "aliases" add nothing to "mapping",
    "index" and "alias", and of the eight patterns only these three forms
    reach beyond the keywords: every other pattern, and every other
    alternative of the add and remove patterns, needs a keyword. *)
Theorem unsupported_check_in_short (query : string) :
  _is_unsupported_query query = true <->
  (exists kw, In kw essential_keywords /\ Substring kw query) \/
  verb_then "add" "field" query \/
  verb_then "remove" "field" query \/
  verb_then "modify" "" query.
Proof.
  assert (K : forall kw, In kw essential_keywords -> Substring kw query ->
                         (exists kw', In kw' essential_keywords /\
                                      Substring kw' query) \/
                         verb_then "add" "field" query \/
                         verb_then "remove" "field" query \/
                         verb_then "modify" "" query) by (left; eauto).
  rewrite unsupported_iff. split.
  - intros [(kw & I & S) | (p & I & H)].
    + left. eapply keyword_has_essential; eauto.
    + apply search_iff in H. unfold modify_patterns in I. cbn [In] in I.
      destruct I as [<-|[<-|[<-|[<-|[<-|[<-|[<-|[<-|[]]]]]]]]].
      * apply verb_object_pattern in H as (w & _ & V).
        apply (K "create"); [vm_compute; tauto | eapply verb_then_verb; eauto].
      * apply verb_object_pattern in H as (w & _ & V).
        apply (K "delete"); [vm_compute; tauto | eapply verb_then_verb; eauto].
      * apply verb_object_pattern in H as (w & _ & V).
        apply (K "update"); [vm_compute; tauto | eapply verb_then_verb; eauto].
      * apply verb_pattern in H.
        apply (K "insert"); [vm_compute; tauto | eapply verb_then_verb; eauto].
      * apply verb_object_pattern in H as (w & Iw & V). cbn [In] in Iw.
        destruct Iw as [<-|[<-|[<-|[]]]]; [tauto | |].
        -- apply (K "mapping"); [vm_compute; tauto | eapply verb_then_object; eauto].
        -- apply (K "alias"); [vm_compute; tauto | eapply verb_then_object; eauto].
      * apply verb_object_pattern in H as (w & Iw & V). cbn [In] in Iw.
        destruct Iw as [<-|[<-|[<-|[]]]]; [tauto | |].
        -- apply (K "mapping"); [vm_compute; tauto | eapply verb_then_object; eauto].
        -- apply (K "alias"); [vm_compute; tauto | eapply verb_then_object; eauto].
      * apply verb_pattern in H. tauto.
      * apply verb_object_pattern in H as (w & Iw & V). cbn [In] in Iw.
        destruct Iw as [<-|[<-|[]]].
        -- apply (K "mapping"); [vm_compute; tauto | eapply verb_then_object; eauto].
        -- apply (K "settings"); [vm_compute; tauto | eapply verb_then_object; eauto].
  - intros [(kw & I & S) | [V | [V | V]]].
    + left. exists kw. split; [now apply essential_is_keyword | exact S].
    + right. eexists. split; [|apply search_iff, verb_object_pattern].
      * unfold modify_patterns. cbn [In]. do 4 right. left. reflexivity.
      * exists "field". split; [cbn [In]; tauto | exact V].
    + right. eexists. split; [|apply search_iff, verb_object_pattern].
      * unfold modify_patterns. cbn [In]. do 5 right. left. reflexivity.
      * exists "field". split; [cbn [In]; tauto | exact V].
    + right. eexists. split; [|apply search_iff, verb_pattern].
      * unfold modify_patterns. cbn [In]. do 6 right. left. reflexivity.
      * exact V.
Qed.

End Extras.
